(** * Image preprocessing for ESP32-CAM inference (image_utils.h)

    A shallow embedding of [bilinear_interpolate] and
    [preprocessImageForML]: JPEG frame -> RGB888 -> grayscale ->
    bilinear resize -> INT8 tensor.

    - [float] is IEEE-754 binary32, every operation rounded once to nearest
      even ([SpecFloat] at precision 24, emax 128);
    - [int] is a 32-bit two's complement integer, carried as [Z]; signed
      overflow is undefined behaviour;
    - memory is a finite map from block addresses to arrays; reading or
      writing outside a live block is undefined behaviour;
    - [malloc], [free], loads, stores and the serial log are effects of a
      state monad whose state also records a trace of what happened. *)

From Stdlib Require Import ZArith Lia Strings.Byte.
From Stdlib Require Import Floats.SpecFloat.
From stdpp Require Import base option list gmap strings.

Local Open Scope Z_scope.

(** ** Machine integers *)

Definition INT_MAX : Z := 2147483647.
Definition INT_MIN : Z := -2147483648.

Definition in_int (z : Z) : bool := (INT_MIN <=? z) && (z <=? INT_MAX).

(** Conversion to [int] of a value that does not fit wraps modulo 2^32
    (the [size_t] fields of the frame assigned to [int] variables). *)
Definition wrap_int (z : Z) : Z := (z + 2 ^ 31) mod 2 ^ 32 - 2 ^ 31.

(** [size_t] is 32 bits wide on the ESP32. *)
Definition wrap_size_t (z : Z) : Z := z mod 2 ^ 32.

(** [(int8_t)z] *)
Definition wrap_int8 (z : Z) : Z := (z + 128) mod 256 - 128.

(** ** Bytes: [uint8_t] *)

Definition u8_val (b : byte) : Z := Z.of_N (Byte.to_N b).

Definition u8_of_Z (z : Z) : byte :=
  match Byte.of_N (Z.to_N (z mod 256)) with
  | Some b => b
  | None => x00
  end.

(** ** binary32 arithmetic *)

Module F32.

Definition prec : Z := 24.
Definition emax : Z := 128.

Definition float : Type := spec_float.

Definition add : float -> float -> float := SFadd prec emax.
Definition sub : float -> float -> float := SFsub prec emax.
Definition mul : float -> float -> float := SFmul prec emax.
Definition div : float -> float -> float := SFdiv prec emax.

(** [(float)z] for an integer [z]: the nearest binary32. *)
Definition of_Z (z : Z) : float := binary_normalize prec emax z 0 false.

Definition zero : float := S754_zero false.
Definition one : float := Eval vm_compute in of_Z 1.

(** Magnitude of [m * 2^e] with the fraction dropped. *)
Definition trunc_mag (m : positive) (e : Z) : Z :=
  match e with
  | Z0 => Zpos m
  | Zpos _ => Z.shiftl (Zpos m) e
  | Zneg k => Z.shiftr (Zpos m) (Zpos k)
  end.

(** Integer part, rounding toward zero; nothing for NaN and infinities. *)
Definition trunc (f : float) : option Z :=
  match f with
  | S754_zero _ => Some 0
  | S754_finite s m e => Some (cond_Zopp s (trunc_mag m e))
  | S754_infinity _ | S754_nan => None
  end.

(** Integer part, rounding toward minus infinity. *)
Definition floor (f : float) : option Z :=
  match f with
  | S754_zero _ => Some 0
  | S754_finite false m e => Some (trunc_mag m e)
  | S754_finite true m e =>
      match e with
      | Zneg k => Some (- Z.shiftr (Zpos m + (2 ^ Zpos k - 1)) (Zpos k))
      | _ => Some (- trunc_mag m e)
      end
  | S754_infinity _ | S754_nan => None
  end.

(** The sign bit is clear (and the float is not NaN). *)
Definition nonneg (f : float) : bool :=
  match f with
  | S754_zero s | S754_finite s _ _ | S754_infinity s => negb s
  | S754_nan => false
  end.

(** [(int)f]: undefined when the integer part is not an [int]. *)
Definition to_int (f : float) : option Z :=
  match trunc f with
  | Some z => if in_int z then Some z else None
  | None => None
  end.

(** [(uint8_t)f]: undefined when the integer part is not a [uint8_t]
    value, 0..255, and for NaN and the infinities. *)
Definition to_u8 (f : float) : option byte :=
  match trunc f with
  | Some z => if (0 <=? z) && (z <=? 255) then Some (u8_of_Z z) else None
  | None => None
  end.

(** The literals [0.299f], [0.587f] and [0.114f]: the binary32 nearest
    to each decimal, which is the correctly rounded quotient. *)
Definition c0_299 : float := Eval vm_compute in div (of_Z 299) (of_Z 1000).
Definition c0_587 : float := Eval vm_compute in div (of_Z 587) (of_Z 1000).
Definition c0_114 : float := Eval vm_compute in div (of_Z 114) (of_Z 1000).

End F32.

(** Classes of floats the proofs distinguish. *)

(** A positive normal number: 24 significant bits. *)
Definition normal24 (f : F32.float) : Prop :=
  exists m e, f = S754_finite false m e /\ digits2_pos m = 24%positive /\ -149 <= e <= 104.

Definition finite_or_zero (f : F32.float) : Prop :=
  match f with
  | S754_zero _ | S754_finite _ _ _ => True
  | S754_infinity _ | S754_nan => False
  end.

(** NaN, or sign bit clear. *)
Definition not_negative (f : F32.float) : Prop := f = S754_nan \/ F32.nonneg f = true.

(** [f] is [+0], or positive with exponent at least [lo] and value at most
    [B / 2^128]. *)
Definition bounded_by (lo B : Z) (f : F32.float) : Prop :=
  match f with
  | S754_zero false => True
  | S754_finite false m e => lo <= e /\ Zpos m * 2 ^ (e + 128) <= B
  | _ => False
  end.

(** The value of a positive float, times [2^200]; an integer for every
    exponent from -200. *)
Definition scaled_value (f : F32.float) : Z :=
  match f with
  | S754_finite false m e => Zpos m * 2 ^ (e + 200)
  | _ => 0
  end.

(** [+0], or a positive normal number with exponent at least [lo]. *)
Definition positive_normal (lo : Z) (f : F32.float) : Prop :=
  match f with
  | S754_zero false => True
  | S754_finite false m e => digits2_pos m = 24%positive /\ lo <= e
  | _ => False
  end.

(** ** The machine: memory, allocator and trace *)

Definition loc : Type := positive.

(** What the code does to the outside world, in the order it does it. *)
Inductive event : Type :=
  | EvPrint (fmt : string) (args : list Z)       (* Serial.println / printf *)
  | EvMalloc (size : Z) (p : option loc)         (* malloc and its answer *)
  | EvFree (p : loc)
  | EvDecode (dst : loc) (ok : bool)             (* fmt2rgb888 and its answer *)
  | EvLoad (p : loc) (i : Z)                     (* read of a uint8_t *)
  | EvStore (p : loc) (i : Z) (b : byte)         (* write of a uint8_t *)
  | EvWrite (p : loc) (i : Z) (v : Z).           (* write of an int8_t *)

(** [heap] holds the live [uint8_t] arrays (the caller's and the
    malloc'ed ones), [tensors] the live [int8_t] arrays.  [oracle] lists
    the answers of the allocator to the requests still to come: [None]
    for a null pointer, [Some g] for a block whose uninitialised contents
    are [g].  [trace] has the newest event first. *)
Record machine : Type := Machine {
  heap : gmap loc (list byte);
  tensors : gmap loc (list Z);
  oracle : list (option (list byte));
  trace : list event
}.

Inductive outcome (A : Type) : Type :=
  | Done (a : A) (m : machine)
  | Undefined.
Arguments Done {A} a m.
Arguments Undefined {A}.

Definition M (A : Type) : Type := machine -> outcome A.

#[global] Instance M_ret : MRet M := fun A a m => Done a m.
#[global] Instance M_bind : MBind M := fun A B f c m =>
  match c m with
  | Done a m' => f a m'
  | Undefined => Undefined
  end.

Definition undefined {A} : M A := fun _ => Undefined.

(** [!p] for a pointer *)
Definition is_null (p : option loc) : bool :=
  match p with
  | Some _ => false
  | None => true
  end.

Definition emit (ev : event) : M unit := fun m =>
  Done tt (Machine (heap m) (tensors m) (oracle m) (ev :: trace m)).

Definition println (s : string) : M unit := emit (EvPrint s []).
Definition printf (s : string) (args : list Z) : M unit := emit (EvPrint s args).

(** Signed arithmetic on [int]. *)
Definition check_int (z : Z) : M Z :=
  if in_int z then mret z else undefined.
Definition int_add (a b : Z) : M Z := check_int (a + b).
Definition int_sub (a b : Z) : M Z := check_int (a - b).
Definition int_mul (a b : Z) : M Z := check_int (a * b).

Definition float_to_int (f : F32.float) : M Z :=
  match F32.to_int f with
  | Some z => mret z
  | None => undefined
  end.

Definition float_to_u8 (f : F32.float) : M byte :=
  match F32.to_u8 f with
  | Some b => mret b
  | None => undefined
  end.

(** [malloc]: the allocator decides; a granted block sits at an address
    that is not live and has [size] bytes of arbitrary contents. *)
Definition malloc (size : Z) : M (option loc) := fun m =>
  match oracle m with
  | Some g :: rest =>
      let p := fresh (dom (heap m)) in
      Done (Some p)
        (Machine (<[p := resize (Z.to_nat size) x00 g]> (heap m)) (tensors m) rest
                 (EvMalloc size (Some p) :: trace m))
  | None :: rest =>
      Done None (Machine (heap m) (tensors m) rest (EvMalloc size None :: trace m))
  | [] =>
      Done None (Machine (heap m) (tensors m) [] (EvMalloc size None :: trace m))
  end.

Definition free (p : loc) : M unit := fun m =>
  match heap m !! p with
  | Some _ =>
      Done tt (Machine (delete p (heap m)) (tensors m) (oracle m) (EvFree p :: trace m))
  | None => Undefined
  end.

(** [p[i]] on a [uint8_t*] *)
Definition load (p : loc) (i : Z) : M byte := fun m =>
  match heap m !! p with
  | Some l =>
      if 0 <=? i then
        match l !! Z.to_nat i with
        | Some b => Done b (Machine (heap m) (tensors m) (oracle m) (EvLoad p i :: trace m))
        | None => Undefined
        end
      else Undefined
  | None => Undefined
  end.

(** [p[i] = b] on a [uint8_t*] *)
Definition store (p : loc) (i : Z) (b : byte) : M unit := fun m =>
  match heap m !! p with
  | Some l =>
      if (0 <=? i) && (i <? Z.of_nat (length l)) then
        Done tt (Machine (<[p := <[Z.to_nat i := b]> l]> (heap m)) (tensors m) (oracle m)
                         (EvStore p i b :: trace m))
      else Undefined
  | None => Undefined
  end.

(** [p[i] = v] on an [int8_t*] *)
Definition write (p : loc) (i : Z) (v : Z) : M unit := fun m =>
  match tensors m !! p with
  | Some l =>
      if (0 <=? i) && (i <? Z.of_nat (length l)) then
        Done tt (Machine (heap m) (<[p := <[Z.to_nat i := v]> l]> (tensors m)) (oracle m)
                         (EvWrite p i v :: trace m))
      else Undefined
  | None => Undefined
  end.

(** [for (int i = lo; i < hi; i++) body(i)] *)
Fixpoint iterate (k : nat) (i : Z) (body : Z -> M unit) : M unit :=
  match k with
  | O => mret tt
  | S k' => body i ;; iterate k' (i + 1) body
  end.

Definition for_loop (lo hi : Z) (body : Z -> M unit) : M unit :=
  iterate (Z.to_nat (hi - lo)) lo body.

(** ** bilinear_interpolate *)

(** [a * w + b] in [int] arithmetic *)
Definition index2 (a w b : Z) : M Z :=
  t ← int_mul a w; int_add t b.

(** The interpolated value from the four neighbours and the two
    fractional offsets, with the source's association of the products
    and of the sum. *)
Definition blend (p1 p2 p3 p4 : byte) (dx dy : F32.float) : F32.float :=
  let f (p : byte) := F32.of_Z (u8_val p) in
  let one_dx := F32.sub (F32.of_Z 1) dx in
  let one_dy := F32.sub (F32.of_Z 1) dy in
  F32.add
    (F32.add
       (F32.add (F32.mul (F32.mul (f p1) one_dx) one_dy)
                (F32.mul (F32.mul (f p2) dx) one_dy))
       (F32.mul (F32.mul (f p3) one_dx) dy))
    (F32.mul (F32.mul (f p4) dx) dy).

Definition bilinear_interpolate (img : loc) (width height : Z) (x y : F32.float) : M byte :=
  x1 ← float_to_int x;
  y1 ← float_to_int y;
  x2 ← int_add x1 1;
  y2 ← int_add y1 1;
  x2 ← (if x2 >=? width then int_sub width 1 else mret x2);
  y2 ← (if y2 >=? height then int_sub height 1 else mret y2);
  let dx := F32.sub x (F32.of_Z x1) in
  let dy := F32.sub y (F32.of_Z y1) in
  i1 ← index2 y1 width x1; p1 ← load img i1;
  i2 ← index2 y1 width x2; p2 ← load img i2;
  i3 ← index2 y2 width x1; p3 ← load img i3;
  i4 ← index2 y2 width x2; p4 ← load img i4;
  float_to_u8 (blend p1 p2 p3 p4 dx dy).

(** ** preprocessImageForML *)

(** [0.299f * r + 0.587f * g + 0.114f * b], the bytes promoted to [float] *)
Definition luma_sum (r g b : byte) : F32.float :=
  F32.add
    (F32.add (F32.mul F32.c0_299 (F32.of_Z (u8_val r)))
             (F32.mul F32.c0_587 (F32.of_Z (u8_val g))))
    (F32.mul F32.c0_114 (F32.of_Z (u8_val b))).

(** The byte [(uint8_t)(0.299f * r + 0.587f * g + 0.114f * b)] yields.
    The conversion is defined for all [r], [g] and [b] (lemma
    [luma_cast_defined]), so the default is never taken. *)
Definition luma (r g b : byte) : byte := default x00 (F32.to_u8 (luma_sum r g b)).



(** [(int8_t)(pixel - 128)] *)
Definition quantize (pixel : byte) : Z := wrap_int8 (u8_val pixel - 128).

Section Pipeline.

(** The camera driver's header is not part of the sources.  Of
    [camera_fb_t] the code uses five fields: [width] and [height] are
    [size_t] there; the pixel format tag is left abstract, and so is the
    converter [fmt2rgb888], which from the frame's bytes, its length and
    its format reports failure or yields the RGB888 bytes it has put at
    the start of the destination. *)
Variable pixformat_t : Type.
Variable fmt2rgb888 : list byte -> Z -> pixformat_t -> option (list byte).

Record camera_fb_t : Type := CameraFb {
  buf : option loc;
  len : Z;
  width : Z;
  height : Z;
  format : pixformat_t
}.

(** The call [fmt2rgb888(src, len, format, dst)].  The converter reads
    the source block and overwrites a prefix of the destination; a null
    or dead source, and output that does not fit, are undefined. *)
Definition call_fmt2rgb888 (src : option loc) (n : Z) (fmt : pixformat_t)
    (dst : loc) : M bool := fun m =>
  match src ≫= (fun p => heap m !! p), heap m !! dst with
  | Some bytes, Some old =>
      match fmt2rgb888 bytes n fmt with
      | Some rgb =>
          if (length rgb <=? length old)%nat then
            Done true
              (Machine (<[dst := rgb ++ drop (length rgb) old]> (heap m)) (tensors m)
                       (oracle m) (EvDecode dst true :: trace m))
          else Undefined
      | None =>
          Done false (Machine (heap m) (tensors m) (oracle m)
                              (EvDecode dst false :: trace m))
      end
  | _, _ => Undefined
  end.

(** One iteration of the grayscale loop. *)
Definition gray_body (rgb888_buf gray_buf : loc) (i : Z) : M unit :=
  i0 ← int_mul i 3; r ← load rgb888_buf i0;
  i1 ← int_add i0 1; g ← load rgb888_buf i1;
  i2 ← int_add i0 2; b ← load rgb888_buf i2;
  v ← float_to_u8 (luma_sum r g b);
  store gray_buf i v.

(** One iteration of the inner resize loop. *)
Definition resize_body (gray_buf output_buffer : loc) (src_width src_height target_size : Z)
    (x_ratio y_ratio : F32.float) (y x : Z) : M unit :=
  let src_x := F32.mul (F32.of_Z x) x_ratio in
  let src_y := F32.mul (F32.of_Z y) y_ratio in
  pixel ← bilinear_interpolate gray_buf src_width src_height src_x src_y;
  k ← index2 y target_size x;
  write output_buffer k (quantize pixel).

Definition preprocessImageForML (fb : option camera_fb_t) (output_buffer : option loc)
    (target_size : Z) : M bool :=
  match fb, output_buffer with
  | Some fb, Some output_buffer =>
      println "Converting JPEG to RGB...";;
      let rgb888_len := wrap_size_t (width fb * height fb * 3) in
      rgb888_buf ← malloc rgb888_len;
      match rgb888_buf with
      | None =>
          println "Failed to allocate RGB888 buffer";;
          mret false
      | Some rgb888_buf =>
          jpeg_converted ← call_fmt2rgb888 (buf fb) (len fb) (format fb) rgb888_buf;
          if negb jpeg_converted || is_null (Some rgb888_buf) then
            println "JPEG conversion failed";;
            mret false
          else
            let src_width := wrap_int (width fb) in
            let src_height := wrap_int (height fb) in
            printf "Original size: %dx%d\n" [src_width; src_height];;
            printf "Target size: %dx%d\n" [target_size; target_size];;
            n ← int_mul src_width src_height;
            gray_buf ← malloc (wrap_size_t n);
            match gray_buf with
            | None =>
                free rgb888_buf;;
                println "Failed to allocate grayscale buffer";;
                mret false
            | Some gray_buf =>
                println "Converting to grayscale...";;
                for_loop 0 n (gray_body rgb888_buf gray_buf);;
                free rgb888_buf;;
                println "Resizing image...";;
                let x_ratio := F32.div (F32.of_Z src_width) (F32.of_Z target_size) in
                let y_ratio := F32.div (F32.of_Z src_height) (F32.of_Z target_size) in
                for_loop 0 target_size (fun y =>
                  for_loop 0 target_size
                    (resize_body gray_buf output_buffer src_width src_height target_size
                                 x_ratio y_ratio y));;
                free gray_buf;;
                println "Preprocessing complete!";;
                mret true
            end
      end
  | _, _ => mret false
  end.

End Pipeline.

Arguments buf {pixformat_t} _.
Arguments len {pixformat_t} _.
Arguments width {pixformat_t} _.
Arguments height {pixformat_t} _.
Arguments format {pixformat_t} _.
Arguments CameraFb {pixformat_t} _ _ _ _ _.

(** ** The same computations on plain arrays *)

(** [l[i]] for an [int] index *)
Definition cell (l : list byte) (i : Z) : option byte :=
  if 0 <=? i then l !! Z.to_nat i else None.

Definition int_ok (z : Z) : option Z := if in_int z then Some z else None.

(** The corner coordinates [x1, y1, x2, y2] that [bilinear_interpolate]
    computes from a sample position. *)
Definition corners (width height : Z) (x y : F32.float) : option (Z * Z * Z * Z) :=
  x1 ← F32.to_int x;
  y1 ← F32.to_int y;
  x2 ← int_ok (x1 + 1);
  y2 ← int_ok (y1 + 1);
  x2 ← (if x2 >=? width then int_ok (width - 1) else Some x2);
  y2 ← (if y2 >=? height then int_ok (height - 1) else Some y2);
  Some (x1, y1, x2, y2).

Definition offset (a w b : Z) : option Z :=
  t ← int_ok (a * w); int_ok (t + b).

(** The four array offsets read, in the order they are read. *)
Definition sample_offsets (width height : Z) (x y : F32.float) : option (list Z) :=
  '(x1, y1, x2, y2) ← corners width height x y;
  i1 ← offset y1 width x1;
  i2 ← offset y1 width x2;
  i3 ← offset y2 width x1;
  i4 ← offset y2 width x2;
  Some [i1; i2; i3; i4].

(** The value [bilinear_interpolate] returns on the array [img]. *)
Definition bilinear_value (img : list byte) (width height : Z) (x y : F32.float) : option byte :=
  '(x1, y1, x2, y2) ← corners width height x y;
  i1 ← offset y1 width x1; p1 ← cell img i1;
  i2 ← offset y1 width x2; p2 ← cell img i2;
  i3 ← offset y2 width x1; p3 ← cell img i3;
  i4 ← offset y2 width x2; p4 ← cell img i4;
  F32.to_u8 (blend p1 p2 p3 p4 (F32.sub x (F32.of_Z x1)) (F32.sub y (F32.of_Z y1))).

(** The clamped neighbour coordinate [x2] (or [y2]) of [a]. *)
Definition clamp (a limit : Z) : option Z :=
  if a + 1 >=? limit then int_ok (limit - 1) else Some (a + 1).

(** *** The interpolation as the specification words it

    [x1 = floor(src_x)], [x2 = x1 + 1] clamped to [width - 1], fractional
    offsets [dx], [dy], and the four neighbours weighted by
    [(1-dx)(1-dy)], [dx(1-dy)], [(1-dx)dy] and [dx*dy]; a sample times its
    weight is evaluated in binary32, one factor after the other. *)
Definition weighted (p : byte) (w1 w2 : F32.float) : F32.float :=
  F32.mul (F32.mul (F32.of_Z (u8_val p)) w1) w2.

Definition weighted_sum (p1 p2 p3 p4 : byte) (dx dy : F32.float) : F32.float :=
  let one_dx := F32.sub (F32.of_Z 1) dx in
  let one_dy := F32.sub (F32.of_Z 1) dy in
  F32.add (F32.add (F32.add (weighted p1 one_dx one_dy) (weighted p2 dx one_dy))
                   (weighted p3 one_dx dy))
          (weighted p4 dx dy).

Definition bilinear_spec (img : list byte) (width height : Z) (src_x src_y : F32.float)
    : option byte :=
  x1 ← F32.floor src_x;
  y1 ← F32.floor src_y;
  let x2 := Z.min (x1 + 1) (width - 1) in
  let y2 := Z.min (y1 + 1) (height - 1) in
  let dx := F32.sub src_x (F32.of_Z x1) in
  let dy := F32.sub src_y (F32.of_Z y1) in
  p1 ← cell img (y1 * width + x1);
  p2 ← cell img (y1 * width + x2);
  p3 ← cell img (y2 * width + x1);
  p4 ← cell img (y2 * width + x2);
  F32.to_u8 (weighted_sum p1 p2 p3 p4 dx dy).

(** *** Reading a trace *)

Definition writes (tr : list event) : list (loc * Z) :=
  omap (fun ev => match ev with EvWrite p i _ => Some (p, i) | _ => None end) tr.

Definition stores (tr : list event) : list (loc * Z) :=
  omap (fun ev => match ev with EvStore p i _ => Some (p, i) | _ => None end) tr.

Definition granted (tr : list event) : list loc :=
  omap (fun ev => match ev with EvMalloc _ (Some p) => Some p | _ => None end) tr.

Definition releases (tr : list event) : list loc :=
  omap (fun ev => match ev with EvFree p => Some p | _ => None end) tr.

Definition loads (tr : list event) : list (loc * Z) :=
  omap (fun ev => match ev with EvLoad p i => Some (p, i) | _ => None end) tr.

(** An event of the grayscale loop: a load from the RGB888 buffer or a
    store to the gray buffer. *)
Definition gray_event (rgb888_buf gray_buf : loc) (ev : event) : Prop :=
  (exists i, ev = EvLoad rgb888_buf i) \/ (exists i b, ev = EvStore gray_buf i b).

(** An event of the resize loops: a load from the gray buffer or a write
    to the output tensor. *)
Definition resize_event (gray_buf output_buffer : loc) (ev : event) : Prop :=
  (exists i, ev = EvLoad gray_buf i) \/ (exists i v, ev = EvWrite output_buffer i v).

(** Blocks live in [m'] that were not live in [m]. *)
Definition leaked (m m' : machine) : gset loc := dom (heap m') ∖ dom (heap m).

(** Element [k] of the [int8_t] array at [p]. *)
Definition tensor_at (m : machine) (p : loc) (k : Z) : option Z :=
  if 0 <=? k then tensors m !! p ≫= (fun t => t !! Z.to_nat k) else None.

Definition with_trace (m : machine) (evs : list event) : machine :=
  Machine (heap m) (tensors m) (oracle m) (evs ++ trace m).

#[global] Instance byte_inhabited : Inhabited byte := populate x00.

(** *** The grayscale stage *)

Definition byte_at (l : list byte) (i : Z) : byte := l !!! Z.to_nat i.

(** The luma of pixel [j] of an RGB888 array. *)
Definition luma_at (rgb : list byte) (j : Z) : byte :=
  luma (byte_at rgb (j * 3)) (byte_at rgb (j * 3 + 1)) (byte_at rgb (j * 3 + 2)).

(** The first [n] grayscale samples. *)
Definition gray_image (rgb : list byte) (n : Z) : list byte :=
  luma_at rgb <$> seqZ 0 n.

(** Iteration [j] of the grayscale loop is defined: the three offsets are
    [int]s and lie in the RGB array, and [j] lies in the gray array. *)
Definition gray_ok (rgb_len gray_len : nat) (j : Z) : bool :=
  in_int (j * 3) && in_int (j * 3 + 1) && in_int (j * 3 + 2)
  && (j * 3 + 2 <? Z.of_nat rgb_len) && (j <? Z.of_nat gray_len).

(** Events of iteration [j], newest first. *)
Definition gray_events (rgb888_buf gray_buf : loc) (rgb : list byte) (j : Z) : list event :=
  [EvStore gray_buf j (luma_at rgb j);
   EvLoad rgb888_buf (j * 3 + 2); EvLoad rgb888_buf (j * 3 + 1); EvLoad rgb888_buf (j * 3)].

Definition gray_trace (rgb888_buf gray_buf : loc) (rgb : list byte) (n : Z) : list event :=
  reverse (seqZ 0 n) ≫= gray_events rgb888_buf gray_buf rgb.

(** The machine after [j] iterations of the grayscale loop started in [m]
    with the gray array holding [g0]. *)
Definition gray_state (m : machine) (rgb888_buf gray_buf : loc) (rgb g0 : list byte)
    (j : Z) : machine :=
  Machine (<[gray_buf := gray_image rgb j ++ drop (Z.to_nat j) g0]> (heap m))
          (tensors m) (oracle m)
          (gray_trace rgb888_buf gray_buf rgb j ++ trace m).

(** *** The resize stage *)

Section ResizeStage.

Variables (gray_buf output_buffer : loc) (gray : list byte).
Variables (src_width src_height target_size : Z) (x_ratio y_ratio : F32.float).

(** The interpolated sample of output pixel (x, y), if defined. *)
Definition sample (y x : Z) : option byte :=
  bilinear_value gray src_width src_height
    (F32.mul (F32.of_Z x) x_ratio) (F32.mul (F32.of_Z y) y_ratio).

Definition sample_reads (y x : Z) : list Z :=
  default [] (sample_offsets src_width src_height
                (F32.mul (F32.of_Z x) x_ratio) (F32.mul (F32.of_Z y) y_ratio)).

(** Output pixel (x, y) is defined: its sample is, and its offset is an
    [int] inside a tensor of [tensor_len] elements. *)
Definition pixel_ok (tensor_len : nat) (y x : Z) : bool :=
  bool_decide (is_Some (sample y x))
  && in_int (y * target_size) && in_int (y * target_size + x)
  && (0 <=? y * target_size + x) && (y * target_size + x <? Z.of_nat tensor_len).

(** The quantized value of the [k]-th output element, row-major. *)
Definition tensor_value (k : Z) : Z :=
  quantize (default x00 (sample (k / target_size) (k mod target_size))).

Definition tensor_prefix (k : Z) : list Z := tensor_value <$> seqZ 0 k.

(** Events of the [k]-th output element, newest first. *)
Definition resize_events (k : Z) : list event :=
  EvWrite output_buffer k (tensor_value k)
  :: (EvLoad gray_buf <$> reverse (sample_reads (k / target_size) (k mod target_size))).

Definition resize_trace (k : Z) : list event :=
  reverse (seqZ 0 k) ≫= resize_events.

(** The machine after [k] output elements, the tensor having held [t0]. *)
Definition resize_state (m : machine) (t0 : list Z) (k : Z) : machine :=
  Machine (heap m)
          (<[output_buffer := tensor_prefix k ++ drop (Z.to_nat k) t0]> (tensors m))
          (oracle m)
          (resize_trace k ++ trace m).

End ResizeStage.

(** *** The whole run *)

Section PipelineRun.

Context {pixformat_t : Type}.
Variable fmt2rgb888 : list byte -> Z -> pixformat_t -> option (list byte).
Variables (fb : camera_fb_t pixformat_t) (output_buffer : loc) (target_size : Z).
Variable m : machine.

(** [src_width], [src_height], [rgb888_len] and the pixel count. *)
Definition frame_width : Z := wrap_int (width fb).
Definition frame_height : Z := wrap_int (height fb).
Definition rgb888_size : Z := wrap_size_t (width fb * height fb * 3).
Definition pixel_count : Z := frame_width * frame_height.

(** The frame's bytes, and what the converter makes of them. *)
Definition frame_bytes : option (list byte) := buf fb ≫= (fun p => heap m !! p).
Definition converted : option (list byte) :=
  frame_bytes ≫= (fun src => fmt2rgb888 src (len fb) (format fb)).

(** Where the two intermediate buffers are put. *)
Definition rgb_block : loc := fresh (dom (heap m)).
Definition gray_block : loc := fresh ({[rgb_block]} ∪ dom (heap m)).

(** The RGB buffer after conversion: the converter's output, then what
    the block held before. *)
Definition rgb_filled (garbage rgb : list byte) : list byte :=
  rgb ++ drop (length rgb) (resize (Z.to_nat rgb888_size) x00 garbage).

(** The gray buffer as allocated, and after the grayscale loop. *)
Definition gray_fresh (garbage : list byte) : list byte :=
  resize (Z.to_nat (wrap_size_t pixel_count)) x00 garbage.
Definition gray_filled (rgb_buf garbage : list byte) : list byte :=
  gray_image rgb_buf (Z.max 0 pixel_count)
  ++ drop (Z.to_nat (Z.max 0 pixel_count)) (gray_fresh garbage).

(** The RGB buffer the stages work on, and its grayscale image. *)
Definition decoded_rgb : list byte :=
  match oracle m, converted with
  | Some garbage :: _, Some rgb => rgb_filled garbage rgb
  | _, _ => []
  end.
Definition grayscale : list byte := gray_image decoded_rgb pixel_count.

Definition x_scale : F32.float := F32.div (F32.of_Z frame_width) (F32.of_Z target_size).
Definition y_scale : F32.float := F32.div (F32.of_Z frame_height) (F32.of_Z target_size).

(** Number of tensor elements the resize loops write. *)
Definition written : Z := Z.max 0 target_size * target_size.

(** Every iteration of both stages is defined. *)
Definition stages_ok (rgb_buf gray_buf0 gray_buf1 : list byte) (t0 : list Z) : bool :=
  forallb (gray_ok (length rgb_buf) (length gray_buf0)) (seqZ 0 pixel_count)
  && forallb (fun y =>
       forallb (pixel_ok gray_buf1 frame_width frame_height target_size x_scale y_scale
                         (length t0) y)
               (seqZ 0 target_size))
     (seqZ 0 target_size).

(** The trace of a run that returns [true], newest event first. *)
Definition success_trace (rgb_buf gray_buf1 : list byte) : list event :=
  [EvPrint "Preprocessing complete!" []; EvFree gray_block]
  ++ resize_trace gray_block output_buffer gray_buf1 frame_width frame_height target_size
       x_scale y_scale written
  ++ [EvPrint "Resizing image..." []; EvFree rgb_block]
  ++ gray_trace rgb_block gray_block rgb_buf (Z.max 0 pixel_count)
  ++ [EvPrint "Converting to grayscale..." [];
      EvMalloc (wrap_size_t pixel_count) (Some gray_block);
      EvPrint "Target size: %dx%d\n" [target_size; target_size];
      EvPrint "Original size: %dx%d\n" [frame_width; frame_height];
      EvDecode rgb_block true;
      EvMalloc rgb888_size (Some rgb_block);
      EvPrint "Converting JPEG to RGB..." []].

(** The tensor after a run that returns [true]. *)
Definition tensor_filled (gray_buf1 : list byte) (t0 : list Z) : list Z :=
  tensor_prefix gray_buf1 frame_width frame_height target_size x_scale y_scale written
  ++ drop (Z.to_nat written) t0.

(** The machine after a run that returns [true]. *)
Definition success_state (rgb_buf gray_buf1 : list byte) (t0 : list Z)
    (rest : list (option (list byte))) : machine :=
  Machine (heap m)
          (<[output_buffer := tensor_filled gray_buf1 t0]> (tensors m))
          rest
          (success_trace rgb_buf gray_buf1 ++ trace m).

(** The machine after each of the three runs that return [false]. *)
Definition rgb_refused_state : machine :=
  Machine (heap m) (tensors m) (tail (oracle m))
          ([EvPrint "Failed to allocate RGB888 buffer" [];
            EvMalloc rgb888_size None;
            EvPrint "Converting JPEG to RGB..." []] ++ trace m).

Definition decode_failed_state (garbage : list byte)
    (rest : list (option (list byte))) : machine :=
  Machine (<[rgb_block := resize (Z.to_nat rgb888_size) x00 garbage]> (heap m))
          (tensors m) rest
          ([EvPrint "JPEG conversion failed" [];
            EvDecode rgb_block false;
            EvMalloc rgb888_size (Some rgb_block);
            EvPrint "Converting JPEG to RGB..." []] ++ trace m).

Definition gray_refused_state (rest : list (option (list byte))) : machine :=
  Machine (heap m) (tensors m) (tail rest)
          ([EvPrint "Failed to allocate grayscale buffer" [];
            EvFree rgb_block;
            EvMalloc (wrap_size_t pixel_count) None;
            EvPrint "Target size: %dx%d\n" [target_size; target_size];
            EvPrint "Original size: %dx%d\n" [frame_width; frame_height];
            EvDecode rgb_block true;
            EvMalloc rgb888_size (Some rgb_block);
            EvPrint "Converting JPEG to RGB..." []] ++ trace m).

(** The events a run from [m] to [m'] has added, newest first. *)
Definition new_events (m' : machine) : list event :=
  take (length (trace m') - length (trace m)) (trace m').

End PipelineRun.

(** ** Statements about whole calls *)

Section Calls.

Context {pixformat_t : Type}.
Variable fmt2rgb888 : list byte -> Z -> pixformat_t -> option (list byte).

(** The call returns [false], is granted no buffer and writes no
    element of any tensor. *)
Definition rejects_untouched (fb : option (camera_fb_t pixformat_t))
    (output_buffer : option loc) (target_size : Z) (m : machine) : Prop :=
  exists m',
    preprocessImageForML pixformat_t fmt2rgb888 fb output_buffer target_size m
      = Done false m' /\
    granted (new_events m m') = [] /\
    writes (new_events m m') = [].

End Calls.

(** ** A concrete converter and concrete runs *)

Inductive sample_format : Type := FMT_JPEG | FMT_RGB888.

(** RGB888 frames are copied through; anything else is refused. *)
Definition rgb888_only (src : list byte) (n : Z) (fmt : sample_format) : option (list byte) :=
  match fmt with
  | FMT_RGB888 => Some (take (Z.to_nat n) src)
  | FMT_JPEG => None
  end.

Definition outcome_state {A} (o : outcome A) (otherwise : machine) : machine :=
  match o with
  | Done _ m => m
  | Undefined => otherwise
  end.

(** A 2x2 frame of four gray pixels 10, 20, 30, 40; the caller's tensor has
    five elements. *)
Definition demo_pixels : list byte :=
  [x0a; x0a; x0a;  x14; x14; x14;  x1e; x1e; x1e;  x28; x28; x28].

Definition demo_frame : camera_fb_t sample_format :=
  CameraFb (Some 1%positive) 12 2 2 FMT_RGB888.

Definition demo_machine : machine :=
  Machine {[ 1%positive := demo_pixels ]} {[ 1%positive := [0; 0; 0; 0; 7] ]}
          [Some []; Some []] [].

Definition demo_result : machine :=
  Eval vm_compute in
    outcome_state
      (preprocessImageForML sample_format rgb888_only (Some demo_frame) (Some 1%positive) 2
         demo_machine)
      demo_machine.

(** The same frame at another address, with other blocks live, a tensor
    with other contents and an allocator handing out dirty memory. *)
Definition demo_frame' : camera_fb_t sample_format :=
  CameraFb (Some 5%positive) 12 2 2 FMT_RGB888.

Definition demo_machine' : machine :=
  Machine {[ 2%positive := [xff]; 5%positive := demo_pixels ]}
          {[ 3%positive := [1; 2; 3; 4] ]}
          [Some [xaa; xbb]; Some [xcc; xdd; xee; xff; x01]; None]
          [EvPrint "boot" []].

Definition demo_result' : machine :=
  Eval vm_compute in
    outcome_state
      (preprocessImageForML sample_format rgb888_only (Some demo_frame') (Some 3%positive) 2
         demo_machine')
      demo_machine'.

(** A 2x2 RGB888 frame that carries only six of its twelve bytes, and a
    machine that differs from [demo_machine] only in what the first block
    the allocator hands out holds. *)
Definition short_frame : camera_fb_t sample_format :=
  CameraFb (Some 1%positive) 6 2 2 FMT_RGB888.

Definition dirty_machine : machine :=
  Machine {[ 1%positive := demo_pixels ]} {[ 1%positive := [0; 0; 0; 0; 7] ]}
          [Some [x00; x00; x00;  x00; x00; x00;  x69; x69; x69;  x7f; x7f; x7f]; Some []] [].

Definition short_result : machine :=
  Eval vm_compute in
    outcome_state
      (preprocessImageForML sample_format rgb888_only (Some short_frame) (Some 1%positive) 2
         demo_machine)
      demo_machine.

Definition short_result' : machine :=
  Eval vm_compute in
    outcome_state
      (preprocessImageForML sample_format rgb888_only (Some short_frame) (Some 1%positive) 2
         dirty_machine)
      dirty_machine.

(** A frame in a format the converter refuses. *)
Definition jpeg_frame : camera_fb_t sample_format :=
  CameraFb (Some 1%positive) 12 2 2 FMT_JPEG.

(** A frame that declares a width of zero. *)
Definition empty_frame : camera_fb_t sample_format :=
  CameraFb (Some 1%positive) 12 0 5 FMT_JPEG.

(** [demo_machine] with an allocator that refuses the first request. *)
Definition refusing_machine : machine :=
  Machine {[ 1%positive := demo_pixels ]} {[ 1%positive := [0; 0; 0; 0; 7] ]}
          [None] [].

(** [demo_machine] with an allocator that grants one block only. *)
Definition one_block_machine : machine :=
  Machine {[ 1%positive := demo_pixels ]} {[ 1%positive := [0; 0; 0; 0; 7] ]}
          [Some [xaa]; None] [].

(** The machine [demo_machine] is left in by the call on [jpeg_frame]. *)
Definition jpeg_result : machine :=
  Eval vm_compute in
    outcome_state
      (preprocessImageForML sample_format rgb888_only (Some jpeg_frame) (Some 1%positive) 2
         demo_machine)
      demo_machine.

(** A 4x2 frame of eight gray pixels 1 .. 8. *)
Definition wide_pixels : list byte :=
  [x01; x01; x01;  x02; x02; x02;  x03; x03; x03;  x04; x04; x04;
   x05; x05; x05;  x06; x06; x06;  x07; x07; x07;  x08; x08; x08].

Definition wide_frame : camera_fb_t sample_format :=
  CameraFb (Some 1%positive) 24 4 2 FMT_RGB888.

Definition wide_machine : machine :=
  Machine {[ 1%positive := wide_pixels ]} {[ 1%positive := [0; 0; 0; 0] ]}
          [Some []; Some []] [].

(** A 160x120 RGB888 frame whose top-left 2x2 pixels are gray 10, 20 / 30,
    40 and whose other pixels are black. *)
Definition scenario_pixel (i : nat) : byte :=
  if (i =? 0)%nat then x0a
  else if (i =? 1)%nat then x14
  else if (i =? 160)%nat then x1e
  else if (i =? 161)%nat then x28
  else x00.

Definition scenario_rgb : list byte :=
  flat_map (fun i => let v := scenario_pixel i in [v; v; v]) (seq 0 (160 * 120)).

Definition scenario_frame : camera_fb_t sample_format :=
  CameraFb (Some 1%positive) 57600 160 120 FMT_RGB888.

Definition scenario_machine : machine :=
  Machine {[ 1%positive := scenario_rgb ]} {[ 1%positive := [0; 0; 0; 0] ]}
          [Some []; Some []] [].

(** The machine [scenario_machine] is left in by the run on
    [scenario_frame] with a 2x2 target. *)
Definition scenario_result : machine :=
  success_state scenario_frame 1%positive 2 scenario_machine scenario_rgb
    (gray_image scenario_rgb 19200) [0; 0; 0; 0] [].

(** A 3x2 gray image, for [bilinear_interpolate] alone. *)
Definition corner_machine : machine :=
  Machine {[ 7%positive := [x01; x02; x03; x04; x05; x06] ]} ∅ [] [].

(** * Proofs *)

(** ** binary32 facts *)

Example c0_299_bits : F32.c0_299 = S754_finite false 10032775 (-25).
Proof. reflexivity. Qed.

Example c0_587_bits : F32.c0_587 = S754_finite false 9848226 (-24).
Proof. reflexivity. Qed.

Example c0_114_bits : F32.c0_114 = S754_finite false 15300821 (-27).
Proof. reflexivity. Qed.

(** Rounding to the nearest integer would give 150 here. *)
Example luma_truncates : luma_sum x00 xff x00 = S754_finite false 9809756 (-16)
                         /\ u8_val (luma x00 xff x00) = 149.
Proof. split; reflexivity. Qed.

Lemma digits2_pos_iter_xO (p : positive) (k : positive) :
  digits2_pos (Pos.iter xO p k) = (digits2_pos p + k)%positive.
Proof.
  induction k as [|k IH] using Pos.peano_ind.
  - simpl. lia.
  - rewrite Pos.iter_succ. simpl. rewrite IH. lia.
Qed.

Lemma Zpos_iter_xO (p k : positive) :
  Zpos (Pos.iter xO p k) = Zpos p * 2 ^ Zpos k.
Proof.
  induction k as [|k IH] using Pos.peano_ind.
  - simpl. lia.
  - rewrite Pos.iter_succ. change (Zpos (Pos.iter xO p k)~0) with (2 * Zpos (Pos.iter xO p k)).
    rewrite IH, Pos2Z.inj_succ, Z.pow_succ_r by lia. lia.
Qed.

Lemma binary_round_aux_normal (m : positive) (e : Z) :
  digits2_pos m = 24%positive -> -149 <= e <= 104 ->
  binary_round_aux F32.prec F32.emax false (Zpos m) e loc_Exact = S754_finite false m e.
Proof.
  intros Hd He. unfold binary_round_aux, shr_fexp. cbn [Zdigits2 shr_record_of_loc].
  rewrite Hd.
  assert (Hf : fexp F32.prec F32.emax (24 + e) - e = 0).
  { unfold fexp, emin, F32.prec, F32.emax. lia. }
  rewrite Hf. cbn [shr shr_m loc_of_shr_record round_nearest_even Zdigits2 shr_record_of_loc].
  rewrite Hd, Hf. cbn [shr shr_m].
  unfold F32.emax, F32.prec.
  destruct (Z.leb_spec e (128 - 24)); [reflexivity | lia].
Qed.

Lemma digits2_pos_bounds (p : positive) :
  2 ^ (Zpos (digits2_pos p) - 1) <= Zpos p < 2 ^ Zpos (digits2_pos p).
Proof.
  induction p as [p IH | p IH |]; cbn [digits2_pos].
  - rewrite Pos2Z.inj_succ. change (Zpos p~1) with (2 * Zpos p + 1).
    replace (Z.succ (Zpos (digits2_pos p)) - 1) with (Z.succ (Zpos (digits2_pos p) - 1)) by lia.
    rewrite !Z.pow_succ_r by lia. lia.
  - rewrite Pos2Z.inj_succ. change (Zpos p~0) with (2 * Zpos p).
    replace (Z.succ (Zpos (digits2_pos p)) - 1) with (Z.succ (Zpos (digits2_pos p) - 1)) by lia.
    rewrite !Z.pow_succ_r by lia. lia.
  - simpl. lia.
Qed.

Lemma digits2_pos_small (p : positive) :
  Zpos p < 2 ^ 24 -> Zpos (digits2_pos p) <= 24.
Proof.
  intros H. destruct (digits2_pos_bounds p) as [Hlo _].
  destruct (Z_le_gt_dec (Zpos (digits2_pos p)) 24) as [|Hgt]; [assumption|].
  assert (2 ^ 24 <= 2 ^ (Zpos (digits2_pos p) - 1)) by (apply Z.pow_le_mono_r; lia).
  lia.
Qed.

Lemma of_Z_pos_small (p : positive) :
  Zpos p < 2 ^ 24 ->
  exists m e, F32.of_Z (Zpos p) = S754_finite false m e /\
    digits2_pos m = 24%positive /\ -23 <= e <= 0 /\ Zpos m = Zpos p * 2 ^ (- e).
Proof.
  intros Hp. pose proof (digits2_pos_small p Hp) as Hd.
  unfold F32.of_Z, binary_normalize, binary_round, shl_align.
  assert (Hf : fexp F32.prec F32.emax (Zpos (digits2_pos p) + 0) = Zpos (digits2_pos p) - 24).
  { unfold fexp, emin, F32.prec, F32.emax. lia. }
  rewrite Hf.
  destruct (Zpos (digits2_pos p) - 24 - 0) as [|k|k] eqn:Hk; try lia.
  - exists p, 0. rewrite binary_round_aux_normal by (try lia; apply Pos2Z.inj; lia).
    repeat split; lia.
  - exists (Pos.iter xO p k), (Zpos (digits2_pos p) - 24).
    assert (Hdk : digits2_pos (Pos.iter xO p k) = 24%positive).
    { rewrite digits2_pos_iter_xO. lia. }
    rewrite binary_round_aux_normal by (try assumption; lia).
    repeat split; try assumption; try lia.
    rewrite Zpos_iter_xO. f_equal. f_equal. lia.
Qed.

Lemma sub_diag (f : F32.float) : finite_or_zero f -> F32.sub f f = F32.zero.
Proof.
  destruct f as [s|s| |s m e]; cbn; try tauto; intros _.
  - destruct s; reflexivity.
  - unfold F32.sub, SFsub. rewrite Z.min_id. unfold shl_align. rewrite Z.sub_diag.
    reflexivity.
Qed.

Lemma trunc_of_Z_small (z : Z) : 0 <= z < 2 ^ 24 -> F32.trunc (F32.of_Z z) = Some z.
Proof.
  intros Hz. destruct z as [|p|p]; [reflexivity | | lia].
  destruct (of_Z_pos_small p) as (m & e & -> & Hd & He & Hm); [lia|].
  cbn [F32.trunc cond_Zopp]. f_equal. unfold F32.trunc_mag.
  destruct e as [|k|k]; [lia | lia |].
  rewrite Z.shiftr_div_pow2 by lia. rewrite Hm.
  replace (- Z.neg k) with (Z.pos k) by lia.
  apply Z.div_mul. lia.
Qed.

Lemma of_Z_nonneg_finite (z : Z) : 0 <= z < 2 ^ 24 ->
  finite_or_zero (F32.of_Z z) /\ F32.nonneg (F32.of_Z z) = true.
Proof.
  intros Hz. destruct z as [|p|p]; [split; [exact I | reflexivity] | | lia].
  destruct (of_Z_pos_small p) as (m & e & -> & _); [lia|]. split; [exact I | reflexivity].
Qed.

Lemma of_Z_normal24 (z : Z) : 0 < z < 2 ^ 24 -> normal24 (F32.of_Z z).
Proof.
  intros Hz. destruct z as [|p|p]; try lia.
  destruct (of_Z_pos_small p) as (m & e & -> & Hd & He & _); [lia|].
  exists m, e. repeat split; try assumption; lia.
Qed.

Lemma mul_one_normal (f : F32.float) : normal24 f -> F32.mul f F32.one = f.
Proof.
  intros (m & e & -> & Hd & He).
  unfold F32.mul, F32.one, SFmul. cbn [xorb].
  rewrite Pos.mul_comm. change (8388608 * m)%positive with (Pos.iter xO m 23).
  unfold binary_round_aux, shr_fexp. cbn [Zdigits2].
  rewrite digits2_pos_iter_xO, Hd.
  assert (Hf : fexp F32.prec F32.emax (Zpos (24 + 23) + (e + -23)) - (e + -23) = 23).
  { unfold fexp, emin, F32.prec, F32.emax. lia. }
  rewrite Hf. cbn [shr shr_record_of_loc SpecFloat.iter_pos Pos.iter shr_1 orb].
  cbn [shr_m loc_of_shr_record round_nearest_even shr_record_of_loc Zdigits2].
  rewrite Hd.
  assert (Hf' : fexp F32.prec F32.emax (24 + (e + -23 + 23)) - (e + -23 + 23) = 0).
  { unfold fexp, emin, F32.prec, F32.emax. lia. }
  rewrite Hf'. cbn [shr shr_m].
  replace (e + -23 + 23) with e by lia.
  unfold F32.emax, F32.prec.
  destruct (Z.leb_spec e (128 - 24)); [reflexivity | lia].
Qed.

Lemma div_eucl_shiftl (m : positive) (k : Z) : 0 <= k ->
  Z.div_eucl (Z.shiftl (Zpos m) k) (Zpos m) = (2 ^ k, 0).
Proof.
  intros Hk. rewrite Z.shiftl_mul_pow2 by lia.
  pose proof (Z.div_mul (2 ^ k) (Zpos m) ltac:(lia)) as Hq.
  pose proof (Z.mod_mul (2 ^ k) (Zpos m) ltac:(lia)) as Hr.
  rewrite (Z.mul_comm (Zpos m)).
  unfold Z.div, Z.modulo in Hq, Hr.
  destruct (Z.div_eucl (2 ^ k * Zpos m) (Zpos m)) as [q r]. cbn in Hq, Hr. congruence.
Qed.

Lemma div_diag_normal (f : F32.float) : normal24 f -> F32.div f f = F32.one.
Proof.
  intros (m & e & -> & Hd & He).
  unfold F32.div, SFdiv, SFdiv_core_binary. cbn [Zdigits2 xorb]. rewrite Hd.
  replace (24 + e - (24 + e)) with 0 by lia. rewrite Z.sub_diag.
  change (Z.min (fexp F32.prec F32.emax 0) 0) with (-24).
  change (0 - -24) with 24.
  cbv iota.
  change (IntDef.Z.div_eucl (Z.shiftl (Zpos m) 24) (Zpos m))
    with (Z.div_eucl (Z.shiftl (Zpos m) 24) (Zpos m)).
  rewrite div_eucl_shiftl by lia.
  assert (Hl : new_location (Zpos m) 0 = loc_Exact).
  { unfold new_location. destruct (Z.even (Zpos m)); reflexivity. }
  rewrite Hl. reflexivity.
Qed.

(** ** The luma sum stays within [uint8_t] *)

Lemma shr_1_m (r : shr_record) : 0 <= shr_m r -> shr_m (shr_1 r) = shr_m r / 2.
Proof.
  destruct r as [m r s]. cbn [shr_m]. intros Hm. unfold shr_1.
  destruct m as [|[p|p|]|p]; cbn [shr_m]; try reflexivity; try lia.
  - change (Zpos p~1) with (2 * Zpos p + 1). apply Z.div_unique with 1; lia.
  - change (Zpos p~0) with (2 * Zpos p). apply Z.div_unique with 0; lia.
Qed.

Lemma iter_shr_1_m (k : positive) : forall r,
  0 <= shr_m r ->
  shr_m (SpecFloat.iter_pos shr_1 k r) = shr_m r / 2 ^ Zpos k.
Proof.
  assert (Hnn : forall r, 0 <= shr_m r -> 0 <= shr_m (shr_1 r)).
  { intros r Hr. rewrite shr_1_m by exact Hr. apply Z.div_pos; lia. }
  induction k as [k IH | k IH |]; intros r Hr; cbn [SpecFloat.iter_pos].
  - assert (H1 : 0 <= shr_m (shr_1 r)) by auto.
    assert (H2 : 0 <= shr_m (SpecFloat.iter_pos shr_1 k (shr_1 r))).
    { rewrite IH by exact H1. apply Z.div_pos; [exact H1 | apply Z.pow_pos_nonneg; lia]. }
    rewrite IH by exact H2. rewrite IH by exact H1. rewrite shr_1_m by exact Hr.
    rewrite !Z.div_div by (try apply Z.pow_pos_nonneg; lia).
    f_equal. rewrite Pos2Z.inj_xI, <- !Z.pow_add_r, <- Z.pow_succ_r by lia.
    f_equal. lia.
  - assert (H2 : 0 <= shr_m (SpecFloat.iter_pos shr_1 k r)).
    { rewrite IH by exact Hr. apply Z.div_pos; [exact Hr | apply Z.pow_pos_nonneg; lia]. }
    rewrite IH by exact H2. rewrite IH by exact Hr.
    rewrite !Z.div_div by (try apply Z.pow_pos_nonneg; lia).
    f_equal. rewrite Pos2Z.inj_xO, <- !Z.pow_add_r by lia. f_equal. lia.
  - rewrite shr_1_m by exact Hr. reflexivity.
Qed.

Lemma round_nearest_even_bounds m l :
  m <= round_nearest_even m l <= m + 1.
Proof.
  unfold round_nearest_even. destruct l as [|[]]; try lia. destruct (Z.even m); lia.
Qed.

Lemma Zdigits2_unique (p : positive) (d : Z) :
  2 ^ (d - 1) <= Zpos p < 2 ^ d -> 0 < d -> Zpos (digits2_pos p) = d.
Proof.
  intros [Hlo Hhi] Hd. pose proof (digits2_pos_bounds p) as [Hlo' Hhi'].
  destruct (Z.lt_trichotomy (Zpos (digits2_pos p)) d) as [Hlt | [Heq | Hgt]]; [|exact Heq|].
  - assert (2 ^ Zpos (digits2_pos p) <= 2 ^ (d - 1)) by (apply Z.pow_le_mono_r; lia). lia.
  - assert (2 ^ d <= 2 ^ (Zpos (digits2_pos p) - 1)) by (apply Z.pow_le_mono_r; lia). lia.
Qed.

Lemma normalize_bounded (M : positive) (ez lo c q : Z) :
  -100 <= lo -> lo <= ez -> 0 < c <= 2 ^ 23 -> -100 <= q <= 60 ->
  Zpos M * 2 ^ (ez + 128) < c * 2 ^ (q + 128) ->
  bounded_by (lo - 23) (c * 2 ^ (q + 128))
             (binary_normalize F32.prec F32.emax (Zpos M) ez false).
Proof.
  intros Hlo Hez Hc Hq HM.
  pose proof (digits2_pos_bounds M) as [Hdlo Hdhi].
  unfold binary_normalize, binary_round, shl_align.
  set (d := Zpos (digits2_pos M)) in *.
  assert (Hd0 : 0 < d) by (unfold d; lia).
  assert (Hdq : d + ez <= q + 23).
  { destruct (Z_le_gt_dec (d + ez) (q + 23)) as [|Hgt]; [assumption | exfalso].
    assert (H1 : 2 ^ (q + 151) <= 2 ^ (d - 1 + (ez + 128))) by (apply Z.pow_le_mono_r; lia).
    rewrite (Z.pow_add_r 2 (d - 1) (ez + 128)) in H1 by lia.
    assert (H2 : c * 2 ^ (q + 128) <= 2 ^ 23 * 2 ^ (q + 128)).
    { apply Z.mul_le_mono_nonneg_r; [apply Z.pow_nonneg; lia | lia]. }
    rewrite <- Z.pow_add_r in H2 by lia.
    replace (23 + (q + 128)) with (q + 151) in H2 by lia.
    assert (H3 : 2 ^ (d - 1) * 2 ^ (ez + 128) <= Zpos M * 2 ^ (ez + 128)).
    { apply Z.mul_le_mono_nonneg_r; [apply Z.pow_nonneg; lia | lia]. }
    lia. }
  assert (Hf : fexp F32.prec F32.emax (d + ez) = d + ez - 24).
  { unfold fexp, emin, F32.prec, F32.emax. lia. }
  rewrite Hf.
  destruct (d + ez - 24 - ez) as [|k|k] eqn:Hk.
  - rewrite binary_round_aux_normal by (try lia; apply Pos2Z.inj; fold d; lia).
    cbn [bounded_by]. split; lia.
  - unfold binary_round_aux, shr_fexp. cbn [Zdigits2 shr_record_of_loc]. fold d.
    rewrite Hf, Hk. cbn [shr].
    set (r1 := SpecFloat.iter_pos shr_1 k _).
    assert (Hm1 : shr_m r1 = Zpos M / 2 ^ Zpos k) by (apply iter_shr_1_m; cbn; lia).
    pose proof (round_nearest_even_bounds (shr_m r1) (loc_of_shr_record r1)) as Hm2.
    set (m2 := round_nearest_even _ _) in *. clearbody m2 r1.
    set (e1 := ez + Zpos k) in *.
    assert (Hpk : 0 < 2 ^ Zpos k) by (apply Z.pow_pos_nonneg; lia).
    assert (Hlo1 : 2 ^ 23 <= shr_m r1).
    { rewrite Hm1. apply Z.div_le_lower_bound; [exact Hpk|].
      rewrite <- Z.pow_add_r by lia. replace (Zpos k + 23) with (d - 1) by lia. lia. }
    assert (Hhi1 : shr_m r1 < 2 ^ 24).
    { rewrite Hm1. apply Z.div_lt_upper_bound; [exact Hpk|].
      rewrite <- Z.pow_add_r by lia. replace (Zpos k + 24) with d by lia. lia. }
    assert (HB : c * 2 ^ (q + 128) = c * 2 ^ (q - e1) * 2 ^ (e1 + 128)).
    { rewrite <- Z.mul_assoc, <- Z.pow_add_r by lia. do 2 f_equal. lia. }
    assert (HG : shr_m r1 < c * 2 ^ (q - e1)).
    { rewrite Hm1. apply Z.div_lt_upper_bound; [exact Hpk|].
      assert (HB' : c * 2 ^ (q + 128) = 2 ^ Zpos k * (c * 2 ^ (q - e1)) * 2 ^ (ez + 128)).
      { rewrite HB. unfold e1.
        replace (ez + Zpos k + 128) with (Zpos k + (ez + 128)) by lia.
        rewrite Z.pow_add_r by lia. ring. }
      rewrite HB' in HM.
      apply Z.mul_lt_mono_pos_r in HM; [exact HM | apply Z.pow_pos_nonneg; lia]. }
    assert (Hval : m2 * 2 ^ (e1 + 128) <= c * 2 ^ (q + 128)).
    { rewrite HB. apply Z.mul_le_mono_nonneg_r; [apply Z.pow_nonneg; lia | lia]. }
    destruct m2 as [|p2|p2]; [lia | | lia].
    cbn [Zdigits2 shr_record_of_loc].
    destruct (Z_lt_le_dec (Zpos p2) (2 ^ 24)) as [Hlt | Hge].
    + rewrite (Zdigits2_unique p2 24) by lia.
      assert (Hf2 : fexp F32.prec F32.emax (24 + e1) - e1 = 0).
      { unfold fexp, emin, F32.prec, F32.emax. lia. }
      rewrite Hf2. cbn [shr shr_m]. unfold F32.emax, F32.prec.
      destruct (Z.leb_spec e1 (128 - 24)); [|lia].
      cbn [bounded_by]. split; [lia | exact Hval].
    + assert (Hp2 : p2 = 16777216%positive) by lia. subst p2.
      assert (Hf2 : fexp F32.prec F32.emax (Zpos (digits2_pos 16777216) + e1) - e1 = 1).
      { change (Zpos (digits2_pos 16777216)) with 25.
        unfold fexp, emin, F32.prec, F32.emax. lia. }
      rewrite Hf2. cbn [shr shr_m SpecFloat.iter_pos shr_1]. unfold F32.emax, F32.prec.
      destruct (Z.leb_spec (e1 + 1) (128 - 24)); [|lia].
      cbn [bounded_by]. split; [lia|].
      replace (e1 + 1 + 128) with (1 + (e1 + 128)) by lia.
      rewrite Z.pow_add_r by lia. lia.
  - assert (Hdk : digits2_pos (Pos.iter xO M k) = 24%positive).
    { rewrite digits2_pos_iter_xO. apply Pos2Z.inj. rewrite Pos2Z.inj_add. fold d. lia. }
    rewrite binary_round_aux_normal by (try assumption; lia).
    cbn [bounded_by]. split; [lia|]. rewrite Zpos_iter_xO.
    rewrite <- Z.mul_assoc, <- Z.pow_add_r by lia.
    replace (Zpos k + (d + ez - 24 + 128)) with (ez + 128) by lia. lia.
Qed.

Lemma bounded_by_weaken (lo lo' B B' : Z) (f : F32.float) :
  lo' <= lo -> B <= B' -> bounded_by lo B f -> bounded_by lo' B' f.
Proof. destruct f as [[]|[]| |[] m e]; cbn; try tauto. lia. Qed.

Lemma shl_align_value (m : positive) (e ez : Z) :
  -128 <= ez <= e ->
  Zpos (fst (shl_align m e ez)) * 2 ^ (ez + 128) = Zpos m * 2 ^ (e + 128).
Proof.
  intros He. unfold shl_align. destruct (ez - e) as [|k|k] eqn:Hk; cbn [fst].
  - do 2 f_equal. lia.
  - lia.
  - rewrite Zpos_iter_xO, <- Z.mul_assoc, <- Z.pow_add_r by lia. do 2 f_equal. lia.
Qed.

Lemma add_bounded (lo Bx By c q : Z) (x y : F32.float) :
  -100 <= lo -> 0 < c <= 2 ^ 23 -> -100 <= q <= 60 ->
  0 <= Bx -> 0 <= By -> Bx + By < c * 2 ^ (q + 128) ->
  bounded_by lo Bx x -> bounded_by lo By y ->
  bounded_by (lo - 23) (c * 2 ^ (q + 128)) (F32.add x y).
Proof.
  intros Hlo Hc Hq HBx HBy HB Hx Hy.
  destruct x as [[]|[]| |[] mx ex]; cbn in Hx; try tauto;
    destruct y as [[]|[]| |[] my ey]; cbn in Hy; try tauto.
  - cbn. lia.
  - cbn. lia.
  - destruct Hx as [Hex Hvx], Hy as [Hey Hvy].
    unfold F32.add, SFadd. cbn [cond_Zopp].
    pose proof (shl_align_value mx ex (Z.min ex ey)) as Hsx.
    pose proof (shl_align_value my ey (Z.min ex ey)) as Hsy.
    set (ax := fst (shl_align mx ex (Z.min ex ey))) in *.
    set (ay := fst (shl_align my ey (Z.min ex ey))) in *.
    change (Zpos ax + Zpos ay) with (Zpos (ax + ay)).
    apply normalize_bounded; try lia.
Qed.

Lemma trunc_bounded (lo B : Z) (f : F32.float) :
  -128 <= lo -> B < 256 * 2 ^ 128 -> bounded_by lo B f ->
  exists z, F32.trunc f = Some z /\ 0 <= z <= 255.
Proof.
  intros Hlo HB Hf. destruct f as [[]|[]| |[] m e]; cbn in Hf; try tauto.
  - exists 0. split; [reflexivity | lia].
  - destruct Hf as [He Hv]. exists (F32.trunc_mag m e). split; [reflexivity|].
    assert (Hp : 0 < 2 ^ 128) by (apply Z.pow_pos_nonneg; lia).
    unfold F32.trunc_mag. destruct e as [|k|k].
    + change (2 ^ (0 + 128)) with (2 ^ 128) in Hv. nia.
    + rewrite Z.shiftl_mul_pow2 by lia. rewrite Z.pow_add_r in Hv by lia.
      assert (0 < 2 ^ Zpos k) by (apply Z.pow_pos_nonneg; lia). nia.
    + rewrite Z.shiftr_div_pow2 by lia.
      assert (Hk : 0 < 2 ^ Zpos k) by (apply Z.pow_pos_nonneg; lia).
      split; [apply Z.div_pos; lia|].
      apply Z.lt_succ_r. apply Z.div_lt_upper_bound; [exact Hk|].
      assert (H2 : 2 ^ 128 = 2 ^ Zpos k * 2 ^ (Zneg k + 128)).
      { rewrite <- Z.pow_add_r by lia. f_equal. lia. }
      assert (Hq : 0 < 2 ^ (Zneg k + 128)) by (apply Z.pow_pos_nonneg; lia).
      rewrite H2 in HB. nia.
Qed.

Lemma mul_c0_299_bounded (v : byte) :
  bounded_by (-30) (305 * 2 ^ 126) (F32.mul F32.c0_299 (F32.of_Z (u8_val v))).
Proof. destruct v; vm_compute; try exact I; split; discriminate. Qed.

Lemma mul_c0_587_bounded (v : byte) :
  bounded_by (-30) (599 * 2 ^ 126) (F32.mul F32.c0_587 (F32.of_Z (u8_val v))).
Proof. destruct v; vm_compute; try exact I; split; discriminate. Qed.

Lemma mul_c0_114_bounded (v : byte) :
  bounded_by (-30) (233 * 2 ^ 125) (F32.mul F32.c0_114 (F32.of_Z (u8_val v))).
Proof. destruct v; vm_compute; try exact I; split; discriminate. Qed.

(** The weighted sum of any three bytes is a float in [0, 255.5]: its
    integer part is a [uint8_t], and the conversion cannot wrap. *)
Lemma luma_sum_in_range (r g b : byte) :
  exists z, F32.trunc (luma_sum r g b) = Some z /\ 0 <= z <= 255.
Proof.
  apply (trunc_bounded (-76) (511 * 2 ^ (-1 + 128))); [lia | lia |].
  unfold luma_sum.
  apply (add_bounded (-53) (905 * 2 ^ (-2 + 128)) (233 * 2 ^ 125) 511 (-1)); try lia.
  - apply (add_bounded (-30) (305 * 2 ^ 126) (599 * 2 ^ 126) 905 (-2)); try lia.
    + apply mul_c0_299_bounded.
    + apply mul_c0_587_bounded.
  - apply (bounded_by_weaken (-30) _ (233 * 2 ^ 125) _); [lia | lia |].
    apply mul_c0_114_bounded.
Qed.

(** The conversion of the luma sum is always defined. *)
Lemma luma_cast_defined (r g b : byte) :
  F32.to_u8 (luma_sum r g b) = Some (luma r g b).
Proof.
  destruct (luma_sum_in_range r g b) as (z & Hz & Hr).
  unfold luma, F32.to_u8. rewrite Hz.
  replace ((0 <=? z) && (z <=? 255)) with true; [reflexivity|].
  symmetry. apply andb_true_iff. split; apply Z.leb_le; lia.
Qed.

Lemma luma_is_integer_part (r g b : byte) :
  F32.trunc (luma_sum r g b) = Some (u8_val (luma r g b)).
Proof.
  destruct (luma_sum_in_range r g b) as (z & Hz & Hr).
  rewrite Hz. f_equal. symmetry. unfold luma, F32.to_u8. rewrite Hz.
  replace ((0 <=? z) && (z <=? 255)) with true
    by (symmetry; apply andb_true_iff; split; apply Z.leb_le; lia).
  cbn [from_option id]. unfold u8_of_Z, u8_val.
  rewrite Z.mod_small by lia.
  destruct (Byte.of_N (Z.to_N z)) as [w|] eqn:Hw.
  - apply Byte.to_of_N in Hw. lia.
  - apply Byte.of_N_None_iff in Hw. lia.
Qed.

(** ** Running [bilinear_interpolate] *)

Ltac reuse_eqn :=
  match goal with
  | E : ?t = Some _ |- context [?t] => rewrite E
  | E : ?t = None |- context [?t] => rewrite E
  | E : ?t = true |- context [?t] => rewrite E
  | E : ?t = false |- context [?t] => rewrite E
  end.

Ltac run_step :=
  first
    [ reuse_eqn
    | match goal with
      | |- context [in_int ?z] => destruct (in_int z) eqn:?
      | |- context [?a >=? ?b] => destruct (a >=? b) eqn:?
      | |- context [0 <=? ?i] => destruct (0 <=? i) eqn:?
      | |- context [@lookup nat _ (list _) _ ?k ?G] => destruct (G !! k) eqn:?
      | |- context [F32.to_u8 ?f] => destruct (F32.to_u8 f) eqn:?
      end ].

Ltac run_cbn :=
  cbn -[blend F32.to_u8 F32.sub F32.of_Z F32.mul F32.div Z.mul Z.add Z.sub in_int Z.geb Z.leb Z.ltb].

Lemma bilinear_interpolate_run img W H x y m G :
  heap m !! img = Some G ->
  bilinear_interpolate img W H x y m =
    match bilinear_value G W H x y, sample_offsets W H x y with
    | Some p, Some idx => Done p (with_trace m (EvLoad img <$> reverse idx))
    | _, _ => Undefined
    end.
Proof.
  intros HG. unfold bilinear_interpolate, bilinear_value, sample_offsets, corners, offset, index2.
  unfold int_add, int_sub, int_mul, check_int, int_ok, cell, load, float_to_int, float_to_u8.
  unfold mbind, M_bind, option_bind, mret, M_ret, undefined, with_trace.
  destruct (F32.to_int x) as [x1|]; [|reflexivity].
  destruct (F32.to_int y) as [y1|]; [|reflexivity].
  repeat (run_cbn; try reflexivity; run_step).
Qed.

(** ** Running loops *)

Lemma iterate_run (st : Z -> machine) (ok : Z -> bool) (body : Z -> M unit) (k : nat) :
  forall i,
  (forall j, i <= j < i + Z.of_nat k ->
     body j (st j) = if ok j then Done tt (st (j + 1)) else Undefined) ->
  iterate k i body (st i) =
    if forallb ok (seqZ i (Z.of_nat k)) then Done tt (st (i + Z.of_nat k)) else Undefined.
Proof.
  induction k as [|k IH]; intros i Hbody.
  - cbn. rewrite Z.add_0_r. reflexivity.
  - rewrite Nat2Z.inj_succ, seqZ_cons by lia. cbn [iterate forallb].
    unfold mbind, M_bind. rewrite Hbody by lia.
    destruct (ok i); [|reflexivity]. cbn [andb].
    rewrite IH by (intros j Hj; apply Hbody; lia).
    replace (Z.pred (Z.succ (Z.of_nat k))) with (Z.of_nat k) by lia.
    replace (Z.succ i) with (i + 1) by lia.
    replace (i + 1 + Z.of_nat k) with (i + Z.succ (Z.of_nat k)) by lia.
    reflexivity.
Qed.

Lemma machine_eta (m : machine) :
  Machine (heap m) (tensors m) (oracle m) (trace m) = m.
Proof. destruct m; reflexivity. Qed.

Lemma gray_image_succ rgb j : 0 <= j ->
  gray_image rgb (j + 1) = gray_image rgb j ++ [luma_at rgb j].
Proof.
  intros Hj. unfold gray_image.
  replace (j + 1) with (Z.of_nat (S (Z.to_nat j))) by lia.
  rewrite seqZ_S, fmap_app. cbn. repeat f_equal; lia.
Qed.

Lemma gray_image_length rgb j : length (gray_image rgb j) = Z.to_nat j.
Proof. unfold gray_image. rewrite length_fmap, length_seqZ. reflexivity. Qed.

Lemma gray_trace_succ rgb888_buf gray_buf rgb j : 0 <= j ->
  gray_trace rgb888_buf gray_buf rgb (j + 1)
  = gray_events rgb888_buf gray_buf rgb j ++ gray_trace rgb888_buf gray_buf rgb j.
Proof.
  intros Hj. unfold gray_trace.
  replace (j + 1) with (Z.of_nat (S (Z.to_nat j))) by lia.
  rewrite seqZ_S, reverse_app, !Z2Nat.id, reverse_singleton, bind_app by lia.
  reflexivity.
Qed.

Lemma cell_Some (l : list byte) (i : Z) (b : byte) :
  cell l i = Some b <-> 0 <= i < Z.of_nat (length l) /\ b = byte_at l i.
Proof.
  unfold cell, byte_at. destruct (Z.leb_spec 0 i) as [Hi|Hi].
  - split.
    + intros Hb. pose proof (lookup_lt_Some _ _ _ Hb).
      split; [lia|]. symmetry. apply list_lookup_total_correct. exact Hb.
    + intros [Hlt ->]. apply list_lookup_lookup_total_lt. lia.
  - split; [discriminate | lia].
Qed.

Lemma cell_lt (l : list byte) (i : Z) :
  0 <= i < Z.of_nat (length l) -> cell l i = Some (byte_at l i).
Proof. intros H. apply cell_Some. auto. Qed.

Lemma cell_None (l : list byte) (i : Z) :
  cell l i = None <-> ~ (0 <= i < Z.of_nat (length l)).
Proof.
  split.
  - intros Hn Hi. rewrite cell_lt in Hn by exact Hi. discriminate.
  - intros Hi. destruct (cell l i) as [b|] eqn:E; [|reflexivity].
    apply cell_Some in E. tauto.
Qed.

Lemma check_int_run z m : check_int z m = if in_int z then Done z m else Undefined.
Proof. unfold check_int. destruct (in_int z); reflexivity. Qed.

Lemma load_run p i m l :
  heap m !! p = Some l ->
  load p i m = match cell l i with
               | Some b => Done b (with_trace m [EvLoad p i])
               | None => Undefined
               end.
Proof.
  intros Hl. unfold load, cell, with_trace. rewrite Hl.
  destruct (0 <=? i); [|reflexivity]. destruct (l !! Z.to_nat i); reflexivity.
Qed.

Lemma store_run p i b m l :
  heap m !! p = Some l ->
  store p i b m =
    if (0 <=? i) && (i <? Z.of_nat (length l)) then
      Done tt (Machine (<[p := <[Z.to_nat i := b]> l]> (heap m)) (tensors m) (oracle m)
                       (EvStore p i b :: trace m))
    else Undefined.
Proof. intros Hl. unfold store. rewrite Hl. reflexivity. Qed.

Lemma bind_run {A B} (c : M A) (f : A -> M B) m :
  (c ≫= f) m = match c m with Done a m' => f a m' | Undefined => Undefined end.
Proof. reflexivity. Qed.

Lemma in_int_true z : in_int z = true <-> INT_MIN <= z <= INT_MAX.
Proof. unfold in_int. rewrite andb_true_iff, !Z.leb_le. reflexivity. Qed.

Lemma gray_state_lookup_rgb m rgb888_buf gray_buf rgb g0 j :
  rgb888_buf <> gray_buf -> heap m !! rgb888_buf = Some rgb ->
  heap (gray_state m rgb888_buf gray_buf rgb g0 j) !! rgb888_buf = Some rgb.
Proof. intros Hne Hrgb. cbn. rewrite lookup_insert_ne by congruence. exact Hrgb. Qed.

Lemma float_to_u8_luma_run (r g b : byte) (m : machine) :
  float_to_u8 (luma_sum r g b) m = Done (luma r g b) m.
Proof. unfold float_to_u8. rewrite luma_cast_defined. reflexivity. Qed.

Lemma gray_body_run m rgb888_buf gray_buf rgb g0 j :
  rgb888_buf <> gray_buf -> heap m !! rgb888_buf = Some rgb -> 0 <= j ->
  gray_body rgb888_buf gray_buf j (gray_state m rgb888_buf gray_buf rgb g0 j)
  = if gray_ok (length rgb) (length g0) j
    then Done tt (gray_state m rgb888_buf gray_buf rgb g0 (j + 1))
    else Undefined.
Proof.
  intros Hne Hrgb Hj.
  pose proof (gray_state_lookup_rgb m rgb888_buf gray_buf rgb g0 j Hne Hrgb) as Hl.
  assert (Hg : heap (gray_state m rgb888_buf gray_buf rgb g0 j) !! gray_buf
               = Some (gray_image rgb j ++ drop (Z.to_nat j) g0)).
  { cbn. apply lookup_insert_eq. }
  unfold gray_body, int_mul, int_add.
  rewrite bind_run, check_int_run.
  destruct (gray_ok (length rgb) (length g0) j) eqn:Hok.
  - unfold gray_ok in Hok. rewrite !andb_true_iff, !Z.ltb_lt in Hok.
    destruct Hok as ((((H0 & H1) & H2) & Hlen) & Hglen).
    rewrite H0, bind_run, (load_run _ _ _ _ Hl), cell_lt by lia.
    rewrite bind_run, check_int_run, H1.
    rewrite bind_run, (load_run _ _ _ rgb) by exact Hl. rewrite cell_lt by lia.
    rewrite bind_run, check_int_run, H2.
    rewrite bind_run, (load_run _ _ _ rgb) by exact Hl. rewrite cell_lt by lia.
    rewrite bind_run, float_to_u8_luma_run.
    erewrite store_run by (cbn; apply lookup_insert_eq).
    rewrite length_app, gray_image_length, length_drop.
    destruct (Z.leb_spec 0 j); [|lia].
    destruct (Z.ltb_spec j (Z.of_nat (Z.to_nat j + (length g0 - Z.to_nat j)))); [|lia].
    cbn [andb]. f_equal. unfold gray_state. cbn [heap tensors oracle trace with_trace app].
    f_equal.
    + rewrite insert_insert_eq. f_equal.
      rewrite gray_image_succ by lia.
      rewrite insert_app_r_alt by (rewrite gray_image_length; lia).
      rewrite gray_image_length, Nat.sub_diag, <- app_assoc. f_equal.
      destruct (lookup_lt_is_Some_2 g0 (Z.to_nat j)) as [x Hx]; [lia|].
      rewrite (drop_S _ _ _ Hx). cbn.
      replace (Z.to_nat (j + 1)) with (S (Z.to_nat j)) by lia. reflexivity.
    + rewrite gray_trace_succ by lia. reflexivity.
  - destruct (in_int (j * 3)) eqn:H0; [|reflexivity].
    rewrite bind_run, (load_run _ _ _ _ Hl).
    destruct (cell rgb (j * 3)) as [r|] eqn:Hr; [|reflexivity].
    rewrite bind_run, check_int_run.
    destruct (in_int (j * 3 + 1)) eqn:H1; [|reflexivity].
    rewrite bind_run, (load_run _ _ _ rgb) by exact Hl.
    destruct (cell rgb (j * 3 + 1)) as [g|] eqn:Hgr; [|reflexivity].
    rewrite bind_run, check_int_run.
    destruct (in_int (j * 3 + 2)) eqn:H2; [|reflexivity].
    rewrite bind_run, (load_run _ _ _ rgb) by exact Hl.
    destruct (cell rgb (j * 3 + 2)) as [b|] eqn:Hb; [|reflexivity].
    rewrite bind_run, float_to_u8_luma_run.
    erewrite store_run by (cbn; apply lookup_insert_eq).
    rewrite length_app, gray_image_length, length_drop.
    apply cell_Some in Hb. destruct Hb as [Hb _].
    unfold gray_ok in Hok. rewrite H0, H1, H2 in Hok. cbn [andb] in Hok.
    destruct (Z.ltb_spec (j * 3 + 2) (Z.of_nat (length rgb))); [|lia]. cbn [andb] in Hok.
    apply Z.ltb_ge in Hok.
    destruct (Z.ltb_spec j (Z.of_nat (Z.to_nat j + (length g0 - Z.to_nat j)))); [lia|].
    rewrite andb_false_r. reflexivity.
Qed.

Lemma gray_state_0 m rgb888_buf gray_buf rgb g0 :
  heap m !! gray_buf = Some g0 -> gray_state m rgb888_buf gray_buf rgb g0 0 = m.
Proof.
  intros Hg. unfold gray_state. cbn. rewrite insert_id by exact Hg. apply machine_eta.
Qed.

Lemma gray_loop_run m rgb888_buf gray_buf rgb g0 n :
  rgb888_buf <> gray_buf -> heap m !! rgb888_buf = Some rgb -> heap m !! gray_buf = Some g0 ->
  for_loop 0 n (gray_body rgb888_buf gray_buf) m
  = if forallb (gray_ok (length rgb) (length g0)) (seqZ 0 n)
    then Done tt (gray_state m rgb888_buf gray_buf rgb g0 (Z.max 0 n))
    else Undefined.
Proof.
  intros Hne Hrgb Hg. unfold for_loop.
  rewrite <- (gray_state_0 m rgb888_buf gray_buf rgb g0 Hg) at 1.
  rewrite (iterate_run (gray_state m rgb888_buf gray_buf rgb g0)
             (gray_ok (length rgb) (length g0))).
  - rewrite Z.sub_0_r. replace (0 + Z.of_nat (Z.to_nat n)) with (Z.max 0 n) by lia.
    replace (seqZ 0 (Z.of_nat (Z.to_nat n))) with (seqZ 0 n); [reflexivity|].
    destruct (Z_le_gt_dec 0 n); [rewrite Z2Nat.id by lia; reflexivity|].
    unfold seqZ. replace (Z.to_nat n) with O by lia. reflexivity.
  - intros j Hj. apply gray_body_run; [assumption | assumption | lia].
Qed.

(** ** Rounding: one step changes a value by at most one part in 2^23 *)

Lemma shr_m_of_loc (m : Z) (l : location) : shr_m (shr_record_of_loc m l) = m.
Proof. destruct l as [|[]]; reflexivity. Qed.

Lemma shr_shifted (r : shr_record) (e k : Z) :
  0 <= shr_m r -> 0 <= k ->
  exists r', shr r e k = (r', e + k) /\ shr_m r' = shr_m r / 2 ^ k.
Proof.
  intros Hr Hk. destruct k as [|k|k]; [| |lia].
  - exists r. cbn. rewrite Z.add_0_r, Z.div_1_r. auto.
  - eexists. cbn [shr]. split; [reflexivity|]. apply iter_shr_1_m, Hr.
Qed.

Lemma binary_round_aux_rel (q : positive) (e : Z) (l : location) :
  24 <= Zpos (digits2_pos q) -> -125 <= Zpos (digits2_pos q) + e <= 100 ->
  exists m' e',
    binary_round_aux F32.prec F32.emax false (Zpos q) e l = S754_finite false m' e' /\
    digits2_pos m' = 24%positive /\
    Zpos (digits2_pos q) + e - 24 <= e' <= Zpos (digits2_pos q) + e - 23 /\
    2 ^ 23 * (Zpos m' * 2 ^ (e' - e)) <= Zpos q * (2 ^ 23 + 1) /\
    Zpos q * (2 ^ 23 - 1) <= 2 ^ 23 * (Zpos m' * 2 ^ (e' - e)).
Proof.
  intros Hd Hde.
  pose proof (digits2_pos_bounds q) as [Hqlo Hqhi].
  set (d := Zpos (digits2_pos q)) in *.
  set (k := d - 24).
  unfold binary_round_aux, shr_fexp. cbn [Zdigits2]. fold d.
  assert (Hf : fexp F32.prec F32.emax (d + e) - e = k).
  { unfold fexp, emin, F32.prec, F32.emax, k. lia. }
  rewrite Hf.
  destruct (shr_shifted (shr_record_of_loc (Zpos q) l) e k) as (r1 & -> & Hm1);
    [rewrite shr_m_of_loc; lia | unfold k; lia |].
  rewrite shr_m_of_loc in Hm1.
  pose proof (round_nearest_even_bounds (shr_m r1) (loc_of_shr_record r1)) as Hm2.
  set (m2 := round_nearest_even _ _) in *. clearbody m2.
  set (e1 := e + k) in *.
  assert (Hpk : 0 < 2 ^ k) by (apply Z.pow_pos_nonneg; unfold k; lia).
  assert (Hdk : 2 ^ (d - 1) = 2 ^ 23 * 2 ^ k).
  { rewrite <- Z.pow_add_r by (unfold k; lia). f_equal. unfold k. lia. }
  assert (Hdk' : 2 ^ d = 2 ^ 24 * 2 ^ k).
  { rewrite <- Z.pow_add_r by (unfold k; lia). f_equal. unfold k. lia. }
  assert (Hlo1 : 2 ^ 23 <= shr_m r1).
  { rewrite Hm1. apply Z.div_le_lower_bound; [exact Hpk|]. lia. }
  assert (Hhi1 : shr_m r1 < 2 ^ 24).
  { rewrite Hm1. apply Z.div_lt_upper_bound; [exact Hpk|]. lia. }
  assert (Hfloor : shr_m r1 * 2 ^ k <= Zpos q).
  { rewrite Hm1, Z.mul_comm. apply Z.mul_div_le. exact Hpk. }
  assert (Hceil : Zpos q < (shr_m r1 + 1) * 2 ^ k).
  { rewrite Hm1. pose proof (Z.mod_pos_bound (Zpos q) (2 ^ k) Hpk).
    pose proof (Z.div_mod (Zpos q) (2 ^ k) ltac:(lia)). nia. }
  assert (Hval : 2 ^ 23 * (m2 * 2 ^ k) <= Zpos q * (2 ^ 23 + 1)) by nia.
  assert (Hval' : Zpos q * (2 ^ 23 - 1) <= 2 ^ 23 * (m2 * 2 ^ k)) by nia.
  destruct m2 as [|p2|p2]; [lia | | lia].
  cbn [Zdigits2 shr_record_of_loc].
  destruct (Z_lt_le_dec (Zpos p2) (2 ^ 24)) as [Hlt | Hge].
  - assert (Hd2 : Zpos (digits2_pos p2) = 24) by (apply Zdigits2_unique; lia).
    rewrite Hd2.
    assert (Hf2 : fexp F32.prec F32.emax (24 + e1) - e1 = 0).
    { unfold fexp, emin, F32.prec, F32.emax, e1, k. lia. }
    rewrite Hf2. cbn [shr shr_m]. unfold F32.emax, F32.prec.
    destruct (Z.leb_spec e1 (128 - 24)); [|unfold e1, k in *; lia].
    exists p2, e1. split; [reflexivity|]. split; [apply Pos2Z.inj; exact Hd2|].
    split; [unfold e1, k; lia|].
    replace (e1 - e) with k by (unfold e1; lia). split; [exact Hval | exact Hval'].
  - assert (Hp2 : p2 = 16777216%positive) by lia. subst p2.
    assert (Hf2 : fexp F32.prec F32.emax (Zpos (digits2_pos 16777216) + e1) - e1 = 1).
    { change (Zpos (digits2_pos 16777216)) with 25.
      unfold fexp, emin, F32.prec, F32.emax, e1, k. lia. }
    rewrite Hf2. cbn [shr shr_m SpecFloat.iter_pos shr_1]. unfold F32.emax, F32.prec.
    destruct (Z.leb_spec (e1 + 1) (128 - 24)); [|unfold e1, k in *; lia].
    exists 8388608%positive, (e1 + 1). split; [reflexivity|]. split; [reflexivity|].
    split; [unfold e1, k; lia|].
    replace (e1 + 1 - e) with (1 + k) by (unfold e1; lia).
    rewrite Z.pow_add_r by (unfold k; lia).
    change (Zpos 16777216) with (2 ^ 24) in Hval, Hval'. change (Zpos 8388608) with (2 ^ 23).
    change (2 ^ 1) with 2. split; nia.
Qed.

Lemma digits2_pos_ge (p : positive) (d : Z) :
  2 ^ (d - 1) <= Zpos p -> 0 < d -> d <= Zpos (digits2_pos p).
Proof.
  intros Hlo Hd. pose proof (digits2_pos_bounds p) as [_ Hhi].
  destruct (Z_le_gt_dec d (Zpos (digits2_pos p))) as [|Hgt]; [assumption|].
  assert (2 ^ Zpos (digits2_pos p) <= 2 ^ (d - 1)) by (apply Z.pow_le_mono_r; lia). lia.
Qed.

Lemma digits2_pos_le (p : positive) (d : Z) :
  Zpos p < 2 ^ d -> 0 <= d -> Zpos (digits2_pos p) <= d.
Proof.
  intros Hhi Hd. pose proof (digits2_pos_bounds p) as [Hlo _].
  destruct (Z_le_gt_dec (Zpos (digits2_pos p)) d) as [|Hgt]; [assumption|].
  assert (2 ^ d <= 2 ^ (Zpos (digits2_pos p) - 1)) by (apply Z.pow_le_mono_r; lia). lia.
Qed.

Lemma normal_mantissa (m : positive) :
  digits2_pos m = 24%positive -> 2 ^ 23 <= Zpos m < 2 ^ 24.
Proof. intros Hd. pose proof (digits2_pos_bounds m) as Hb. rewrite Hd in Hb. exact Hb. Qed.

(** The rounded product is the product times [1 - 2^-23] at least, and
    times [1 + 2^-23] at most. *)
Lemma mul_rounded (mx my : positive) (ex ey : Z) :
  digits2_pos mx = 24%positive -> digits2_pos my = 24%positive ->
  -172 <= ex + ey <= 52 ->
  exists m' e',
    F32.mul (S754_finite false mx ex) (S754_finite false my ey) = S754_finite false m' e' /\
    digits2_pos m' = 24%positive /\
    ex + ey + 23 <= e' <= ex + ey + 25 /\
    2 ^ 23 * (Zpos m' * 2 ^ (e' - (ex + ey))) <= Zpos mx * Zpos my * (2 ^ 23 + 1) /\
    Zpos mx * Zpos my * (2 ^ 23 - 1) <= 2 ^ 23 * (Zpos m' * 2 ^ (e' - (ex + ey))).
Proof.
  intros Hdx Hdy He.
  pose proof (normal_mantissa mx Hdx) as Hmx. pose proof (normal_mantissa my Hdy) as Hmy.
  unfold F32.mul, SFmul. cbn [xorb].
  assert (Hlo : 47 <= Zpos (digits2_pos (mx * my))).
  { apply digits2_pos_ge; [|lia]. rewrite Pos2Z.inj_mul. change (2 ^ (47 - 1)) with (2 ^ 23 * 2 ^ 23).
    nia. }
  assert (Hhi : Zpos (digits2_pos (mx * my)) <= 48).
  { apply digits2_pos_le; [|lia]. rewrite Pos2Z.inj_mul. change (2 ^ 48) with (2 ^ 24 * 2 ^ 24).
    nia. }
  destruct (binary_round_aux_rel (mx * my) (ex + ey) loc_Exact)
    as (m' & e' & Hr & Hd & Hee & Hv & Hv');
    [lia | lia |].
  exists m', e'. rewrite Pos2Z.inj_mul in Hv, Hv'. repeat split; try assumption; lia.
Qed.

(** The rounded quotient is at most the quotient times [1 + 2^-23]. *)
Lemma div_upper (mx my : positive) (ex ey : Z) :
  digits2_pos mx = 24%positive -> digits2_pos my = 24%positive ->
  -100 <= ex - ey <= 90 ->
  exists m' e',
    F32.div (S754_finite false mx ex) (S754_finite false my ey) = S754_finite false m' e' /\
    digits2_pos m' = 24%positive /\
    ex - ey - 24 <= e' <= ex - ey - 22 /\
    2 ^ 23 * (Zpos m' * 2 ^ (e' - (ex - ey - 24))) * Zpos my
    <= Zpos mx * 2 ^ 24 * (2 ^ 23 + 1).
Proof.
  intros Hdx Hdy He.
  pose proof (normal_mantissa mx Hdx) as Hmx. pose proof (normal_mantissa my Hdy) as Hmy.
  unfold F32.div, SFdiv, SFdiv_core_binary. cbn [Zdigits2 xorb]. rewrite Hdx, Hdy.
  assert (HE : Z.min (fexp F32.prec F32.emax (24 + ex - (24 + ey))) (ex - ey) = ex - ey - 24).
  { unfold fexp, emin, F32.prec, F32.emax. lia. }
  rewrite HE. replace (ex - ey - (ex - ey - 24)) with 24 by lia. cbv iota.
  change (IntDef.Z.div_eucl (Z.shiftl (Zpos mx) 24) (Zpos my))
    with (Z.div_eucl (Z.shiftl (Zpos mx) 24) (Zpos my)).
  pose proof (Z_div_mod (Z.shiftl (Zpos mx) 24) (Zpos my) ltac:(lia)) as Hdm.
  destruct (Z.div_eucl (Z.shiftl (Zpos mx) 24) (Zpos my)) as [q r].
  rewrite Z.shiftl_mul_pow2 in Hdm by lia. destruct Hdm as [Hq Hr].
  assert (Hqlo : 2 ^ 23 <= q) by nia.
  assert (Hqhi : q < 2 ^ 25) by nia.
  destruct q as [|qp|qp]; [lia | | lia].
  assert (Hlo : 24 <= Zpos (digits2_pos qp)) by (apply digits2_pos_ge; lia).
  assert (Hhi : Zpos (digits2_pos qp) <= 25) by (apply digits2_pos_le; lia).
  destruct (binary_round_aux_rel qp (ex - ey - 24) (new_location (Zpos my) r))
    as (m' & e' & Hres & Hd & Hee & Hv & _); [lia | lia |].
  exists m', e'. split; [exact Hres|]. split; [exact Hd|]. split; [lia|].
  assert (0 <= Zpos m' * 2 ^ (e' - (ex - ey - 24))).
  { apply Z.mul_nonneg_nonneg; [lia | apply Z.pow_nonneg; lia]. }
  nia.
Qed.

(** ** Source coordinates stay inside the image *)

Lemma trunc_mag_below (m : positive) (e C W : Z) :
  0 <= C -> 0 <= e + C -> Zpos m * 2 ^ (e + C) < W * 2 ^ C ->
  0 <= F32.trunc_mag m e < W.
Proof.
  intros HC HA Hlt.
  assert (HpC : 0 < 2 ^ C) by (apply Z.pow_pos_nonneg; lia).
  unfold F32.trunc_mag. destruct e as [|k|k].
  - rewrite Z.add_0_l in Hlt. nia.
  - rewrite Z.shiftl_mul_pow2 by lia. rewrite Z.pow_add_r in Hlt by lia.
    assert (0 < 2 ^ Zpos k) by (apply Z.pow_pos_nonneg; lia). nia.
  - rewrite Z.shiftr_div_pow2 by lia.
    assert (Hk : 0 < 2 ^ Zpos k) by (apply Z.pow_pos_nonneg; lia).
    split; [apply Z.div_pos; lia|].
    apply Z.div_lt_upper_bound; [exact Hk|].
    assert (HCk : 2 ^ C = 2 ^ Zpos k * 2 ^ (Zneg k + C)).
    { rewrite <- Z.pow_add_r by lia. f_equal. lia. }
    assert (0 < 2 ^ (Zneg k + C)) by (apply Z.pow_pos_nonneg; lia).
    rewrite HCk in Hlt. nia.
Qed.

(** [x * (W / ts)], evaluated in binary32 as the resize loops do, has an
    integer part below [W] for every [x < ts]: the two roundings cannot
    carry the product up to [W]. *)
Lemma scaled_coordinate_in_range (x W ts : Z) :
  1 <= W < 2 ^ 24 -> 0 <= x < ts -> ts <= 2 ^ 21 ->
  exists x1,
    F32.to_int (F32.mul (F32.of_Z x) (F32.div (F32.of_Z W) (F32.of_Z ts))) = Some x1 /\
    0 <= x1 < W.
Proof.
  intros HW Hx Hts.
  destruct W as [|pW|pW]; try lia. destruct ts as [|pT|pT]; try lia.
  destruct (of_Z_pos_small pW) as (mW & eW & -> & HdW & HeW & HmW); [lia|].
  destruct (of_Z_pos_small pT) as (mT & eT & -> & HdT & HeT & HmT); [lia|].
  destruct (div_upper mW mT eW eT HdW HdT) as (mr & er & -> & Hdr & Her & Hr); [lia|].
  destruct x as [|pX|pX]; [| |lia].
  { exists 0. split; [reflexivity | lia]. }
  destruct (of_Z_pos_small pX) as (mX & eX & -> & HdX & HeX & HmX); [lia|].
  destruct (mul_rounded mX mr eX er HdX Hdr) as (ms & es & -> & Hds & Hes & Hs & _); [lia|].
  set (a := es - (eX + er)) in *. set (b := er - (eW - eT - 24)) in *.
  set (C := 24 - eX - eW).
  assert (Hpa : 0 < 2 ^ a) by (apply Z.pow_pos_nonneg; unfold a; lia).
  assert (Hpb : 0 < 2 ^ b) by (apply Z.pow_pos_nonneg; unfold b; lia).
  assert (HpT : 0 < 2 ^ (- eT)) by (apply Z.pow_pos_nonneg; lia).
  assert (HpX : 0 < 2 ^ (- eX)) by (apply Z.pow_pos_nonneg; lia).
  assert (HpW : 0 < 2 ^ (- eW)) by (apply Z.pow_pos_nonneg; lia).
  assert (HA : 2 ^ (es + C) = 2 ^ a * 2 ^ b * 2 ^ (- eT)).
  { rewrite <- !Z.pow_add_r by (unfold a, b; lia). f_equal. unfold a, b, C. lia. }
  assert (HC : 2 ^ C = 2 ^ (- eX) * 2 ^ (- eW) * 2 ^ 24).
  { rewrite <- !Z.pow_add_r by lia. f_equal. unfold C. lia. }
  assert (H3 : 2 ^ 23 * (Zpos ms * 2 ^ a) * (2 ^ 23 * 2 ^ b * Zpos mT)
               <= Zpos mX * Zpos mr * (2 ^ 23 + 1) * (2 ^ 23 * 2 ^ b * Zpos mT)).
  { apply Z.mul_le_mono_nonneg_r; [|exact Hs]. nia. }
  assert (H4 : Zpos mX * (2 ^ 23 + 1) * (2 ^ 23 * (Zpos mr * 2 ^ b) * Zpos mT)
               <= Zpos mX * (2 ^ 23 + 1) * (Zpos mW * 2 ^ 24 * (2 ^ 23 + 1))).
  { apply Z.mul_le_mono_nonneg_l; [lia | exact Hr]. }
  assert (H5 : 2 ^ 46 * (Zpos ms * 2 ^ (es + C)) * Zpos pT
               <= Zpos pX * (Zpos pW * 2 ^ C) * ((2 ^ 23 + 1) * (2 ^ 23 + 1))).
  { rewrite HA, HC. rewrite HmT, HmX in H3. rewrite HmT, HmX, HmW in H4.
    change (2 ^ 46) with (2 ^ 23 * 2 ^ 23). lia. }
  assert (HpC : 0 < 2 ^ C) by (apply Z.pow_pos_nonneg; unfold C; lia).
  assert (H6 : Zpos pX * ((2 ^ 23 + 1) * (2 ^ 23 + 1)) < Zpos pT * 2 ^ 46) by lia.
  assert (H7 : Zpos ms * 2 ^ (es + C) < Zpos pW * 2 ^ C).
  { assert (0 < Zpos pW * 2 ^ C) by lia.
    assert (Hlt : 2 ^ 46 * (Zpos ms * 2 ^ (es + C)) * Zpos pT
                  < Zpos pT * 2 ^ 46 * (Zpos pW * 2 ^ C)) by nia.
    assert (0 < Zpos pT * 2 ^ 46) by lia. nia. }
  pose proof (trunc_mag_below ms es C (Zpos pW) ltac:(unfold C; lia)
                ltac:(unfold C, a, b in *; lia) H7) as Hin.
  exists (F32.trunc_mag ms es). split; [|exact Hin].
  unfold F32.to_int. cbn [F32.trunc cond_Zopp].
  replace (in_int (F32.trunc_mag ms es)) with true; [reflexivity|].
  symmetry. apply in_int_true. unfold INT_MIN, INT_MAX. lia.
Qed.

(** ** Operations whose exact result is a binary32 number *)

Lemma shr_1_double (z : Z) :
  0 <= z -> shr_1 (Build_shr_record (2 * z) false false) = Build_shr_record z false false.
Proof. intros Hz. destruct z as [|p|p]; [reflexivity | reflexivity | lia]. Qed.

Lemma iter_shr_1_exact (k : positive) : forall c,
  0 <= c ->
  SpecFloat.iter_pos shr_1 k (Build_shr_record (c * 2 ^ Zpos k) false false)
  = Build_shr_record c false false.
Proof.
  induction k as [k IH | k IH |]; intros c Hc; cbn [SpecFloat.iter_pos].
  - assert (Hp : 0 < 2 ^ Zpos k) by (apply Z.pow_pos_nonneg; lia).
    assert (E : c * 2 ^ Zpos k~1 = 2 * (c * 2 ^ Zpos k * 2 ^ Zpos k)).
    { replace (Zpos k~1) with (Zpos k + Zpos k + 1) by lia.
      rewrite !Z.pow_add_r by lia. change (2 ^ 1) with 2. ring. }
    rewrite E, shr_1_double by nia. rewrite IH by nia. apply IH, Hc.
  - assert (Hp : 0 < 2 ^ Zpos k) by (apply Z.pow_pos_nonneg; lia).
    assert (E : c * 2 ^ Zpos k~0 = c * 2 ^ Zpos k * 2 ^ Zpos k).
    { replace (Zpos k~0) with (Zpos k + Zpos k) by lia.
      rewrite !Z.pow_add_r by lia. ring. }
    rewrite E, IH by nia. apply IH, Hc.
  - change (2 ^ 1) with 2. rewrite Z.mul_comm. apply shr_1_double, Hc.
Qed.

Lemma digits2_pos_shifted (c q : positive) (k : Z) :
  digits2_pos c = 24%positive -> 0 <= k -> Zpos q = Zpos c * 2 ^ k ->
  Zpos (digits2_pos q) = 24 + k.
Proof.
  intros Hc Hk Hq. pose proof (normal_mantissa c Hc) as Hm.
  apply Zdigits2_unique; [|lia]. rewrite Hq.
  replace (24 + k - 1) with (23 + k) by lia. rewrite !Z.pow_add_r by lia.
  assert (0 < 2 ^ k) by (apply Z.pow_pos_nonneg; lia). nia.
Qed.

(** A value [c * 2^k] with a 24-bit [c] is rounded to itself. *)
Lemma binary_round_aux_exact (c q : positive) (e k : Z) :
  digits2_pos c = 24%positive -> 0 <= k -> Zpos q = Zpos c * 2 ^ k ->
  -125 <= e -> e + k <= 104 ->
  binary_round_aux F32.prec F32.emax false (Zpos q) e loc_Exact = S754_finite false c (e + k).
Proof.
  intros Hc Hk Hq He Hek.
  pose proof (digits2_pos_shifted c q k Hc Hk Hq) as Hd.
  unfold binary_round_aux, shr_fexp. cbn [Zdigits2 shr_record_of_loc]. rewrite Hd.
  assert (Hf : fexp F32.prec F32.emax (24 + k + e) - e = k).
  { unfold fexp, emin, F32.prec, F32.emax. lia. }
  rewrite Hf.
  assert (Hshr : shr (Build_shr_record (Zpos q) false false) e k
                 = (Build_shr_record (Zpos c) false false, e + k)).
  { destruct k as [|kp|kp]; [| |lia].
    - cbn [shr]. rewrite Z.add_0_r. change (2 ^ 0) with 1 in Hq. rewrite Hq, Z.mul_1_r.
      reflexivity.
    - cbn [shr]. rewrite Hq, iter_shr_1_exact by lia. reflexivity. }
  rewrite Hshr.
  cbn [shr_m loc_of_shr_record round_nearest_even Zdigits2 shr_record_of_loc]. rewrite Hc.
  assert (Hf2 : fexp F32.prec F32.emax (24 + (e + k)) - (e + k) = 0).
  { unfold fexp, emin, F32.prec, F32.emax. lia. }
  rewrite Hf2. cbn [shr shr_m]. unfold F32.emax, F32.prec.
  destruct (Z.leb_spec (e + k) (128 - 24)); [reflexivity | lia].
Qed.

Lemma mul_exact (a b : Z) :
  0 <= a < 2 ^ 24 -> 0 <= b < 2 ^ 24 -> a * b < 2 ^ 24 ->
  F32.mul (F32.of_Z a) (F32.of_Z b) = F32.of_Z (a * b).
Proof.
  intros Ha Hb Hab.
  destruct a as [|pa|pa]; [| |lia].
  { destruct b as [|pb|pb]; [reflexivity | | lia].
    destruct (of_Z_pos_small pb) as (m & e & -> & _); [lia | reflexivity]. }
  destruct b as [|pb|pb]; [| |lia].
  { rewrite Z.mul_0_r. destruct (of_Z_pos_small pa) as (m & e & -> & _); [lia | reflexivity]. }
  destruct (of_Z_pos_small pa) as (ma & ea & -> & Hda & Hea & Hma); [lia|].
  destruct (of_Z_pos_small pb) as (mb & eb & -> & Hdb & Heb & Hmb); [lia|].
  change (Zpos pa * Zpos pb) with (Zpos (pa * pb)) in *.
  destruct (of_Z_pos_small (pa * pb)) as (mc & ec & -> & Hdc & Hec & Hmc); [lia|].
  unfold F32.mul, SFmul. cbn [xorb].
  pose proof (normal_mantissa ma Hda). pose proof (normal_mantissa mb Hdb).
  pose proof (normal_mantissa mc Hdc).
  assert (HK : 0 <= ec - ea - eb).
  { destruct (Z_lt_le_dec (ec - ea - eb) 0) as [Hneg|]; [exfalso | assumption].
    assert (P : 2 ^ (- ea) * 2 ^ (- eb) * 2 ^ (- (ec - ea - eb)) = 2 ^ (- ec)).
    { rewrite <- !Z.pow_add_r by lia. f_equal. lia. }
    assert (Hx : Zpos ma * Zpos mb * 2 ^ (- (ec - ea - eb)) = Zpos mc).
    { rewrite Hma, Hmb, Hmc, Pos2Z.inj_mul, <- P. ring. }
    assert (1 <= 2 ^ (- (ec - ea - eb))) by (apply Z.lt_pred_le, Z.pow_pos_nonneg; lia).
    change (2 ^ 23) with 8388608 in *. change (2 ^ 24) with 16777216 in *. nia. }
  assert (E : Zpos (ma * mb) = Zpos mc * 2 ^ (ec - ea - eb)).
  { assert (P : 2 ^ (- ea) * 2 ^ (- eb) = 2 ^ (- ec) * 2 ^ (ec - ea - eb)).
    { rewrite <- !Z.pow_add_r by lia. f_equal. lia. }
    rewrite Pos2Z.inj_mul, Hma, Hmb, Hmc, Pos2Z.inj_mul.
    transitivity (Zpos pa * Zpos pb * (2 ^ (- ea) * 2 ^ (- eb))); [ring|].
    rewrite P. ring. }
  rewrite (binary_round_aux_exact mc (ma * mb) (ea + eb) (ec - ea - eb)); try assumption; try lia.
  f_equal. lia.
Qed.

Lemma div_eucl_multiple (q m : Z) : 0 < m -> Z.div_eucl (q * m) m = (q, 0).
Proof.
  intros Hm.
  pose proof (Z.div_mul q m ltac:(lia)) as Hq.
  pose proof (Z.mod_mul q m ltac:(lia)) as Hr.
  unfold Z.div, Z.modulo in Hq, Hr.
  destruct (Z.div_eucl (q * m) m) as [q' r']. cbn in Hq, Hr. congruence.
Qed.

Lemma div_exact (a n : Z) :
  0 <= a -> 0 < n < 2 ^ 24 -> a * n < 2 ^ 24 ->
  F32.div (F32.of_Z (a * n)) (F32.of_Z n) = F32.of_Z a.
Proof.
  intros Ha Hn Han.
  destruct n as [|pn|pn]; try lia.
  destruct (of_Z_pos_small pn) as (m2 & e2 & -> & Hd2 & He2 & Hm2); [lia|].
  destruct a as [|pa|pa]; [reflexivity | | lia].
  change (Zpos pa * Zpos pn) with (Zpos (pa * pn)) in *.
  destruct (of_Z_pos_small (pa * pn)) as (m1 & e1 & -> & Hd1 & He1 & Hm1); [lia|].
  destruct (of_Z_pos_small pa) as (ma & ea & -> & Hda & Hea & Hma); [nia|].
  pose proof (normal_mantissa m1 Hd1). pose proof (normal_mantissa m2 Hd2).
  pose proof (normal_mantissa ma Hda).
  set (j := 24 - e1 + ea + e2).
  assert (Hj : 0 <= j).
  { destruct (Z_lt_le_dec j 0) as [Hneg|]; [exfalso | assumption].
    assert (P : 2 ^ (- e1) * 2 ^ 24 * 2 ^ (- j) = 2 ^ (- ea) * 2 ^ (- e2)).
    { rewrite <- !Z.pow_add_r by (unfold j in *; lia). f_equal. unfold j. lia. }
    assert (Hx : Zpos m1 * 2 ^ 24 * 2 ^ (- j) = Zpos ma * Zpos m2).
    { rewrite Hm1, Hma, Hm2, Pos2Z.inj_mul.
      transitivity (Zpos pa * Zpos pn * (2 ^ (- e1) * 2 ^ 24 * 2 ^ (- j))); [ring|].
      rewrite P. ring. }
    assert (2 <= 2 ^ (- j)).
    { change 2 with (2 ^ 1) at 1. apply Z.pow_le_mono_r; lia. }
    change (2 ^ 23) with 8388608 in *. change (2 ^ 24) with 16777216 in *. nia. }
  assert (E : Zpos m1 * 2 ^ 24 = Zpos ma * 2 ^ j * Zpos m2).
  { assert (P : 2 ^ (- e1) * 2 ^ 24 = 2 ^ (- ea) * 2 ^ j * 2 ^ (- e2)).
    { rewrite <- !Z.pow_add_r by (unfold j in *; lia). f_equal. unfold j. lia. }
    rewrite Hm1, Hma, Hm2, Pos2Z.inj_mul.
    transitivity (Zpos pa * Zpos pn * (2 ^ (- e1) * 2 ^ 24)); [ring|].
    rewrite P. ring. }
  unfold F32.div, SFdiv, SFdiv_core_binary. cbn [Zdigits2 xorb]. rewrite Hd1, Hd2.
  assert (HE : Z.min (fexp F32.prec F32.emax (24 + e1 - (24 + e2))) (e1 - e2) = e1 - e2 - 24).
  { unfold fexp, emin, F32.prec, F32.emax. lia. }
  rewrite HE. replace (e1 - e2 - (e1 - e2 - 24)) with 24 by lia. cbv iota.
  change (IntDef.Z.div_eucl (Z.shiftl (Zpos m1) 24) (Zpos m2))
    with (Z.div_eucl (Z.shiftl (Zpos m1) 24) (Zpos m2)).
  rewrite Z.shiftl_mul_pow2, E, div_eucl_multiple by lia.
  assert (Hl : new_location (Zpos m2) 0 = loc_Exact).
  { unfold new_location. destruct (Z.even (Zpos m2)); reflexivity. }
  rewrite Hl.
  assert (Hpj : 0 < 2 ^ j) by (apply Z.pow_pos_nonneg; lia).
  destruct (Zpos ma * 2 ^ j) as [|q|q] eqn:Hq; [lia | | lia].
  rewrite (binary_round_aux_exact ma q (e1 - e2 - 24) j); try assumption; try lia.
  f_equal. unfold j. lia.
Qed.

(** ** Relative error of the operations on positive normal numbers *)

Lemma scaled_value_nonneg (f : F32.float) : 0 <= scaled_value f.
Proof.
  destruct f as [| | |[] m e]; cbn; lia.
Qed.

Lemma positive_normal_weaken (lo lo' : Z) (f : F32.float) :
  lo' <= lo -> positive_normal lo f -> positive_normal lo' f.
Proof. destruct f as [[]|[]| |[] m e]; cbn; try tauto. lia. Qed.

Lemma of_Z_scaled (n : Z) :
  0 <= n < 2 ^ 24 ->
  positive_normal (-23) (F32.of_Z n) /\ scaled_value (F32.of_Z n) = n * 2 ^ 200.
Proof.
  intros Hn. destruct n as [|p|p]; [split; [exact I | reflexivity] | | lia].
  destruct (of_Z_pos_small p) as (m & e & -> & Hd & He & Hm); [lia|].
  cbn. split; [split; [exact Hd | lia]|].
  rewrite Hm, <- Z.mul_assoc, <- Z.pow_add_r by lia. do 2 f_equal. lia.
Qed.

(** A normal number of scaled value at most [2^b] has exponent at most
    [b - 223]. *)
Lemma exponent_bound (m : positive) (e b : Z) :
  digits2_pos m = 24%positive -> -200 <= e ->
  Zpos m * 2 ^ (e + 200) <= 2 ^ b -> e <= b - 223.
Proof.
  intros Hd He Hv. pose proof (normal_mantissa m Hd) as Hm.
  destruct (Z_le_gt_dec e (b - 223)) as [|Hgt]; [assumption | exfalso].
  destruct (Z_lt_le_dec b 0) as [Hb|Hb].
  - rewrite (Z.pow_neg_r 2 b) in Hv by exact Hb.
    assert (0 < 2 ^ (e + 200)) by (apply Z.pow_pos_nonneg; lia). nia.
  - assert (H1 : 2 ^ (b + 1) <= 2 ^ 23 * 2 ^ (e + 200)).
    { rewrite <- Z.pow_add_r by lia. apply Z.pow_le_mono_r; lia. }
    rewrite Z.pow_add_r in H1 by lia. change (2 ^ 1) with 2 in H1.
    assert (0 < 2 ^ b) by (apply Z.pow_pos_nonneg; lia).
    assert (0 < 2 ^ (e + 200)) by (apply Z.pow_pos_nonneg; lia). nia.
Qed.

Lemma trunc_scaled (lo : Z) (f : F32.float) :
  positive_normal lo f -> -200 <= lo ->
  F32.trunc f = Some (scaled_value f / 2 ^ 200).
Proof.
  intros Hf Hlo. destruct f as [[]|[]| |[] m e]; cbn in Hf; try tauto.
  destruct Hf as [_ He]. cbn [F32.trunc cond_Zopp scaled_value]. f_equal.
  unfold F32.trunc_mag. destruct e as [|k|k].
  - rewrite Z.add_0_l, Z.div_mul by lia. reflexivity.
  - rewrite Z.shiftl_mul_pow2 by lia.
    rewrite Z.pow_add_r, Z.mul_assoc, Z.div_mul by lia. reflexivity.
  - rewrite Z.shiftr_div_pow2 by lia.
    assert (E : 2 ^ 200 = 2 ^ Zpos k * 2 ^ (Zneg k + 200)).
    { rewrite <- Z.pow_add_r by lia. f_equal. lia. }
    rewrite E, Z.div_mul_cancel_r; [reflexivity | |];
      apply Z.pow_nonzero; lia.
Qed.

Lemma mul_rel (lx ly : Z) (x y : F32.float) :
  positive_normal lx x -> positive_normal ly y ->
  -172 <= lx + ly -> -200 <= lx -> -200 <= ly ->
  scaled_value x <= 2 ^ 220 -> scaled_value y <= 2 ^ 220 ->
  positive_normal (lx + ly + 23) (F32.mul x y) /\
  scaled_value x * scaled_value y * (2 ^ 23 - 1)
    <= 2 ^ 23 * (scaled_value (F32.mul x y) * 2 ^ 200) /\
  2 ^ 23 * (scaled_value (F32.mul x y) * 2 ^ 200)
    <= scaled_value x * scaled_value y * (2 ^ 23 + 1).
Proof.
  intros Hx Hy Hl Hlx Hly Hvx Hvy.
  destruct x as [[]|[]| |[] mx ex]; cbn in Hx; try tauto;
    destruct y as [[]|[]| |[] my ey]; cbn in Hy; try tauto;
    try (unfold F32.mul; cbn [SFmul xorb scaled_value positive_normal];
         rewrite ?Z.mul_0_l, ?Z.mul_0_r, ?Z.mul_0_l; split; [exact I | lia]).
  destruct Hx as [Hdx Hex], Hy as [Hdy Hey]. cbn [scaled_value] in *.
  pose proof (exponent_bound mx ex 220 Hdx ltac:(lia) Hvx) as Hex'.
  pose proof (exponent_bound my ey 220 Hdy ltac:(lia) Hvy) as Hey'.
  destruct (mul_rounded mx my ex ey Hdx Hdy) as (m' & e' & -> & Hd & He & Hup & Hlow); [lia|].
  cbn [positive_normal scaled_value]. split; [split; [exact Hd | lia]|].
  assert (E1 : Zpos mx * 2 ^ (ex + 200) * (Zpos my * 2 ^ (ey + 200))
               = Zpos mx * Zpos my * 2 ^ (ex + ey + 400)).
  { replace (ex + ey + 400) with (ex + 200 + (ey + 200)) by lia.
    rewrite (Z.pow_add_r 2 (ex + 200) (ey + 200)) by lia. ring. }
  assert (E2 : Zpos m' * 2 ^ (e' + 200) * 2 ^ 200
               = Zpos m' * 2 ^ (e' - (ex + ey)) * 2 ^ (ex + ey + 400)).
  { rewrite <- !Z.mul_assoc. f_equal. rewrite <- !Z.pow_add_r by lia. f_equal. lia. }
  rewrite E1, E2.
  assert (Hp : 0 < 2 ^ (ex + ey + 400)) by (apply Z.pow_pos_nonneg; lia).
  split; nia.
Qed.

Lemma shl_align_scaled (m : positive) (e ez : Z) :
  -200 <= ez <= e ->
  Zpos (fst (shl_align m e ez)) * 2 ^ (ez + 200) = Zpos m * 2 ^ (e + 200).
Proof.
  intros He. unfold shl_align. destruct (ez - e) as [|k|k] eqn:Hk; cbn [fst].
  - do 2 f_equal. lia.
  - lia.
  - rewrite Zpos_iter_xO, <- Z.mul_assoc, <- Z.pow_add_r by lia. do 2 f_equal. lia.
Qed.

Lemma normalize_rel (M : positive) (ez : Z) :
  -124 <= ez -> Zpos (digits2_pos M) + ez <= 100 ->
  exists m' e',
    binary_normalize F32.prec F32.emax (Zpos M) ez false = S754_finite false m' e' /\
    digits2_pos m' = 24%positive /\ Zpos (digits2_pos M) + ez - 24 <= e' /\
    Zpos M * 2 ^ (ez + 200) * (2 ^ 23 - 1) <= 2 ^ 23 * (Zpos m' * 2 ^ (e' + 200)) /\
    2 ^ 23 * (Zpos m' * 2 ^ (e' + 200)) <= Zpos M * 2 ^ (ez + 200) * (2 ^ 23 + 1).
Proof.
  intros Hez Hde.
  unfold binary_normalize, binary_round, shl_align.
  set (d := Zpos (digits2_pos M)) in *.
  assert (Hd0 : 0 < d) by (unfold d; lia).
  assert (Hf : fexp F32.prec F32.emax (d + ez) = d + ez - 24).
  { unfold fexp, emin, F32.prec, F32.emax. lia. }
  rewrite Hf.
  assert (Hpz : 0 < 2 ^ (ez + 200)) by (apply Z.pow_pos_nonneg; lia).
  destruct (d + ez - 24 - ez) as [|k|k] eqn:Hk.
  - rewrite binary_round_aux_normal by (try lia; apply Pos2Z.inj; fold d; lia).
    exists M, ez. split; [reflexivity|]. split; [apply Pos2Z.inj; fold d; lia|].
    split; [lia|]. split; nia.
  - destruct (binary_round_aux_rel M ez loc_Exact) as (m' & e' & -> & Hd & He & Hup & Hlow);
      [fold d; lia | fold d; lia |].
    exists m', e'. split; [reflexivity|]. split; [exact Hd|]. split; [lia|].
    assert (E : Zpos m' * 2 ^ (e' + 200) = Zpos m' * 2 ^ (e' - ez) * 2 ^ (ez + 200)).
    { rewrite <- Z.mul_assoc. f_equal. rewrite <- Z.pow_add_r by lia. f_equal. lia. }
    rewrite E. split; nia.
  - assert (Hdk : digits2_pos (Pos.iter xO M k) = 24%positive).
    { rewrite digits2_pos_iter_xO. apply Pos2Z.inj. rewrite Pos2Z.inj_add. fold d. lia. }
    rewrite binary_round_aux_normal by (try assumption; lia).
    exists (Pos.iter xO M k), (d + ez - 24). split; [reflexivity|]. split; [exact Hdk|].
    split; [lia|].
    assert (E : Zpos (Pos.iter xO M k) * 2 ^ (d + ez - 24 + 200) = Zpos M * 2 ^ (ez + 200)).
    { rewrite Zpos_iter_xO, <- Z.mul_assoc. f_equal.
      rewrite <- Z.pow_add_r by lia. f_equal. lia. }
    rewrite E. split; nia.
Qed.

Lemma add_rel (lo : Z) (x y : F32.float) :
  positive_normal lo x -> positive_normal lo y -> -124 <= lo ->
  scaled_value x <= 2 ^ 220 -> scaled_value y <= 2 ^ 220 ->
  positive_normal lo (F32.add x y) /\
  (scaled_value x + scaled_value y) * (2 ^ 23 - 1) <= 2 ^ 23 * scaled_value (F32.add x y) /\
  2 ^ 23 * scaled_value (F32.add x y) <= (scaled_value x + scaled_value y) * (2 ^ 23 + 1).
Proof.
  intros Hx Hy Hlo Hvx Hvy.
  destruct x as [[]|[]| |[] mx ex]; cbn in Hx; try tauto;
    destruct y as [[]|[]| |[] my ey]; cbn in Hy; try tauto.
  - cbn. split; [exact I | lia].
  - unfold F32.add. cbn [SFadd positive_normal scaled_value].
    split; [split; [tauto | lia]|]. lia.
  - unfold F32.add. cbn [SFadd positive_normal scaled_value].
    split; [split; [tauto | lia]|]. lia.
  - destruct Hx as [Hdx Hex], Hy as [Hdy Hey]. cbn [scaled_value] in *.
    pose proof (exponent_bound mx ex 220 Hdx ltac:(lia) Hvx) as Hex'.
    pose proof (exponent_bound my ey 220 Hdy ltac:(lia) Hvy) as Hey'.
    unfold F32.add, SFadd. cbn [cond_Zopp].
    pose proof (shl_align_scaled mx ex (Z.min ex ey) ltac:(lia)) as Hsx.
    pose proof (shl_align_scaled my ey (Z.min ex ey) ltac:(lia)) as Hsy.
    set (ax := fst (shl_align mx ex (Z.min ex ey))) in *.
    set (ay := fst (shl_align my ey (Z.min ex ey))) in *.
    change (Zpos ax + Zpos ay) with (Zpos (ax + ay)).
    assert (Hsum : Zpos (ax + ay) * 2 ^ (Z.min ex ey + 200)
                   = Zpos mx * 2 ^ (ex + 200) + Zpos my * 2 ^ (ey + 200)).
    { rewrite Pos2Z.inj_add, Z.mul_add_distr_r, Hsx, Hsy. reflexivity. }
    assert (Hdig : Zpos (digits2_pos (ax + ay)) + Z.min ex ey <= 100).
    { assert (Hlt : Zpos (ax + ay) < 2 ^ (22 - Z.min ex ey)).
      { assert (Hp : 0 < 2 ^ (Z.min ex ey + 200)) by (apply Z.pow_pos_nonneg; lia).
        assert (Hb : Zpos (ax + ay) * 2 ^ (Z.min ex ey + 200) < 2 ^ 222).
        { rewrite Hsum. change (2 ^ 222) with (2 ^ 220 * 4). lia. }
        assert (E : 2 ^ 222 = 2 ^ (22 - Z.min ex ey) * 2 ^ (Z.min ex ey + 200)).
        { rewrite <- Z.pow_add_r by lia. f_equal. lia. }
        rewrite E in Hb. nia. }
      pose proof (digits2_pos_le (ax + ay) (22 - Z.min ex ey) Hlt ltac:(lia)). lia. }
    assert (Hdig' : 24 <= Zpos (digits2_pos (ax + ay))).
    { apply digits2_pos_ge; [|lia]. change (24 - 1) with 23.
      pose proof (normal_mantissa mx Hdx) as Hmx.
      assert (Hp : 0 < 2 ^ (Z.min ex ey + 200)) by (apply Z.pow_pos_nonneg; lia).
      assert (Hmono : 2 ^ (Z.min ex ey + 200) <= 2 ^ (ex + 200))
        by (apply Z.pow_le_mono_r; lia).
      rewrite Pos2Z.inj_add. nia. }
    destruct (normalize_rel (ax + ay) (Z.min ex ey)) as (m' & e' & -> & Hd & He & Hlow & Hup);
      [lia | exact Hdig |].
    cbn [positive_normal scaled_value]. rewrite Hsum in Hlow, Hup.
    split; [split; [exact Hd | lia]|]. split; assumption.
Qed.

(** ** Differences of positive normal numbers *)

Lemma positive_normal_of_value (lo b : Z) (f : F32.float) :
  positive_normal lo f -> -200 <= lo -> 2 ^ b <= scaled_value f -> 0 <= b ->
  positive_normal (b - 223) f.
Proof.
  intros Hf Hlo Hv Hb.
  destruct f as [[]|[]| |[] m e]; cbn [positive_normal scaled_value] in *; try tauto.
  destruct Hf as [Hd He]. split; [exact Hd|].
  pose proof (normal_mantissa m Hd) as Hm.
  destruct (Z_le_gt_dec (b - 223) e) as [|Hgt]; [assumption | exfalso].
  assert (H1 : 2 ^ 24 * 2 ^ (e + 200) <= 2 ^ b).
  { rewrite <- Z.pow_add_r by lia. apply Z.pow_le_mono_r; lia. }
  assert (0 < 2 ^ (e + 200)) by (apply Z.pow_pos_nonneg; lia). nia.
Qed.

Lemma scaled_value_pos (lo : Z) (m : positive) (e : Z) :
  -200 <= e -> 0 < scaled_value (S754_finite false m e).
Proof. intros He. cbn. assert (0 < 2 ^ (e + 200)) by (apply Z.pow_pos_nonneg; lia). lia. Qed.

(** A number of at most 24 bits is normalized exactly. *)
Lemma normalize_small (M : positive) (ez : Z) :
  -124 <= ez -> Zpos (digits2_pos M) <= 24 -> ez <= 100 ->
  exists m' e',
    binary_normalize F32.prec F32.emax (Zpos M) ez false = S754_finite false m' e' /\
    digits2_pos m' = 24%positive /\ ez - 23 <= e' /\
    Zpos m' * 2 ^ (e' + 200) = Zpos M * 2 ^ (ez + 200).
Proof.
  intros Hez Hd24 Hez'.
  unfold binary_normalize, binary_round, shl_align.
  set (d := Zpos (digits2_pos M)) in *.
  assert (Hd0 : 0 < d) by (unfold d; lia).
  assert (Hf : fexp F32.prec F32.emax (d + ez) = d + ez - 24).
  { unfold fexp, emin, F32.prec, F32.emax. lia. }
  rewrite Hf.
  destruct (d + ez - 24 - ez) as [|k|k] eqn:Hk; [|lia|].
  - rewrite binary_round_aux_normal by (try lia; apply Pos2Z.inj; fold d; lia).
    exists M, ez. split; [reflexivity|]. split; [apply Pos2Z.inj; fold d; lia|].
    split; [lia | reflexivity].
  - assert (Hdk : digits2_pos (Pos.iter xO M k) = 24%positive).
    { rewrite digits2_pos_iter_xO. apply Pos2Z.inj. rewrite Pos2Z.inj_add. fold d. lia. }
    rewrite binary_round_aux_normal by (try assumption; lia).
    exists (Pos.iter xO M k), (d + ez - 24). split; [reflexivity|]. split; [exact Hdk|].
    split; [lia|].
    rewrite Zpos_iter_xO, <- Z.mul_assoc. f_equal.
    rewrite <- Z.pow_add_r by lia. f_equal. lia.
Qed.

(** [x - y] for [y <= x]: zero, or the difference rounded once; not
    rounded at all when the difference has at most 24 bits. *)
Lemma sub_rel (lo : Z) (x y : F32.float) :
  positive_normal lo x -> positive_normal lo y -> -124 <= lo ->
  scaled_value x <= 2 ^ 230 -> scaled_value y <= scaled_value x ->
  positive_normal (lo - 23) (F32.sub x y) /\
  (scaled_value x - scaled_value y) * (2 ^ 23 - 1) <= 2 ^ 23 * scaled_value (F32.sub x y) /\
  2 ^ 23 * scaled_value (F32.sub x y) <= (scaled_value x - scaled_value y) * (2 ^ 23 + 1) /\
  (scaled_value x - scaled_value y < 2 ^ (lo + 224) ->
   scaled_value (F32.sub x y) = scaled_value x - scaled_value y).
Proof.
  intros Hx Hy Hlo Hvx Hvy.
  destruct x as [[]|[]| |[] mx ex]; cbn in Hx; try tauto;
    destruct y as [[]|[]| |[] my ey]; cbn in Hy; try tauto.
  - exfalso. destruct Hy as [_ Hey].
    pose proof (scaled_value_pos lo my ey ltac:(lia)). cbn [scaled_value] in *. lia.
  - unfold F32.sub. cbn [SFsub positive_normal scaled_value].
    split; [split; [tauto | lia]|]. lia.
  - destruct Hx as [Hdx Hex], Hy as [Hdy Hey]. cbn [scaled_value] in *.
    pose proof (exponent_bound mx ex 230 Hdx ltac:(lia) Hvx) as Hex'.
    assert (Hvy' : Zpos my * 2 ^ (ey + 200) <= 2 ^ 230) by lia.
    pose proof (exponent_bound my ey 230 Hdy ltac:(lia) Hvy') as Hey'.
    unfold F32.sub, SFsub. cbn [cond_Zopp].
    pose proof (shl_align_scaled mx ex (Z.min ex ey) ltac:(lia)) as Hsx.
    pose proof (shl_align_scaled my ey (Z.min ex ey) ltac:(lia)) as Hsy.
    set (ax := fst (shl_align mx ex (Z.min ex ey))) in *.
    set (ay := fst (shl_align my ey (Z.min ex ey))) in *.
    set (ez := Z.min ex ey) in *.
    assert (Hp : 0 < 2 ^ (ez + 200)) by (apply Z.pow_pos_nonneg; unfold ez; lia).
    assert (Hdiff : (Zpos ax - Zpos ay) * 2 ^ (ez + 200)
                    = Zpos mx * 2 ^ (ex + 200) - Zpos my * 2 ^ (ey + 200)).
    { rewrite Z.mul_sub_distr_r, Hsx, Hsy. reflexivity. }
    destruct (Zpos ax - Zpos ay) as [|M|M] eqn:HM.
    + cbn [binary_normalize positive_normal scaled_value]. split; [exact I | lia].
    + assert (Hdig : Zpos (digits2_pos M) + ez <= 100).
      { assert (Hlt : Zpos M < 2 ^ (31 - ez)).
        { assert (Hb : Zpos M * 2 ^ (ez + 200) < 2 ^ 231).
          { rewrite Hdiff. change (2 ^ 231) with (2 ^ 230 * 2). lia. }
          assert (E : 2 ^ 231 = 2 ^ (31 - ez) * 2 ^ (ez + 200)).
          { rewrite <- Z.pow_add_r by (unfold ez; lia). f_equal. lia. }
          rewrite E in Hb. nia. }
        pose proof (digits2_pos_le M (31 - ez) Hlt ltac:(unfold ez; lia)). lia. }
      destruct (normalize_rel M ez) as (m' & e' & Hres & Hd & He & Hlow & Hup);
        [unfold ez; lia | exact Hdig |].
      rewrite Hdiff in Hlow, Hup. rewrite Hres. cbn [positive_normal scaled_value].
      split; [split; [exact Hd | unfold ez in *; lia]|].
      split; [exact Hlow|]. split; [exact Hup|].
      intros Hsmall.
      assert (Hd24 : Zpos (digits2_pos M) <= 24).
      { apply digits2_pos_le; [|lia].
        assert (Hb : Zpos M * 2 ^ (ez + 200) < 2 ^ (lo + 224)) by (rewrite Hdiff; exact Hsmall).
        assert (Hmono : 2 ^ (lo + 224) <= 2 ^ 24 * 2 ^ (ez + 200)).
        { rewrite <- Z.pow_add_r by (unfold ez; lia). apply Z.pow_le_mono_r; unfold ez; lia. }
        nia. }
      destruct (normalize_small M ez) as (m'' & e'' & Hres' & _ & _ & Hexact);
        [unfold ez; lia | exact Hd24 | unfold ez; lia |].
      rewrite Hres in Hres'. injection Hres' as <- <-. rewrite Hexact, Hdiff. reflexivity.
    + exfalso. assert (0 <= (Z.neg M) * 2 ^ (ez + 200)) by (rewrite Hdiff; lia). nia.
Qed.

(** [x - (float)(int)x] is the fractional part of [x], exactly. *)
Lemma fractional_offset (x : F32.float) (x1 : Z) :
  positive_normal (-47) x -> F32.trunc x = Some x1 -> x1 < 2 ^ 24 ->
  let dx := F32.sub x (F32.of_Z x1) in
  positive_normal (-47) dx /\
  scaled_value dx = scaled_value x - x1 * 2 ^ 200 /\
  0 <= scaled_value dx < 2 ^ 200.
Proof.
  intros Hx Ht Hx1 dx.
  rewrite (trunc_scaled (-47) x Hx ltac:(lia)) in Ht. injection Ht as Ht.
  assert (Hp : 0 < 2 ^ 200) by (apply Z.pow_pos_nonneg; lia).
  pose proof (scaled_value_nonneg x) as Hv0.
  pose proof (Z.div_mod (scaled_value x) (2 ^ 200) ltac:(lia)) as Hdm.
  pose proof (Z.mod_pos_bound (scaled_value x) (2 ^ 200) Hp) as Hmod.
  rewrite Ht in Hdm.
  assert (H0 : 0 <= x1) by (rewrite <- Ht; apply Z.div_pos; lia).
  destruct (Z.eq_dec x1 0) as [-> | Hnz].
  - unfold dx. change (F32.of_Z 0) with (S754_zero false).
    assert (E : F32.sub x (S754_zero false) = x).
    { destruct x as [[]|[]| |[] m e]; cbn in Hx; try tauto; reflexivity. }
    rewrite E. split; [exact Hx|]. split; lia.
  - destruct (of_Z_scaled x1) as [Hn Hs]; [lia|].
    assert (Hx' : positive_normal (-23) x).
    { apply (positive_normal_of_value (-47) 200); [exact Hx | lia | lia | lia]. }
    destruct (sub_rel (-23) x (F32.of_Z x1) Hx' Hn) as (Hd & _ & _ & Hexact).
    + lia.
    + change (2 ^ 230) with (2 ^ 30 * 2 ^ 200). change (2 ^ 24) with 16777216 in Hx1. nia.
    + lia.
    + fold dx in Hd, Hexact. rewrite Hs in Hexact.
      split; [apply (positive_normal_weaken (-23 - 23)); [lia | exact Hd]|].
      assert (Hsm : scaled_value x - x1 * 2 ^ 200 < 2 ^ (-23 + 224)).
      { change (2 ^ (-23 + 224)) with (2 * 2 ^ 200). lia. }
      specialize (Hexact Hsm). split; lia.
Qed.

(** [1 - d] for a fraction [d], rounded once; it is at least [2^-24]. *)
Lemma one_minus (lo : Z) (d : F32.float) :
  positive_normal lo d -> -124 <= lo -> scaled_value d < 2 ^ 200 ->
  let w := F32.sub (F32.of_Z 1) d in
  positive_normal (-48) w /\
  (2 ^ 200 - scaled_value d) * (2 ^ 23 - 1) <= 2 ^ 23 * scaled_value w /\
  2 ^ 23 * scaled_value w <= (2 ^ 200 - scaled_value d) * (2 ^ 23 + 1).
Proof.
  intros Hd Hlo Hv w.
  destruct (of_Z_scaled 1) as [Hn Hs]; [lia|]. rewrite Z.mul_1_l in Hs.
  assert (Hgap : scaled_value d <= 2 ^ 200 - 2 ^ 176).
  { destruct d as [[]|[]| |[] m e]; cbn [positive_normal scaled_value] in *; try tauto; [lia|].
    destruct Hd as [Hdig He]. pose proof (normal_mantissa m Hdig) as Hm.
    assert (He24 : e <= -24).
    { destruct (Z_le_gt_dec e (-24)) as [|Hgt]; [assumption | exfalso].
      assert (2 ^ 177 <= 2 ^ (e + 200)) by (apply Z.pow_le_mono_r; lia).
      change (2 ^ 200) with (2 ^ 23 * 2 ^ 177) in Hv. nia. }
    assert (Hmono : 2 ^ (e + 200) <= 2 ^ 176) by (apply Z.pow_le_mono_r; lia).
    assert (0 < 2 ^ (e + 200)) by (apply Z.pow_pos_nonneg; lia).
    change (2 ^ 200) with (2 ^ 24 * 2 ^ 176). nia. }
  set (lo' := Z.min lo (-23)).
  destruct (sub_rel lo' (F32.of_Z 1) d
              (positive_normal_weaken (-23) lo' _ ltac:(unfold lo'; lia) Hn)
              (positive_normal_weaken lo lo' _ ltac:(unfold lo'; lia) Hd))
    as (Hw & Hlow & Hup & _).
  - unfold lo'. lia.
  - rewrite Hs. change (2 ^ 230) with (2 ^ 30 * 2 ^ 200). lia.
  - rewrite Hs. lia.
  - fold w in Hw, Hlow, Hup. rewrite Hs in Hlow, Hup.
    split; [|split; assumption].
    apply (positive_normal_of_value (lo' - 23) 175 w Hw); [unfold lo'; lia | | lia].
    change (2 ^ 176) with (2 * 2 ^ 175) in Hgap. change (2 ^ 23) with 8388608 in *.
    assert (0 < 2 ^ 175) by (apply Z.pow_pos_nonneg; lia). lia.
Qed.

(** ** Running the resize stage *)

Lemma write_run p i v m l :
  tensors m !! p = Some l ->
  write p i v m =
    if (0 <=? i) && (i <? Z.of_nat (length l)) then
      Done tt (Machine (heap m) (<[p := <[Z.to_nat i := v]> l]> (tensors m)) (oracle m)
                       (EvWrite p i v :: trace m))
    else Undefined.
Proof. intros Hl. unfold write. rewrite Hl. reflexivity. Qed.

Lemma index2_run a w b m :
  index2 a w b m = match offset a w b with Some i => Done i m | None => Undefined end.
Proof.
  unfold index2, offset, int_mul, int_add, int_ok.
  rewrite bind_run, check_int_run.
  destruct (in_int (a * w)); [|reflexivity]. cbn. rewrite check_int_run.
  destruct (in_int (a * w + b)); reflexivity.
Qed.

Lemma bilinear_value_offsets img W H x y p :
  bilinear_value img W H x y = Some p -> is_Some (sample_offsets W H x y).
Proof.
  unfold bilinear_value, sample_offsets.
  destruct (corners W H x y) as [[[[x1 y1] x2] y2]|]; [|discriminate]. cbn.
  destruct (offset y1 W x1) as [i1|]; [|discriminate]. cbn.
  destruct (cell img i1); [|discriminate]. cbn.
  destruct (offset y1 W x2) as [i2|]; [|discriminate]. cbn.
  destruct (cell img i2); [|discriminate]. cbn.
  destruct (offset y2 W x1) as [i3|]; [|discriminate]. cbn.
  destruct (cell img i3); [|discriminate]. cbn.
  destruct (offset y2 W x2) as [i4|]; [|discriminate]. cbn.
  intros _. eexists; reflexivity.
Qed.

Lemma tensor_prefix_succ gray W H ts xr yr k : 0 <= k ->
  tensor_prefix gray W H ts xr yr (k + 1)
  = tensor_prefix gray W H ts xr yr k ++ [tensor_value gray W H ts xr yr k].
Proof.
  intros Hk. unfold tensor_prefix.
  replace (k + 1) with (Z.of_nat (S (Z.to_nat k))) by lia.
  rewrite seqZ_S, fmap_app, Z2Nat.id by lia. reflexivity.
Qed.

Lemma tensor_prefix_length gray W H ts xr yr k :
  length (tensor_prefix gray W H ts xr yr k) = Z.to_nat k.
Proof. unfold tensor_prefix. rewrite length_fmap, length_seqZ. reflexivity. Qed.

Lemma resize_trace_succ gray_buf out gray W H ts xr yr k : 0 <= k ->
  resize_trace gray_buf out gray W H ts xr yr (k + 1)
  = resize_events gray_buf out gray W H ts xr yr k
    ++ resize_trace gray_buf out gray W H ts xr yr k.
Proof.
  intros Hk. unfold resize_trace.
  replace (k + 1) with (Z.of_nat (S (Z.to_nat k))) by lia.
  rewrite seqZ_S, reverse_app, !Z2Nat.id, reverse_singleton, bind_app by lia.
  cbn [mbind list_bind]. rewrite app_nil_r. reflexivity.
Qed.

Section ResizeRun.

Variables (gray_buf output_buffer : loc) (gray : list byte).
Variables (src_width src_height target_size : Z) (x_ratio y_ratio : F32.float).
Variables (m : machine) (t0 : list Z).
Hypothesis Hgray : heap m !! gray_buf = Some gray.

Local Abbreviation st :=
  (resize_state gray_buf output_buffer gray src_width src_height target_size
     x_ratio y_ratio m t0).
Local Abbreviation ok :=
  (pixel_ok gray src_width src_height target_size x_ratio y_ratio (length t0)).

Lemma resize_body_run y x :
  0 <= y -> 0 <= x < target_size ->
  resize_body gray_buf output_buffer src_width src_height target_size x_ratio y_ratio y x
    (st (y * target_size + x))
  = if ok y x then Done tt (st (y * target_size + x + 1)) else Undefined.
Proof.
  intros Hy Hx. set (k := y * target_size + x).
  assert (Hk : 0 <= k) by (unfold k; nia).
  assert (Hdiv : k / target_size = y).
  { unfold k. rewrite Z.add_comm, Z.div_add by lia. rewrite Z.div_small by lia. lia. }
  assert (Hmod : k mod target_size = x).
  { unfold k. rewrite Z.add_comm, Z.mod_add by lia. apply Z.mod_small. lia. }
  unfold resize_body. rewrite bind_run.
  rewrite (bilinear_interpolate_run _ _ _ _ _ _ gray) by exact Hgray.
  unfold pixel_ok. fold k.
  change (bilinear_value gray src_width src_height (F32.mul (F32.of_Z x) x_ratio)
            (F32.mul (F32.of_Z y) y_ratio))
    with (sample gray src_width src_height x_ratio y_ratio y x).
  destruct (sample gray src_width src_height x_ratio y_ratio y x) as [p|] eqn:Hp.
  2:{ rewrite bool_decide_eq_false_2; [reflexivity|]. intros [? ?]; discriminate. }
  rewrite bool_decide_eq_true_2 by (eexists; reflexivity). cbn [andb].
  destruct (bilinear_value_offsets _ _ _ _ _ _ Hp) as [idx Hidx]. rewrite Hidx.
  rewrite bind_run, index2_run. unfold offset, int_ok.
  destruct (in_int (y * target_size)); [|reflexivity]. cbn [mbind option_bind andb].
  fold k. destruct (in_int k); [|reflexivity]. cbn [andb].
  erewrite write_run by (cbn; apply lookup_insert_eq).
  rewrite length_app, tensor_prefix_length, length_drop.
  destruct (Z.leb_spec 0 k); [|lia]. cbn [andb].
  destruct (Z.ltb_spec k (Z.of_nat (length t0))) as [Hlt|Hge].
  - destruct (Z.ltb_spec k (Z.of_nat (Z.to_nat k + (length t0 - Z.to_nat k)))); [|lia].
    f_equal. unfold resize_state, with_trace. cbn [heap tensors oracle trace].
    f_equal.
    + rewrite insert_insert_eq. f_equal.
      rewrite tensor_prefix_succ by lia.
      rewrite insert_app_r_alt by (rewrite tensor_prefix_length; lia).
      rewrite tensor_prefix_length, Nat.sub_diag, <- app_assoc. f_equal.
      destruct (lookup_lt_is_Some_2 t0 (Z.to_nat k)) as [v Hv]; [lia|].
      rewrite (drop_S _ _ _ Hv). cbn.
      replace (Z.to_nat (k + 1)) with (S (Z.to_nat k)) by lia.
      unfold tensor_value. rewrite Hdiv, Hmod, Hp. reflexivity.
    + rewrite resize_trace_succ by lia. unfold resize_events, sample_reads, tensor_value.
      rewrite Hdiv, Hmod, Hp, Hidx. cbn. rewrite <- app_assoc. reflexivity.
  - destruct (Z.ltb_spec k (Z.of_nat (Z.to_nat k + (length t0 - Z.to_nat k)))); [lia|].
    reflexivity.
Qed.

Lemma seqZ_to_nat (n : Z) : seqZ 0 (Z.of_nat (Z.to_nat n)) = seqZ 0 n.
Proof.
  destruct (Z_le_gt_dec 0 n); [rewrite Z2Nat.id by lia; reflexivity|].
  unfold seqZ. replace (Z.to_nat n) with O by lia. reflexivity.
Qed.

Lemma resize_row_run y :
  0 <= y -> 0 <= target_size ->
  for_loop 0 target_size
    (resize_body gray_buf output_buffer src_width src_height target_size x_ratio y_ratio y)
    (st (y * target_size))
  = if forallb (ok y) (seqZ 0 target_size)
    then Done tt (st ((y + 1) * target_size))
    else Undefined.
Proof.
  intros Hy Hts. unfold for_loop. rewrite Z.sub_0_r.
  pose proof (iterate_run (fun x => st (y * target_size + x)) (ok y)
    (resize_body gray_buf output_buffer src_width src_height target_size x_ratio y_ratio y)
    (Z.to_nat target_size) 0) as Hrun.
  cbv beta in Hrun. rewrite Z.add_0_r in Hrun. rewrite Hrun.
  - rewrite seqZ_to_nat.
    replace (y * target_size + (0 + Z.of_nat (Z.to_nat target_size)))
      with ((y + 1) * target_size) by lia.
    reflexivity.
  - intros x Hx. rewrite Z.add_assoc. apply resize_body_run; lia.
Qed.

Hypothesis Htensor : tensors m !! output_buffer = Some t0.

Lemma resize_state_0 : st 0 = m.
Proof.
  unfold resize_state. cbn. rewrite insert_id by exact Htensor. apply machine_eta.
Qed.

Lemma resize_loops_run :
  for_loop 0 target_size (fun y =>
    for_loop 0 target_size
      (resize_body gray_buf output_buffer src_width src_height target_size
                   x_ratio y_ratio y)) m
  = if forallb (fun y => forallb (ok y) (seqZ 0 target_size)) (seqZ 0 target_size)
    then Done tt (st (Z.max 0 target_size * target_size))
    else Undefined.
Proof.
  unfold for_loop at 1. rewrite Z.sub_0_r.
  pose proof (iterate_run (fun y => st (y * target_size))
    (fun y => forallb (ok y) (seqZ 0 target_size))
    (fun y => for_loop 0 target_size
       (resize_body gray_buf output_buffer src_width src_height target_size
                    x_ratio y_ratio y))
    (Z.to_nat target_size) 0) as Hrun.
  cbv beta in Hrun. rewrite Z.mul_0_l, resize_state_0 in Hrun. rewrite Hrun.
  - rewrite seqZ_to_nat.
    replace (0 + Z.of_nat (Z.to_nat target_size)) with (Z.max 0 target_size) by lia.
    reflexivity.
  - intros y Hy. rewrite resize_row_run by lia.
    replace (y + 1) with (y + 1) by lia. reflexivity.
Qed.

End ResizeRun.

(** ** Running [preprocessImageForML] *)

Section PipelineFacts.

Context {pixformat_t : Type}.
Variable fmt2rgb888 : list byte -> Z -> pixformat_t -> option (list byte).
Variables (fb : camera_fb_t pixformat_t) (output_buffer : loc) (target_size : Z).
Variable m : machine.

Lemma rgb_block_fresh : heap m !! rgb_block m = None.
Proof. apply not_elem_of_dom. unfold rgb_block. apply is_fresh. Qed.

Lemma gray_block_fresh : heap m !! gray_block m = None.
Proof.
  apply not_elem_of_dom. unfold gray_block.
  pose proof (is_fresh ({[rgb_block m]} ∪ dom (heap m))). set_solver.
Qed.

Lemma gray_block_ne : rgb_block m <> gray_block m.
Proof.
  unfold gray_block.
  pose proof (is_fresh ({[rgb_block m]} ∪ dom (heap m))). set_solver.
Qed.

Lemma live_ne_rgb_block p l : heap m !! p = Some l -> rgb_block m <> p.
Proof. intros Hl E. rewrite <- E, rgb_block_fresh in Hl. discriminate. Qed.

Lemma live_ne_gray_block p l : heap m !! p = Some l -> gray_block m <> p.
Proof. intros Hl E. rewrite <- E, gray_block_fresh in Hl. discriminate. Qed.

Lemma free_run p m0 l :
  heap m0 !! p = Some l ->
  free p m0 = Done tt (Machine (delete p (heap m0)) (tensors m0) (oracle m0)
                               (EvFree p :: trace m0)).
Proof. intros Hl. unfold free. rewrite Hl. reflexivity. Qed.

Lemma heap_restored (rgb_buf gray_buf : list byte) :
  delete (gray_block m) (delete (rgb_block m)
    (<[gray_block m := gray_buf]> (<[rgb_block m := rgb_buf]> (heap m)))) = heap m.
Proof.
  rewrite delete_insert_ne by apply gray_block_ne.
  rewrite !delete_insert_eq.
  rewrite (delete_id (heap m) (rgb_block m)) by apply rgb_block_fresh.
  apply delete_id, gray_block_fresh.
Qed.

Lemma emit_run ev m0 : emit ev m0 = Done tt (with_trace m0 [ev]).
Proof. reflexivity. Qed.

Ltac run_simpl :=
  repeat first
    [ rewrite bind_run
    | rewrite emit_run
    | rewrite check_int_run
    | progress cbv beta iota
    | progress cbn [oracle with_trace heap tensors trace app negb andb orb is_null] ].

Local Abbreviation run := (preprocessImageForML pixformat_t fmt2rgb888 (Some fb) (Some output_buffer)
                   target_size m).

(** The allocator refuses the RGB buffer. *)
Lemma preprocess_rgb_refused :
  head (oracle m) = None \/ head (oracle m) = Some None ->
  run = Done false
          (Machine (heap m) (tensors m) (tail (oracle m))
             ([EvPrint "Failed to allocate RGB888 buffer" [];
               EvMalloc (rgb888_size fb) None;
               EvPrint "Converting JPEG to RGB..." []] ++ trace m)).
Proof.
  intros Hor. unfold preprocessImageForML, println. run_simpl.
  unfold malloc. cbn [oracle with_trace heap tensors trace app].
  destruct (oracle m) as [|[g|] o]; cbn in Hor.
  - run_simpl. reflexivity.
  - destruct Hor; discriminate.
  - run_simpl. reflexivity.
Qed.

(** Every run in which the allocator grants the RGB buffer and the
    frame's buffer is live. *)
Lemma preprocess_cases g1 o1 src t0 :
  oracle m = Some g1 :: o1 ->
  frame_bytes fb m = Some src ->
  tensors m !! output_buffer = Some t0 ->
  run =
    match fmt2rgb888 src (len fb) (format fb) with
    | None => Done false (decode_failed_state fb m g1 o1)
    | Some rgb =>
        if (length rgb <=? Z.to_nat (rgb888_size fb))%nat && in_int (pixel_count fb) then
          match o1 with
          | Some g2 :: rest =>
              let rgb_buf := rgb_filled fb g1 rgb in
              let gray_buf := gray_filled fb rgb_buf g2 in
              if stages_ok fb target_size rgb_buf (gray_fresh fb g2) gray_buf t0
              then Done true
                     (success_state fb output_buffer target_size m rgb_buf gray_buf t0 rest)
              else Undefined
          | _ => Done false (gray_refused_state fb target_size m o1)
          end
        else Undefined
    end.
Proof.
  intros Hor Hfb Ht.
  unfold frame_bytes in Hfb.
  destruct (buf fb) as [sp|] eqn:Hbuf; [|discriminate].
  cbn in Hfb. rename Hfb into Hsrc.
  unfold preprocessImageForML, println, printf.
  rewrite bind_run, emit_run. cbv beta iota.
  rewrite bind_run. unfold malloc at 1.
  cbn [oracle with_trace heap tensors trace app]. rewrite Hor.
  fold (rgb_block m). fold (rgb888_size fb).
  rewrite bind_run. unfold call_fmt2rgb888.
  cbn [oracle with_trace heap tensors trace app]. rewrite Hbuf.
  cbn [mbind option_bind].
  rewrite (lookup_insert_ne _ (rgb_block m) sp) by (eapply live_ne_rgb_block; exact Hsrc).
  rewrite Hsrc, lookup_insert_eq.
  destruct (fmt2rgb888 src (len fb) (format fb)) as [rgb|] eqn:Hconv.
  2:{ run_simpl. reflexivity. }
  rewrite length_resize, insert_insert_eq.
  set (rgb_buf := rgb_filled fb g1 rgb).
  destruct (length rgb <=? Z.to_nat (rgb888_size fb))%nat; [|reflexivity].
  cbn [negb andb orb is_null]. cbv beta iota.
  rewrite bind_run, emit_run. cbv beta iota.
  rewrite bind_run, emit_run. cbv beta iota.
  rewrite bind_run. unfold int_mul. rewrite check_int_run.
  fold (frame_width fb) (frame_height fb) (pixel_count fb).
  destruct (in_int (pixel_count fb)) eqn:Hn; [|reflexivity].
  rewrite bind_run. unfold malloc at 1.
  cbn [oracle with_trace heap tensors trace app].
  rewrite dom_insert_L. fold (gray_block m).
  destruct o1 as [|[g2|] rest].
  { cbv beta iota. rewrite bind_run.
    erewrite free_run by (cbn; apply lookup_insert_eq).
    run_simpl. unfold mret, M_ret, gray_refused_state. cbn [tail].
    rewrite delete_insert_eq, delete_id by apply rgb_block_fresh. reflexivity. }
  2:{ cbv beta iota. rewrite bind_run.
    erewrite free_run by (cbn; apply lookup_insert_eq).
    run_simpl. unfold mret, M_ret, gray_refused_state. cbn [tail].
    rewrite delete_insert_eq, delete_id by apply rgb_block_fresh. reflexivity. }
  fold (gray_fresh fb g2).
  set (gray_buf := gray_filled fb rgb_buf g2).
  cbv zeta.
  rewrite bind_run, emit_run. cbv beta iota.
  rewrite bind_run.
  erewrite (gray_loop_run _ (rgb_block m) (gray_block m) rgb_buf (gray_fresh fb g2)).
  2: apply gray_block_ne.
  2:{ cbn. rewrite lookup_insert_ne by (apply not_eq_sym, gray_block_ne).
      apply lookup_insert_eq. }
  2:{ cbn. apply lookup_insert_eq. }
  unfold stages_ok.
  destruct (forallb (gray_ok (length rgb_buf) (length (gray_fresh fb g2)))
              (seqZ 0 (pixel_count fb))); [|reflexivity].
  cbn [andb]. cbv beta iota.
  rewrite bind_run.
  erewrite free_run.
  2:{ cbn. rewrite lookup_insert_ne by (apply not_eq_sym, gray_block_ne).
      rewrite lookup_insert_ne by (apply not_eq_sym, gray_block_ne).
      apply lookup_insert_eq. }
  cbv beta iota. rewrite bind_run, emit_run. cbv beta iota. rewrite bind_run.
  erewrite (resize_loops_run (gray_block m) output_buffer gray_buf _ _ _ _ _ _ t0).
  2:{ cbn. rewrite lookup_delete_ne by apply gray_block_ne.
      rewrite insert_insert_eq. rewrite lookup_insert_eq. reflexivity. }
  2:{ cbn. exact Ht. }
  fold (x_scale fb target_size) (y_scale fb target_size).
  match goal with
  | |- context [if ?c then Done tt _ else Undefined] => destruct c
  end; [|reflexivity].
  cbv beta iota. rewrite bind_run.
  erewrite free_run.
  2:{ cbn. rewrite lookup_delete_ne by apply gray_block_ne.
      rewrite insert_insert_eq. apply lookup_insert_eq. }
  cbv beta iota. rewrite bind_run, emit_run. cbv beta iota.
  unfold mret, M_ret. f_equal.
  unfold success_state, success_trace, tensor_filled, written, resize_state, gray_state,
    with_trace.
  cbn [heap tensors oracle trace]. f_equal.
  - rewrite insert_insert_eq. apply heap_restored.
  - repeat first [rewrite <- app_assoc | progress cbn [app]]. reflexivity.
Qed.

End PipelineFacts.

(** ** Sampling at integer coordinates *)

Lemma u8_val_range (p : byte) : 0 <= u8_val p < 256.
Proof. unfold u8_val. pose proof (Byte.to_N_bounded p). lia. Qed.

Lemma u8_of_Z_val (p : byte) : u8_of_Z (u8_val p) = p.
Proof.
  unfold u8_of_Z, u8_val. rewrite Z.mod_small by (pose proof (Byte.to_N_bounded p); lia).
  rewrite N2Z.id, Byte.of_to_N. reflexivity.
Qed.

(** The conversion to [uint8_t] of a number with integer part in 0..255. *)
Lemma to_u8_of_trunc (f : F32.float) (z : Z) :
  F32.trunc f = Some z -> 0 <= z <= 255 -> F32.to_u8 f = Some (u8_of_Z z).
Proof.
  intros Hf Hz. unfold F32.to_u8. rewrite Hf.
  replace ((0 <=? z) && (z <=? 255)) with true; [reflexivity|].
  symmetry. apply andb_true_iff. split; apply Z.leb_le; lia.
Qed.

Lemma to_u8_Some (f : F32.float) (p : byte) :
  F32.to_u8 f = Some p -> F32.trunc f = Some (u8_val p).
Proof.
  unfold F32.to_u8. destruct (F32.trunc f) as [z|]; [|discriminate].
  destruct (Z.leb_spec 0 z); [|discriminate]. destruct (Z.leb_spec z 255); [|discriminate].
  cbn [andb]. intros [= <-]. f_equal.
  unfold u8_of_Z, u8_val. rewrite Z.mod_small by lia.
  destruct (Byte.of_N (Z.to_N z)) as [w|] eqn:Hw.
  - apply Byte.to_of_N in Hw. lia.
  - apply Byte.of_N_None_iff in Hw. lia.
Qed.

Lemma to_u8_of_Z (p : byte) : F32.to_u8 (F32.of_Z (u8_val p)) = Some p.
Proof.
  pose proof (u8_val_range p).
  rewrite (to_u8_of_trunc _ (u8_val p)) by (try apply trunc_of_Z_small; lia).
  f_equal. apply u8_of_Z_val.
Qed.

Lemma mul_zero_r (f : F32.float) :
  finite_or_zero f -> F32.nonneg f = true -> F32.mul f F32.zero = F32.zero.
Proof. destruct f as [[]|[]| |[] m e]; cbn; intros; try tauto; try discriminate; reflexivity. Qed.

Lemma mul_one_of_Z (z : Z) : 0 <= z < 2 ^ 24 -> F32.mul (F32.of_Z z) F32.one = F32.of_Z z.
Proof.
  intros Hz. destruct (Z.eq_dec z 0) as [->|Hnz]; [reflexivity|].
  apply mul_one_normal, of_Z_normal24. lia.
Qed.

Lemma add_zero_r (f : F32.float) :
  finite_or_zero f -> F32.nonneg f = true -> F32.add f F32.zero = f.
Proof. destruct f as [[]|[]| |[] m e]; cbn; intros; try tauto; try discriminate; reflexivity. Qed.

Lemma blend_on_grid (p1 p2 p3 p4 : byte) :
  F32.to_u8 (blend p1 p2 p3 p4 F32.zero F32.zero) = Some p1.
Proof.
  unfold blend. change (F32.sub (F32.of_Z 1) F32.zero) with F32.one.
  assert (Hb : forall p, 0 <= u8_val p < 2 ^ 24) by (intros p; pose proof (u8_val_range p); lia).
  assert (Hf : forall p, finite_or_zero (F32.of_Z (u8_val p))
                         /\ F32.nonneg (F32.of_Z (u8_val p)) = true)
    by (intros p; apply of_Z_nonneg_finite, Hb).
  rewrite !mul_one_of_Z by apply Hb.
  rewrite !(mul_zero_r (F32.of_Z _)) by apply Hf.
  change (F32.mul F32.zero F32.one) with F32.zero.
  change (F32.mul F32.zero F32.zero) with F32.zero.
  rewrite !(add_zero_r (F32.of_Z _)) by apply Hf.
  apply to_u8_of_Z.
Qed.

Lemma to_int_of_Z_small (z : Z) : 0 <= z < 2 ^ 24 -> F32.to_int (F32.of_Z z) = Some z.
Proof.
  intros Hz. unfold F32.to_int. rewrite trunc_of_Z_small by exact Hz.
  assert (H : in_int z = true) by (apply in_int_true; unfold INT_MIN, INT_MAX; lia).
  rewrite H. reflexivity.
Qed.

Lemma sub_diag_of_Z (z : Z) : 0 <= z < 2 ^ 24 -> F32.sub (F32.of_Z z) (F32.of_Z z) = F32.zero.
Proof. intros Hz. apply sub_diag, of_Z_nonneg_finite, Hz. Qed.

Lemma corners_on_grid W H a b :
  0 <= a < 2 ^ 24 -> 0 <= b < 2 ^ 24 ->
  corners W H (F32.of_Z a) (F32.of_Z b)
  = x2 ← clamp a W; y2 ← clamp b H; Some (a, b, x2, y2).
Proof.
  intros Ha Hb. unfold corners, clamp. rewrite !to_int_of_Z_small by assumption. cbn.
  assert (Ha1 : int_ok (a + 1) = Some (a + 1)).
  { unfold int_ok. replace (in_int (a + 1)) with true; [reflexivity|].
    symmetry. apply in_int_true. unfold INT_MIN, INT_MAX. lia. }
  assert (Hb1 : int_ok (b + 1) = Some (b + 1)).
  { unfold int_ok. replace (in_int (b + 1)) with true; [reflexivity|].
    symmetry. apply in_int_true. unfold INT_MIN, INT_MAX. lia. }
  rewrite Ha1, Hb1. reflexivity.
Qed.

(** On an integer position the interpolation returns the pixel there. *)
Lemma bilinear_value_on_grid img W H a b p :
  0 <= a < 2 ^ 24 -> 0 <= b < 2 ^ 24 ->
  bilinear_value img W H (F32.of_Z a) (F32.of_Z b) = Some p ->
  offset b W a = Some (b * W + a) /\ cell img (b * W + a) = Some p.
Proof.
  intros Ha Hb. unfold bilinear_value. rewrite corners_on_grid by assumption.
  destruct (clamp a W) as [x2|]; [|discriminate]. cbn.
  destruct (clamp b H) as [y2|]; [|discriminate]. cbn.
  destruct (offset b W a) as [i1|] eqn:Hi1; [|discriminate]. cbn.
  assert (i1 = b * W + a) as ->.
  { unfold offset, int_ok in Hi1. destruct (in_int (b * W)); [|discriminate]. cbn in Hi1.
    destruct (in_int (b * W + a)); congruence. }
  destruct (cell img (b * W + a)) as [p1|]; [|discriminate]. cbn.
  destruct (offset b W x2) as [i2|]; [|discriminate]. cbn.
  destruct (cell img i2) as [p2|]; [|discriminate]. cbn.
  destruct (offset y2 W a) as [i3|]; [|discriminate]. cbn.
  destruct (cell img i3) as [p3|]; [|discriminate]. cbn.
  destruct (offset y2 W x2) as [i4|]; [|discriminate]. cbn.
  destruct (cell img i4) as [p4|]; [|discriminate]. cbn.
  rewrite !sub_diag_of_Z by assumption. rewrite blend_on_grid.
  intros [= ->]. split; reflexivity.
Qed.

(** ** What a run that returns [true] has done *)

Lemma forallb_seqZ (f : Z -> bool) (n : Z) :
  forallb f (seqZ 0 n) = true <-> forall j, 0 <= j < n -> f j = true.
Proof.
  rewrite forallb_forall. split.
  - intros H j Hj. apply H. apply list_elem_of_In, elem_of_seqZ. lia.
  - intros H j Hj. apply list_elem_of_In, elem_of_seqZ in Hj. apply H. lia.
Qed.

Section SuccessFacts.

Context {pixformat_t : Type}.
Variable fmt2rgb888 : list byte -> Z -> pixformat_t -> option (list byte).
Variables (fb : camera_fb_t pixformat_t) (output_buffer : loc) (target_size : Z).
Variables (m m' : machine) (src : list byte) (t0 : list Z).

Hypothesis Hsrc : frame_bytes fb m = Some src.
Hypothesis Htensor : tensors m !! output_buffer = Some t0.
Hypothesis Hrun :
  preprocessImageForML pixformat_t fmt2rgb888 (Some fb) (Some output_buffer) target_size m
  = Done true m'.

Lemma success_inv :
  exists g1 g2 rest rgb,
    oracle m = Some g1 :: Some g2 :: rest /\
    fmt2rgb888 src (len fb) (format fb) = Some rgb /\
    (length rgb <= Z.to_nat (rgb888_size fb))%nat /\
    in_int (pixel_count fb) = true /\
    decoded_rgb fmt2rgb888 fb m = rgb_filled fb g1 rgb /\
    let rgb_buf := decoded_rgb fmt2rgb888 fb m in
    let gray_buf := gray_filled fb rgb_buf g2 in
    stages_ok fb target_size rgb_buf (gray_fresh fb g2) gray_buf t0 = true /\
    m' = success_state fb output_buffer target_size m rgb_buf gray_buf t0 rest.
Proof.
  destruct (oracle m) as [|[g1|] o1] eqn:Hor.
  - rewrite (preprocess_rgb_refused fmt2rgb888) in Hrun by (rewrite Hor; auto).
    discriminate.
  - rewrite (preprocess_cases fmt2rgb888 fb output_buffer target_size m g1 o1 src t0)
      in Hrun by assumption.
    destruct (fmt2rgb888 src (len fb) (format fb)) as [rgb|] eqn:Hconv; [|discriminate].
    destruct (length rgb <=? Z.to_nat (rgb888_size fb))%nat eqn:Hlen; [|discriminate].
    destruct (in_int (pixel_count fb)) eqn:Hn; [|discriminate].
    cbn [andb] in Hrun.
    destruct o1 as [|[g2|] rest]; try discriminate.
    cbv zeta in Hrun.
    assert (Hdec : decoded_rgb fmt2rgb888 fb m = rgb_filled fb g1 rgb).
    { unfold decoded_rgb, converted. rewrite Hor, Hsrc. cbn. rewrite Hconv. reflexivity. }
    exists g1, g2, rest, rgb. rewrite Hdec. cbv zeta.
    destruct (stages_ok _ _ _ _ _ _) eqn:Hok; [|discriminate].
    repeat split; try reflexivity; try congruence.
    apply Nat.leb_le. exact Hlen.
  - rewrite (preprocess_rgb_refused fmt2rgb888) in Hrun by (rewrite Hor; auto).
    discriminate.
Qed.

End SuccessFacts.

(** ** Signs *)

Lemma binary_round_aux_not_negative m e l :
  not_negative (binary_round_aux F32.prec F32.emax false m e l).
Proof.
  unfold binary_round_aux.
  destruct (shr_fexp _ _ _ _ _) as [mrs1 e1].
  destruct (shr_fexp _ _ _ _ _) as [mrs2 e2].
  destruct (shr_m mrs2); [right; reflexivity | | left; reflexivity].
  destruct (e2 <=? _); right; reflexivity.
Qed.

Lemma of_Z_not_negative z : 0 <= z -> not_negative (F32.of_Z z).
Proof.
  intros Hz. destruct z as [|p|p]; [right; reflexivity | | lia].
  unfold F32.of_Z, binary_normalize, binary_round.
  destruct (shl_align _ _ _) as [mz ez]. apply binary_round_aux_not_negative.
Qed.

Lemma mul_not_negative a b :
  not_negative a -> not_negative b -> not_negative (F32.mul a b).
Proof.
  intros [->|Ha] [->|Hb]; try (left; destruct a as [| | |]; reflexivity);
    try (left; reflexivity).
  destruct a as [[]|[]| |[] ma ea], b as [[]|[]| |[] mb eb]; try discriminate;
    try (right; reflexivity); try (left; reflexivity).
  apply binary_round_aux_not_negative.
Qed.

Lemma div_not_negative a b :
  not_negative a -> not_negative b -> not_negative (F32.div a b).
Proof.
  intros [->|Ha] [->|Hb]; try (left; destruct a as [| | |]; reflexivity);
    try (left; reflexivity).
  destruct a as [[]|[]| |[] ma ea], b as [[]|[]| |[] mb eb]; try discriminate;
    try (right; reflexivity); try (left; reflexivity).
  unfold F32.div, SFdiv. cbn [xorb].
  destruct (SFdiv_core_binary _ _ _ _ _ _) as [[mz ez] lz].
  apply binary_round_aux_not_negative.
Qed.

Lemma floor_not_negative f : not_negative f -> F32.floor f = F32.trunc f.
Proof.
  intros [->|Hf]; [reflexivity|].
  destruct f as [s|s| |[] mf ef]; try reflexivity. discriminate.
Qed.

(** ** The code's interpolation is the specification's *)

Lemma int_ok_Some z v : int_ok z = Some v -> v = z.
Proof. unfold int_ok. destruct (in_int z); congruence. Qed.

Lemma offset_Some a w b i : offset a w b = Some i -> i = a * w + b.
Proof.
  unfold offset. destruct (int_ok (a * w)) as [t|] eqn:Ht; [|discriminate]. cbn.
  apply int_ok_Some in Ht. subst t. apply int_ok_Some.
Qed.

Lemma corners_Some W H x y x1 y1 x2 y2 :
  corners W H x y = Some (x1, y1, x2, y2) ->
  F32.trunc x = Some x1 /\ F32.trunc y = Some y1 /\
  x2 = Z.min (x1 + 1) (W - 1) /\ y2 = Z.min (y1 + 1) (H - 1).
Proof.
  unfold corners, F32.to_int.
  destruct (F32.trunc x) as [tx|]; [|discriminate].
  destruct (in_int tx); [|discriminate]. cbn.
  destruct (F32.trunc y) as [ty|]; [|discriminate].
  destruct (in_int ty); [|discriminate]. cbn.
  destruct (int_ok (tx + 1)) as [a|] eqn:Ha; [|discriminate]. cbn.
  destruct (int_ok (ty + 1)) as [b|] eqn:Hb; [|discriminate]. cbn.
  apply int_ok_Some in Ha, Hb. subst a b.
  destruct (if tx + 1 >=? W then int_ok (W - 1) else Some (tx + 1)) as [cx|] eqn:Hcx;
    [|discriminate]. cbn.
  destruct (if ty + 1 >=? H then int_ok (H - 1) else Some (ty + 1)) as [cy|] eqn:Hcy;
    [|discriminate]. cbn.
  intros [= <- <- <- <-]. repeat split.
  - destruct (Z.geb_spec (tx + 1) W); [apply int_ok_Some in Hcx | injection Hcx as <-]; lia.
  - destruct (Z.geb_spec (ty + 1) H); [apply int_ok_Some in Hcy | injection Hcy as <-]; lia.
Qed.

Lemma bilinear_value_spec img W H x y p :
  not_negative x -> not_negative y ->
  bilinear_value img W H x y = Some p -> bilinear_spec img W H x y = Some p.
Proof.
  intros Hx Hy. unfold bilinear_value, bilinear_spec.
  destruct (corners W H x y) as [[[[x1 y1] x2] y2]|] eqn:Hc; [|discriminate].
  apply corners_Some in Hc. destruct Hc as (Hx1 & Hy1 & -> & ->).
  rewrite (floor_not_negative x Hx), (floor_not_negative y Hy), Hx1, Hy1. cbn.
  repeat match goal with
  | |- context [offset ?a ?w ?b] =>
      let i := fresh "i" in let E := fresh "E" in
      destruct (offset a w b) as [i|] eqn:E;
        [apply offset_Some in E; subst i; cbn | discriminate]
  | |- context [cell img ?i] =>
      destruct (cell img i); [cbn | discriminate]
  end.
  intros H0. exact H0.
Qed.

(** ** Facts about the stages *)

Lemma gray_filled_eq {pixformat_t} (fb : camera_fb_t pixformat_t) rgb_buf g2 :
  in_int (pixel_count fb) = true -> 0 <= pixel_count fb ->
  gray_filled fb rgb_buf g2 = gray_image rgb_buf (pixel_count fb).
Proof.
  intros Hn%in_int_true H0. unfold gray_filled, gray_fresh, wrap_size_t.
  rewrite Z.mod_small by (unfold INT_MAX in Hn; lia).
  rewrite Z.max_r by lia. rewrite drop_ge by (rewrite length_resize; lia).
  apply app_nil_r.
Qed.

(** At the origin the clamped neighbours are read at offsets [x2] and
    [y2 * width]; they exist only in an image of positive size. *)
Lemma sample_origin_dims gray W H xr yr p :
  sample gray W H xr yr 0 0 = Some p -> 1 <= W /\ 1 <= H.
Proof.
  unfold sample, bilinear_value. change (F32.of_Z 0) with F32.zero.
  destruct (corners W H (F32.mul F32.zero xr) (F32.mul F32.zero yr))
    as [[[[x1 y1] x2] y2]|] eqn:Hc; [|discriminate].
  apply corners_Some in Hc. destruct Hc as (Hx1 & Hy1 & -> & ->).
  assert (x1 = 0) as ->.
  { destruct xr as [[]|[]| |[] ? ?]; cbn in Hx1; congruence. }
  assert (y1 = 0) as ->.
  { destruct yr as [[]|[]| |[] ? ?]; cbn in Hy1; congruence. }
  set (x2 := Z.min (0 + 1) (W - 1)). set (y2 := Z.min (0 + 1) (H - 1)). cbn.
  destruct (offset 0 W 0) as [i1|]; [|discriminate]. cbn.
  destruct (cell gray i1); [|discriminate]. cbn.
  destruct (offset 0 W x2) as [i2|] eqn:E2; [|discriminate]. cbn.
  destruct (cell gray i2) eqn:C2; [|discriminate]. cbn.
  destruct (offset y2 W 0) as [i3|] eqn:E3; [|discriminate]. cbn.
  destruct (cell gray i3) eqn:C3; [|discriminate]. cbn.
  intros _. apply offset_Some in E2, E3. apply cell_Some in C2, C3.
  destruct C2 as [C2 _], C3 as [C3 _]. subst i2 i3. unfold x2, y2 in *. nia.
Qed.

Section TensorFacts.

Variables (gray_buf output_buffer : loc) (gray : list byte).
Variables (W H ts : Z) (xr yr : F32.float).

Lemma tensor_prefix_lookup k n :
  0 <= k < n ->
  tensor_prefix gray W H ts xr yr n !! Z.to_nat k = Some (tensor_value gray W H ts xr yr k).
Proof.
  intros Hk. unfold tensor_prefix. rewrite list_lookup_fmap.
  rewrite (lookup_seqZ_lt 0 n (Z.to_nat k)) by lia. cbn. f_equal. f_equal. lia.
Qed.



End TensorFacts.

Lemma writes_gray_trace rgb888_buf gray_buf rgb n :
  writes (gray_trace rgb888_buf gray_buf rgb n) = [].
Proof.
  unfold gray_trace, writes.
  induction (reverse (seqZ 0 n)) as [|k l IH]; [reflexivity|].
  cbn [mbind list_bind]. rewrite omap_app, IH. reflexivity.
Qed.

Lemma stores_gray_trace rgb888_buf gray_buf rgb n :
  stores (gray_trace rgb888_buf gray_buf rgb n)
  = reverse ((fun k => (gray_buf, k)) <$> seqZ 0 n).
Proof.
  unfold gray_trace, stores. rewrite <- fmap_reverse.
  induction (reverse (seqZ 0 n)) as [|k l IH]; [reflexivity|].
  cbn [mbind list_bind fmap list_fmap]. rewrite omap_app, IH. reflexivity.
Qed.

Lemma pixel_ok_facts gray W H ts xr yr tlen y x :
  pixel_ok gray W H ts xr yr tlen y x = true ->
  is_Some (sample gray W H xr yr y x) /\ 0 <= y * ts + x < Z.of_nat tlen.
Proof.
  unfold pixel_ok. rewrite !andb_true_iff, bool_decide_eq_true, Z.leb_le, Z.ltb_lt.
  tauto.
Qed.

Lemma row_major_div y x ts : 0 <= x < ts -> (y * ts + x) / ts = y.
Proof. intros Hx. rewrite Z.add_comm, Z.div_add by lia. rewrite Z.div_small by lia. lia. Qed.

Lemma row_major_mod y x ts : 0 <= x < ts -> (y * ts + x) mod ts = x.
Proof. intros Hx. rewrite Z.add_comm, Z.mod_add by lia. apply Z.mod_small. lia. Qed.

Lemma new_events_trace m m' tr : trace m' = tr ++ trace m -> new_events m m' = tr.
Proof.
  intros E. unfold new_events. rewrite E, length_app.
  replace (length tr + length (trace m) - length (trace m))%nat with (length tr) by lia.
  apply take_app_length.
Qed.

Section SuccessPixels.

Context {pixformat_t : Type}.
Variable fmt2rgb888 : list byte -> Z -> pixformat_t -> option (list byte).
Variables (fb : camera_fb_t pixformat_t) (output_buffer : loc) (target_size : Z).
Variables (m m' : machine) (src : list byte) (t0 : list Z).

Hypothesis Hsrc : frame_bytes fb m = Some src.
Hypothesis Htensor : tensors m !! output_buffer = Some t0.
Hypothesis Hrun :
  preprocessImageForML pixformat_t fmt2rgb888 (Some fb) (Some output_buffer) target_size m
  = Done true m'.

(** What the run has established about output pixel (x, y). *)
Lemma success_pixel x y :
  0 <= x < target_size -> 0 <= y < target_size ->
  exists p,
    sample (grayscale fmt2rgb888 fb m) (frame_width fb) (frame_height fb)
           (x_scale fb target_size) (y_scale fb target_size) y x = Some p /\
    tensor_at m' output_buffer (y * target_size + x) = Some (quantize p) /\
    1 <= frame_width fb /\ 1 <= frame_height fb /\
    in_int (pixel_count fb) = true.
Proof.
  intros Hx Hy.
  destruct (success_inv fmt2rgb888 fb output_buffer target_size m m' src t0 Hsrc Htensor Hrun)
    as (g1 & g2 & rest & rgb & Hor & Hconv & Hlen & Hn & Hdec & Hok & ->).
  cbv zeta in Hok. unfold stages_ok in Hok. apply andb_true_iff in Hok.
  destruct Hok as [_ Hrows].
  rewrite forallb_seqZ in Hrows.
  pose proof (Hrows 0 ltac:(lia)) as Horigin. rewrite forallb_seqZ in Horigin.
  specialize (Horigin 0 ltac:(lia)). apply pixel_ok_facts in Horigin.
  destruct Horigin as [[p0 Hp0] _].
  destruct (sample_origin_dims _ _ _ _ _ _ Hp0) as [HW HH].
  assert (Hcount : 0 <= pixel_count fb) by (unfold pixel_count; nia).
  rewrite (gray_filled_eq fb _ g2 Hn Hcount) in Hrows.
  specialize (Hrows y Hy). rewrite forallb_seqZ in Hrows. specialize (Hrows x Hx).
  apply pixel_ok_facts in Hrows. destruct Hrows as [[p Hp] Hk].
  exists p. split; [exact Hp|]. split; [|auto].
  unfold tensor_at, success_state. cbn [tensors].
  destruct (Z.leb_spec 0 (y * target_size + x)); [|lia].
  rewrite lookup_insert_eq. cbn [mbind option_bind].
  unfold tensor_filled, written. rewrite Z.max_r by lia.
  rewrite lookup_app_l by (rewrite tensor_prefix_length; nia).
  rewrite tensor_prefix_lookup by nia.
  unfold tensor_value. rewrite row_major_div, row_major_mod by lia.
  rewrite (gray_filled_eq fb _ g2 Hn Hcount).
  unfold grayscale in Hp. rewrite Hp. reflexivity.
Qed.


End SuccessPixels.

Lemma to_int_finite f z : F32.to_int f = Some z -> finite_or_zero f.
Proof. destruct f; cbn; try discriminate; auto. Qed.

Lemma int_ok_in z : INT_MIN <= z <= INT_MAX -> int_ok z = Some z.
Proof. intros H. unfold int_ok. apply in_int_true in H. rewrite H. reflexivity. Qed.

Lemma offset_in a w b :
  INT_MIN <= a * w <= INT_MAX -> INT_MIN <= a * w + b <= INT_MAX ->
  offset a w b = Some (a * w + b).
Proof.
  intros H1 H2. unfold offset. rewrite int_ok_in by exact H1. cbn. apply int_ok_in, H2.
Qed.

Section GridTotal.

Variables (img : list byte) (W H a b : Z).
Hypothesis Ha : F32.to_int (F32.of_Z a) = Some a.
Hypothesis Hb : F32.to_int (F32.of_Z b) = Some b.
Hypothesis Ha_range : 0 <= a < W.
Hypothesis Hb_range : 0 <= b < H.
Hypothesis Hlen : Z.of_nat (length img) = W * H.
Hypothesis Hsize : W * H <= INT_MAX.

Local Abbreviation x2 := (Z.min (a + 1) (W - 1)).
Local Abbreviation y2 := (Z.min (b + 1) (H - 1)).

Lemma corners_grid_total :
  corners W H (F32.of_Z a) (F32.of_Z b) = Some (a, b, x2, y2).
Proof.
  assert (HW : W <= INT_MAX) by nia. assert (HH : H <= INT_MAX) by nia.
  unfold corners. rewrite Ha, Hb. cbn.
  rewrite !int_ok_in by (unfold INT_MIN, INT_MAX in *; lia). cbn.
  destruct (Z.geb_spec (a + 1) W); destruct (Z.geb_spec (b + 1) H);
    rewrite ?int_ok_in by (unfold INT_MIN, INT_MAX in *; lia); cbn;
    repeat f_equal; lia.
Qed.

Lemma offset_grid y x :
  0 <= y < H -> 0 <= x < W -> offset y W x = Some (y * W + x).
Proof.
  intros Hy Hx. apply offset_in; unfold INT_MIN, INT_MAX in *; nia.
Qed.

Lemma cell_grid y x :
  0 <= y < H -> 0 <= x < W -> cell img (y * W + x) = Some (byte_at img (y * W + x)).
Proof. intros Hy Hx. apply cell_lt. nia. Qed.

Lemma bilinear_value_grid_total :
  bilinear_value img W H (F32.of_Z a) (F32.of_Z b) = Some (byte_at img (b * W + a)).
Proof.
  unfold bilinear_value. rewrite corners_grid_total. cbn.
  assert (Hx2 : 0 <= x2 < W) by lia.
  assert (Hy2 : 0 <= y2 < H) by lia.
  rewrite !offset_grid by assumption. cbn.
  rewrite !cell_grid by assumption. cbn.
  rewrite !sub_diag by (eapply to_int_finite; eassumption).
  rewrite blend_on_grid. reflexivity.
Qed.

Lemma sample_offsets_grid_total :
  sample_offsets W H (F32.of_Z a) (F32.of_Z b)
  = Some [b * W + a; b * W + x2; y2 * W + a; y2 * W + x2].
Proof.
  unfold sample_offsets. rewrite corners_grid_total. cbn.
  assert (Hx2 : 0 <= x2 < W) by lia.
  assert (Hy2 : 0 <= y2 < H) by lia.
  rewrite !offset_grid by assumption. reflexivity.
Qed.

End GridTotal.

Lemma byte_at_gray_image rgb n i :
  0 <= i < n -> byte_at (gray_image rgb n) i = luma_at rgb i.
Proof.
  intros Hi. unfold byte_at, gray_image. apply list_lookup_total_correct.
  rewrite list_lookup_fmap, (lookup_seqZ_lt 0 n (Z.to_nat i)) by lia. cbn.
  f_equal. f_equal. lia.
Qed.

Lemma gray_image_lookup rgb n i :
  0 <= i < n -> gray_image rgb n !! Z.to_nat i = Some (luma_at rgb i).
Proof.
  intros Hi. unfold gray_image.
  rewrite list_lookup_fmap, (lookup_seqZ_lt 0 n (Z.to_nat i)) by lia. cbn.
  f_equal. f_equal. lia.
Qed.

(** ** Luma *)

Lemma u8_val_of_Z z : u8_val (u8_of_Z z) = z mod 256.
Proof.
  unfold u8_val, u8_of_Z.
  assert (Hr : 0 <= z mod 256 < 256) by (apply Z.mod_pos_bound; lia).
  destruct (Byte.of_N (Z.to_N (z mod 256))) as [c|] eqn:E.
  - apply Byte.to_of_N in E. rewrite E. lia.
  - apply Byte.of_N_None_iff in E. lia.
Qed.

Lemma trunc_toward_zero s m e :
  F32.trunc (S754_finite s m e)
  = Some (Z.quot (cond_Zopp s (Zpos m) * 2 ^ Z.max 0 e) (2 ^ Z.max 0 (- e))).
Proof.
  cbn [F32.trunc]. f_equal. unfold F32.trunc_mag. destruct e as [|k|k].
  - cbn [Z.max Z.opp]. rewrite Z.pow_0_r, Z.mul_1_r, Z.quot_1_r. reflexivity.
  - rewrite Z.shiftl_mul_pow2 by lia. rewrite Z.max_r by lia.
    replace (Z.max 0 (- Z.pos k)) with 0 by lia. rewrite Z.pow_0_r, Z.quot_1_r.
    destruct s; cbn [cond_Zopp]; lia.
  - rewrite Z.shiftr_div_pow2 by lia. replace (Z.max 0 (Z.neg k)) with 0 by lia.
    replace (Z.max 0 (- Z.neg k)) with (Z.pos k) by lia.
    rewrite Z.pow_0_r, Z.mul_1_r.
    assert (0 < 2 ^ Z.pos k) by (apply Z.pow_pos_nonneg; lia).
    destruct s; cbn [cond_Zopp].
    + rewrite Z.quot_opp_l by lia. rewrite Z.quot_div_nonneg by lia. reflexivity.
    + rewrite Z.quot_div_nonneg by lia. reflexivity.
Qed.


(** ** The luma sum against exact arithmetic *)

Lemma weight_times_byte (c : F32.float) (K : Z) (v : byte) :
  positive_normal (-27) c -> scaled_value c = K * 2 ^ 173 -> 0 < K <= 2 ^ 27 ->
  let t := F32.mul c (F32.of_Z (u8_val v)) in
  positive_normal (-50) t /\
  K * 2 ^ 173 * u8_val v * (2 ^ 23 - 1) <= 2 ^ 23 * scaled_value t /\
  2 ^ 23 * scaled_value t <= K * 2 ^ 173 * u8_val v * (2 ^ 23 + 1).
Proof.
  intros Hc HK HKr t. pose proof (u8_val_range v) as Hv.
  destruct (of_Z_scaled (u8_val v)) as [Hn Hs]; [lia|].
  destruct (mul_rel (-27) (-23) c (F32.of_Z (u8_val v)) Hc Hn) as (Ht & Hlow & Hup);
    [lia..|].
  fold t in Ht, Hlow, Hup. rewrite HK, Hs in Hlow, Hup.
  split; [apply (positive_normal_weaken (-27 + -23 + 23)); [lia | exact Ht]|].
  assert (Hp : 0 < 2 ^ 200) by (apply Z.pow_pos_nonneg; lia).
  split; nia.
Qed.





(** * The claims *)

(** C1 (the code breaks it).  When the RGB888 buffer has been allocated and
    [fmt2rgb888] reports failure, [preprocessImageForML] returns [false]
    without calling [free]: the RGB888 block is still allocated when the
    function returns, and it is the only block that has become live. *)
Theorem decode_failure_leaks_rgb_buffer {pixformat_t : Type}
    (fmt2rgb888 : list byte -> Z -> pixformat_t -> option (list byte))
    (fb : camera_fb_t pixformat_t) (output_buffer : loc) (target_size : Z)
    (m : machine) (g : list byte) (rest : list (option (list byte)))
    (src : list byte) (t0 : list Z) :
  oracle m = Some g :: rest ->
  frame_bytes fb m = Some src ->
  tensors m !! output_buffer = Some t0 ->
  fmt2rgb888 src (len fb) (format fb) = None ->
  exists m',
    preprocessImageForML pixformat_t fmt2rgb888 (Some fb) (Some output_buffer) target_size m
      = Done false m' /\
    leaked m m' = {[ rgb_block m ]} /\
    releases (new_events m m') = [].
Proof.
  intros Hor Hsrc Ht Hconv.
  exists (decode_failed_state fb m g rest).
  rewrite (preprocess_cases fmt2rgb888 fb output_buffer target_size m g rest src t0)
    by assumption.
  rewrite Hconv. split; [reflexivity|]. split.
  - unfold leaked, decode_failed_state. cbn [heap]. rewrite dom_insert_L.
    pose proof (is_fresh (dom (heap m))) as Hfresh. fold (rgb_block m) in Hfresh.
    apply set_eq. intros p. rewrite elem_of_difference, elem_of_union, elem_of_singleton.
    split.
    + intros [[-> | Hp] Hn]; [reflexivity | contradiction].
    + intros ->. split; [left; reflexivity | exact Hfresh].
  - erewrite new_events_trace by reflexivity. reflexivity.
Qed.

Lemma decode_failure_leaks_rgb_buffer_witness :
  oracle demo_machine = Some [] :: [Some []] /\
  frame_bytes jpeg_frame demo_machine = Some demo_pixels /\
  tensors demo_machine !! 1%positive = Some [0; 0; 0; 0; 7] /\
  rgb888_only demo_pixels (len jpeg_frame) (format jpeg_frame) = None /\
  exists m',
    preprocessImageForML sample_format rgb888_only (Some jpeg_frame) (Some 1%positive) 2
      demo_machine = Done false m' /\
    leaked demo_machine m' = {[ rgb_block demo_machine ]} /\
    releases (new_events demo_machine m') = [].
Proof.
  repeat split; try reflexivity.
  apply (decode_failure_leaks_rgb_buffer rgb888_only jpeg_frame 1%positive 2 demo_machine
           [] [Some []] demo_pixels [0; 0; 0; 0; 7]); reflexivity.
Defined.

(** C2, as stated, fails: [empty_frame] declares a width of zero, the
    allocator grants the zero-byte request, and the call is granted a
    buffer (which it then leaks when the conversion fails). *)
Lemma zero_width_frame_is_granted_a_buffer :
  width empty_frame = 0 /\
  ~ rejects_untouched rgb888_only (Some empty_frame) (Some 1%positive) 2 demo_machine.
Proof.
  split; [reflexivity|]. intros (m' & Hrun & Hgranted & _).
  vm_compute in Hrun. injection Hrun as <-. vm_compute in Hgranted. discriminate.
Qed.

(** C2, amended.  A call with a null frame pointer or a null output buffer
    pointer returns [false], is granted no buffer and writes no element of
    the output tensor.  A frame whose width or height is zero is not
    checked for: the call asks the allocator for the (zero-byte) RGB888
    buffer, and it returns [false] without a buffer and without a write
    when the allocator answers with a null pointer. *)
Theorem invalid_arguments_rejected {pixformat_t : Type}
    (fmt2rgb888 : list byte -> Z -> pixformat_t -> option (list byte))
    (fb : option (camera_fb_t pixformat_t)) (output_buffer : option loc)
    (target_size : Z) (m : machine) :
  fb = None \/ output_buffer = None \/
  (exists f, fb = Some f /\ (width f = 0 \/ height f = 0) /\
             (head (oracle m) = None \/ head (oracle m) = Some None)) ->
  rejects_untouched fmt2rgb888 fb output_buffer target_size m.
Proof.
  assert (Hnull : forall fb' out',
            fb' = None \/ out' = None ->
            rejects_untouched fmt2rgb888 fb' out' target_size m).
  { intros fb' out' Hn. exists m.
    assert (Hrun : preprocessImageForML pixformat_t fmt2rgb888 fb' out' target_size m
                   = Done false m).
    { destruct Hn as [-> | ->]; [reflexivity|]. destruct fb'; reflexivity. }
    rewrite Hrun. unfold new_events. rewrite Nat.sub_diag, take_0. auto. }
  intros [H | [H | (f & -> & _ & Hor)]]; [apply Hnull; auto | apply Hnull; auto |].
  destruct output_buffer as [out|]; [|apply Hnull; auto].
  eexists. rewrite (preprocess_rgb_refused fmt2rgb888) by exact Hor.
  split; [reflexivity|].
  erewrite new_events_trace by reflexivity. split; reflexivity.
Qed.

Lemma invalid_arguments_rejected_witness :
  (Some empty_frame = None \/ Some 1%positive = None \/
   (exists f, Some empty_frame = Some f /\ (width f = 0 \/ height f = 0) /\
              (head (oracle refusing_machine) = None \/
               head (oracle refusing_machine) = Some None)))
  /\ rejects_untouched rgb888_only (Some empty_frame) (Some 1%positive) 2 refusing_machine.
Proof.
  assert (H : Some empty_frame = None \/ Some 1%positive = None \/
              (exists f, Some empty_frame = Some f /\ (width f = 0 \/ height f = 0) /\
                         (head (oracle refusing_machine) = None \/
                          head (oracle refusing_machine) = Some None))).
  { right. right. exists empty_frame.
    split; [reflexivity|]. split; [left; reflexivity | right; reflexivity]. }
  split; [exact H|].
  exact (invalid_arguments_rejected rgb888_only (Some empty_frame) (Some 1%positive) 2
           refusing_machine H).
Defined.

Lemma quantize_offset (p : byte) :
  quantize p = u8_val p - 128 /\ -128 <= u8_val p - 128 <= 127.
Proof.
  pose proof (u8_val_range p) as Hp. unfold quantize, wrap_int8. split; [|lia].
  rewrite Z.mod_small by lia. lia.
Qed.

Lemma scaled_position_not_negative (x width target_size : Z) :
  0 <= x -> 0 <= width -> 0 <= target_size ->
  not_negative (F32.mul (F32.of_Z x) (F32.div (F32.of_Z width) (F32.of_Z target_size))).
Proof.
  intros Hx Hw Ht. apply mul_not_negative; [apply of_Z_not_negative, Hx|].
  apply div_not_negative; apply of_Z_not_negative; assumption.
Qed.

Section RunClaims.

Context {pixformat_t : Type}.
Variable fmt2rgb888 : list byte -> Z -> pixformat_t -> option (list byte).
Variables (fb : camera_fb_t pixformat_t) (output_buffer : loc) (target_size : Z).
Variables (m m' : machine) (src : list byte) (t0 : list Z).

(** C3.  In a run that returns [true], output pixel (x, y) is the
    specification's interpolation of the grayscale image at
    [src_x = x * (src_width / target_size)] and
    [src_y = y * (src_height / target_size)]: [x1], [y1] the floors,
    [x2], [y2] their successors clamped to [width - 1] and [height - 1],
    the four neighbours weighted by [(1-dx)(1-dy)], [dx(1-dy)],
    [(1-dx)dy], [dx*dy], the sum truncated to a [uint8_t]; the tensor
    holds that value quantized, at offset [y * target_size + x]. *)
Theorem resampler_follows_specification (x y : Z) :
  frame_bytes fb m = Some src ->
  tensors m !! output_buffer = Some t0 ->
  preprocessImageForML pixformat_t fmt2rgb888 (Some fb) (Some output_buffer) target_size m
    = Done true m' ->
  0 <= x < target_size -> 0 <= y < target_size ->
  let src_x := F32.mul (F32.of_Z x)
                 (F32.div (F32.of_Z (frame_width fb)) (F32.of_Z target_size)) in
  let src_y := F32.mul (F32.of_Z y)
                 (F32.div (F32.of_Z (frame_height fb)) (F32.of_Z target_size)) in
  exists pixel,
    bilinear_spec (grayscale fmt2rgb888 fb m) (frame_width fb) (frame_height fb) src_x src_y
      = Some pixel /\
    tensor_at m' output_buffer (y * target_size + x) = Some (quantize pixel).
Proof.
  intros Hsrc Ht Hrun Hx Hy src_x src_y.
  destruct (success_pixel fmt2rgb888 fb output_buffer target_size m m' src t0
              Hsrc Ht Hrun x y Hx Hy) as (p & Hp & Hcell & HW & HH & _).
  exists p. split; [|exact Hcell].
  apply bilinear_value_spec; [| |exact Hp];
    apply scaled_position_not_negative; lia.
Qed.


(** C5.  In a run that returns [true], the tensor element of output
    pixel (x, y) is the interpolated [uint8_t] sample minus 128, with no
    scale factor, and lies in [-128, 127]. *)
Theorem tensor_is_sample_minus_128 (x y : Z) :
  frame_bytes fb m = Some src ->
  tensors m !! output_buffer = Some t0 ->
  preprocessImageForML pixformat_t fmt2rgb888 (Some fb) (Some output_buffer) target_size m
    = Done true m' ->
  0 <= x < target_size -> 0 <= y < target_size ->
  exists pixel v,
    sample (grayscale fmt2rgb888 fb m) (frame_width fb) (frame_height fb)
           (x_scale fb target_size) (y_scale fb target_size) y x = Some pixel /\
    tensor_at m' output_buffer (y * target_size + x) = Some v /\
    v = u8_val pixel - 128 /\ -128 <= v <= 127.
Proof.
  intros Hsrc Ht Hrun Hx Hy.
  destruct (success_pixel fmt2rgb888 fb output_buffer target_size m m' src t0
              Hsrc Ht Hrun x y Hx Hy) as (p & Hp & Hcell & _).
  destruct (quantize_offset p) as [Hq Hr].
  exists p, (quantize p). rewrite Hq in *. auto.
Qed.

End RunClaims.

(** With equal source and target sizes both scale factors are 1 and
    every sample position is an integer position. *)
Lemma identity_scale (n : Z) : 0 < n < 2 ^ 24 -> F32.div (F32.of_Z n) (F32.of_Z n) = F32.one.
Proof. intros Hn. apply div_diag_normal, of_Z_normal24, Hn. Qed.

Lemma in_int_square (n : Z) : 0 <= n -> in_int (n * n) = true -> n < 2 ^ 24.
Proof. intros H0 H%in_int_true. unfold INT_MAX in H. nia. Qed.

Section IdentityResize.

Context {pixformat_t : Type}.
Variable fmt2rgb888 : list byte -> Z -> pixformat_t -> option (list byte).
Variables (fb : camera_fb_t pixformat_t) (output_buffer : loc) (target_size : Z).
Variables (m m' : machine) (src : list byte) (t0 : list Z).

(** C6.  In a run that returns [true] with source width and height both
    equal to [target_size], every element of the output tensor is the
    element of the grayscale buffer at the same offset, minus 128. *)
Theorem identity_resize_copies_grayscale (x y : Z) :
  frame_bytes fb m = Some src ->
  tensors m !! output_buffer = Some t0 ->
  preprocessImageForML pixformat_t fmt2rgb888 (Some fb) (Some output_buffer) target_size m
    = Done true m' ->
  frame_width fb = target_size -> frame_height fb = target_size ->
  0 <= x < target_size -> 0 <= y < target_size ->
  let k := y * target_size + x in
  exists g,
    grayscale fmt2rgb888 fb m !! Z.to_nat k = Some g /\
    tensor_at m' output_buffer k = Some (u8_val g - 128).
Proof.
  intros Hsrc Ht Hrun HW HH Hx Hy k.
  destruct (success_pixel fmt2rgb888 fb output_buffer target_size m m' src t0
              Hsrc Ht Hrun x y Hx Hy) as (p & Hp & Hcell & _ & _ & Hn).
  unfold pixel_count in Hn. rewrite HW, HH in Hn.
  pose proof (in_int_square target_size ltac:(lia) Hn) as Hsmall.
  unfold sample, x_scale, y_scale in Hp. rewrite HW, HH in Hp.
  rewrite identity_scale in Hp by lia.
  rewrite !mul_one_of_Z in Hp by lia.
  apply bilinear_value_on_grid in Hp; [|lia|lia].
  destruct Hp as [_ Hp]. apply cell_Some in Hp. destruct Hp as [Hrange Hp].
  exists p. split.
  - rewrite Hp. apply list_lookup_lookup_total_lt. unfold k. lia.
  - unfold k. rewrite Hcell. f_equal. apply quantize_offset.
Qed.

End IdentityResize.

(** C7.  For a grayscale buffer of [width * height] bytes, with
    [width >= 1] and [height >= 1], [bilinear_interpolate] at the float
    position [(width - 1, height - 1)] reads four times the offset
    [(height - 1) * width + (width - 1)], which lies in the buffer, and
    returns the byte there.  ([width - 1] and [height - 1] are binary32
    numbers: converting them to [float] and back gives them again; the
    buffer is an object of the 32-bit target, of at most [INT_MAX] bytes.) *)
Theorem corner_sample_is_corner_pixel (m : machine) (img : loc) (gray : list byte)
    (width height : Z) :
  heap m !! img = Some gray ->
  1 <= width -> 1 <= height ->
  Z.of_nat (length gray) = width * height ->
  width * height <= INT_MAX ->
  F32.to_int (F32.of_Z (width - 1)) = Some (width - 1) ->
  F32.to_int (F32.of_Z (height - 1)) = Some (height - 1) ->
  let corner := (height - 1) * width + (width - 1) in
  exists pixel,
    0 <= corner < Z.of_nat (length gray) /\
    gray !! Z.to_nat corner = Some pixel /\
    bilinear_interpolate img width height (F32.of_Z (width - 1)) (F32.of_Z (height - 1)) m
    = Done pixel (with_trace m (replicate 4 (EvLoad img corner))).
Proof.
  intros Himg HW HH Hlen Hsize Hx Hy corner.
  assert (Hc : 0 <= corner < Z.of_nat (length gray)) by (unfold corner; nia).
  exists (byte_at gray corner). split; [exact Hc|]. split.
  { apply list_lookup_lookup_total_lt. lia. }
  rewrite (bilinear_interpolate_run _ _ _ _ _ _ gray Himg).
  rewrite (bilinear_value_grid_total gray width height (width - 1) (height - 1))
    by (assumption || lia).
  rewrite (sample_offsets_grid_total gray width height (width - 1) (height - 1))
    by (assumption || lia).
  replace (Z.min (width - 1 + 1) (width - 1)) with (width - 1) by lia.
  replace (Z.min (height - 1 + 1) (height - 1)) with (height - 1) by lia.
  reflexivity.
Qed.

(** C9, as stated, fails: [short_frame] declares 2x2 pixels and carries
    six bytes, which the converter copies; the other six bytes of the
    RGB888 buffer are what the allocator's block held.  Two calls on this
    frame, with the same converter, output buffer and target size, on
    machines that differ only in that block, both return [true], and
    their tensors differ: [-118, -108, -128, -128] and
    [-118, -108, -23, -1]. *)
Lemma uninitialised_bytes_reach_the_tensor :
  frame_bytes short_frame demo_machine = frame_bytes short_frame dirty_machine /\
  tensors demo_machine = tensors dirty_machine /\
  preprocessImageForML sample_format rgb888_only (Some short_frame) (Some 1%positive) 2
    demo_machine = Done true short_result /\
  preprocessImageForML sample_format rgb888_only (Some short_frame) (Some 1%positive) 2
    dirty_machine = Done true short_result' /\
  tensors short_result !! 1%positive = Some [-118; -108; -128; -128; 7] /\
  tensors short_result' !! 1%positive = Some [-118; -108; -23; -1; 7] /\
  ~ (forall x y, 0 <= x < 2 -> 0 <= y < 2 ->
       exists v, tensor_at short_result 1%positive (y * 2 + x) = Some v /\
                 tensor_at short_result' 1%positive (y * 2 + x) = Some v).
Proof.
  split; [reflexivity|]. split; [reflexivity|].
  split; [vm_compute; reflexivity|]. split; [vm_compute; reflexivity|].
  split; [reflexivity|]. split; [reflexivity|].
  intros Hsame. destruct (Hsame 0 1 ltac:(lia) ltac:(lia)) as (v & H1 & H2).
  vm_compute in H1, H2. congruence.
Qed.

Section Determinism.

Context {pixformat_t : Type}.
Variable fmt2rgb888 : list byte -> Z -> pixformat_t -> option (list byte).
Variables (fb1 fb2 : camera_fb_t pixformat_t) (out1 out2 : loc) (target_size : Z).
Variables (m1 m2 m1' m2' : machine) (src : list byte) (t1 t2 : list Z).

Lemma rgb_filled_full (fb : camera_fb_t pixformat_t) g rgb :
  length rgb = Z.to_nat (rgb888_size fb) -> rgb_filled fb g rgb = rgb.
Proof.
  intros Hlen. unfold rgb_filled.
  rewrite drop_ge by (rewrite length_resize; lia). apply app_nil_r.
Qed.

(** C9, amended.  Two calls on frames with the same bytes, length,
    width, height and format and with the same [target_size], both
    returning [true], leave the same values in their output tensors,
    whatever the two machines otherwise hold and whatever the allocator
    hands out, provided the converter, a function of its inputs, fills
    the whole RGB888 buffer of [width * height * 3] bytes. *)
Theorem preprocess_is_deterministic (x y : Z) :
  frame_bytes fb1 m1 = Some src -> frame_bytes fb2 m2 = Some src ->
  len fb1 = len fb2 -> width fb1 = width fb2 -> height fb1 = height fb2 ->
  format fb1 = format fb2 ->
  (forall rgb, fmt2rgb888 src (len fb1) (format fb1) = Some rgb ->
               length rgb = Z.to_nat (rgb888_size fb1)) ->
  tensors m1 !! out1 = Some t1 -> tensors m2 !! out2 = Some t2 ->
  preprocessImageForML pixformat_t fmt2rgb888 (Some fb1) (Some out1) target_size m1
    = Done true m1' ->
  preprocessImageForML pixformat_t fmt2rgb888 (Some fb2) (Some out2) target_size m2
    = Done true m2' ->
  0 <= x < target_size -> 0 <= y < target_size ->
  exists v,
    tensor_at m1' out1 (y * target_size + x) = Some v /\
    tensor_at m2' out2 (y * target_size + x) = Some v.
Proof.
  intros Hsrc1 Hsrc2 Hlen Hw Hh Hf Hfill Ht1 Ht2 Hrun1 Hrun2 Hx Hy.
  destruct (success_pixel fmt2rgb888 fb1 out1 target_size m1 m1' src t1
              Hsrc1 Ht1 Hrun1 x y Hx Hy) as (p1 & Hp1 & Hcell1 & _).
  destruct (success_pixel fmt2rgb888 fb2 out2 target_size m2 m2' src t2
              Hsrc2 Ht2 Hrun2 x y Hx Hy) as (p2 & Hp2 & Hcell2 & _).
  destruct (success_inv fmt2rgb888 fb1 out1 target_size m1 m1' src t1 Hsrc1 Ht1 Hrun1)
    as (g1 & _ & _ & rgb1 & _ & Hconv1 & _ & _ & Hdec1 & _).
  destruct (success_inv fmt2rgb888 fb2 out2 target_size m2 m2' src t2 Hsrc2 Ht2 Hrun2)
    as (g2 & _ & _ & rgb2 & _ & Hconv2 & _ & _ & Hdec2 & _).
  rewrite <- Hlen, <- Hf, Hconv1 in Hconv2. injection Hconv2 as <-.
  pose proof (Hfill rgb1 Hconv1) as Hfull.
  assert (Hsize : rgb888_size fb2 = rgb888_size fb1)
    by (unfold rgb888_size; rewrite Hw, Hh; reflexivity).
  rewrite rgb_filled_full in Hdec1 by exact Hfull.
  rewrite rgb_filled_full in Hdec2 by (rewrite Hsize; exact Hfull).
  unfold grayscale, pixel_count, frame_width, frame_height, x_scale, y_scale,
    frame_width, frame_height in Hp1, Hp2.
  rewrite Hdec1 in Hp1. rewrite Hdec2, <- Hw, <- Hh in Hp2.
  rewrite Hp1 in Hp2. injection Hp2 as <-.
  exists (quantize p1). auto.
Qed.

End Determinism.

Section FrameEffect.

Context {pixformat_t : Type}.
Variable fmt2rgb888 : list byte -> Z -> pixformat_t -> option (list byte).
Variables (fb : camera_fb_t pixformat_t) (output_buffer : loc) (target_size : Z).
Variables (m m' : machine) (src : list byte) (t0 : list Z).


End FrameEffect.

(** ** The 160x120 to 2x2 scenario *)

Lemma scenario_column (x : Z) : 0 <= x < 2 ->
  F32.mul (F32.of_Z x) (F32.div (F32.of_Z 160) (F32.of_Z 2)) = F32.of_Z (80 * x).
Proof.
  intros Hx. assert (Hc : x = 0 \/ x = 1) by lia. destruct Hc as [-> | ->]; reflexivity.
Qed.

Lemma scenario_row (y : Z) : 0 <= y < 2 ->
  F32.mul (F32.of_Z y) (F32.div (F32.of_Z 120) (F32.of_Z 2)) = F32.of_Z (60 * y).
Proof.
  intros Hy. assert (Hc : y = 0 \/ y = 1) by lia. destruct Hc as [-> | ->]; reflexivity.
Qed.

Section Scenario.

Context {pixformat_t : Type}.
Variable fmt2rgb888 : list byte -> Z -> pixformat_t -> option (list byte).
Variables (fb : camera_fb_t pixformat_t) (output_buffer : loc).
Variables (m m' : machine) (src : list byte) (t0 : list Z).

(** C8, amended.  For a 160x120 source frame resampled to a 2x2 target,
    the output tensor holds the luma samples at the source positions
    (0, 0), (80, 0), (0, 60) and (80, 60), each minus 128; the top-left
    2x2 luma block does not decide it.  When those four samples are
    10, 20, 30 and 40 the tensor is [-118, -108; -98, -88]. *)
Theorem scenario_samples_every_80th_column_and_60th_row :
  frame_bytes fb m = Some src ->
  tensors m !! output_buffer = Some t0 ->
  frame_width fb = 160 -> frame_height fb = 120 ->
  preprocessImageForML pixformat_t fmt2rgb888 (Some fb) (Some output_buffer) 2 m
    = Done true m' ->
  let gray := grayscale fmt2rgb888 fb m in
  (forall x y, 0 <= x < 2 -> 0 <= y < 2 ->
     exists g,
       gray !! Z.to_nat (60 * y * 160 + 80 * x) = Some g /\
       tensor_at m' output_buffer (y * 2 + x) = Some (u8_val g - 128)) /\
  (gray !! Z.to_nat (0 * 160 + 0) = Some x0a -> gray !! Z.to_nat (0 * 160 + 80) = Some x14 ->
   gray !! Z.to_nat (60 * 160 + 0) = Some x1e -> gray !! Z.to_nat (60 * 160 + 80) = Some x28 ->
   tensor_at m' output_buffer 0 = Some (-118) /\
   tensor_at m' output_buffer 1 = Some (-108) /\
   tensor_at m' output_buffer 2 = Some (-98) /\
   tensor_at m' output_buffer 3 = Some (-88)).
Proof.
  intros Hsrc Ht HW HH Hrun gray.
  assert (Hpix : forall x y, 0 <= x < 2 -> 0 <= y < 2 ->
            exists g,
              gray !! Z.to_nat (60 * y * 160 + 80 * x) = Some g /\
              tensor_at m' output_buffer (y * 2 + x) = Some (u8_val g - 128)).
  { intros x y Hx Hy.
    destruct (success_pixel fmt2rgb888 fb output_buffer 2 m m' src t0
                Hsrc Ht Hrun x y Hx Hy) as (p & Hp & Hcell & _).
    unfold sample, x_scale, y_scale in Hp. rewrite HW, HH in Hp.
    rewrite scenario_column, scenario_row in Hp by assumption.
    apply bilinear_value_on_grid in Hp; [|lia|lia].
    destruct Hp as [_ Hp]. apply cell_Some in Hp. destruct Hp as [Hrange Hp].
    exists p. split.
    - rewrite Hp. apply list_lookup_lookup_total_lt. lia.
    - rewrite Hcell. f_equal. apply quantize_offset. }
  split; [exact Hpix|]. intros H00 H10 H01 H11.
  destruct (Hpix 0 0) as (g00 & Hg00 & T00); [lia | lia |].
  destruct (Hpix 1 0) as (g10 & Hg10 & T10); [lia | lia |].
  destruct (Hpix 0 1) as (g01 & Hg01 & T01); [lia | lia |].
  destruct (Hpix 1 1) as (g11 & Hg11 & T11); [lia | lia |].
  change (60 * 0 * 160 + 80 * 0) with (0 * 160 + 0) in Hg00.
  change (60 * 0 * 160 + 80 * 1) with (0 * 160 + 80) in Hg10.
  change (60 * 1 * 160 + 80 * 0) with (60 * 160 + 0) in Hg01.
  change (60 * 1 * 160 + 80 * 1) with (60 * 160 + 80) in Hg11.
  rewrite H00 in Hg00. rewrite H10 in Hg10. rewrite H01 in Hg01. rewrite H11 in Hg11.
  injection Hg00 as <-. injection Hg10 as <-. injection Hg01 as <-. injection Hg11 as <-.
  repeat split; assumption.
Qed.

End Scenario.

Lemma scenario_rgb_length : Z.of_nat (length scenario_rgb) = 57600.
Proof. vm_compute. reflexivity. Qed.

Lemma scenario_filled :
  rgb_filled scenario_frame [] (take (Z.to_nat 57600) scenario_rgb) = scenario_rgb.
Proof.
  pose proof scenario_rgb_length as Hlen.
  rewrite take_ge by lia. unfold rgb_filled.
  rewrite drop_ge by (rewrite length_resize; change (rgb888_size scenario_frame) with 57600; lia).
  apply app_nil_r.
Qed.

Lemma scenario_decoded :
  decoded_rgb rgb888_only scenario_frame scenario_machine = scenario_rgb.
Proof.
  unfold decoded_rgb.
  change (oracle scenario_machine) with [Some (@nil byte); Some (@nil byte)].
  change (converted rgb888_only scenario_frame scenario_machine)
    with (Some (take (Z.to_nat 57600) scenario_rgb)).
  apply scenario_filled.
Qed.

Lemma scenario_stages_ok :
  let rgb_buf := rgb_filled scenario_frame [] (take (Z.to_nat 57600) scenario_rgb) in
  stages_ok scenario_frame 2 rgb_buf (gray_fresh scenario_frame [])
    (gray_filled scenario_frame rgb_buf []) [0; 0; 0; 0] = true.
Proof.
  intros rgb_buf.
  unfold rgb_buf. clear rgb_buf. rewrite scenario_filled.
  assert (Hn : pixel_count scenario_frame = 19200) by reflexivity.
  unfold stages_ok. apply andb_true_iff. split.
  - apply forallb_seqZ. intros j Hj. rewrite Hn in Hj.
    unfold gray_ok, gray_fresh. rewrite length_resize, Hn, scenario_rgb_length.
    rewrite !andb_true_iff, !in_int_true, !Z.ltb_lt. unfold INT_MIN, INT_MAX.
    change (wrap_size_t 19200) with 19200. lia.
  - rewrite gray_filled_eq by (rewrite ?Hn; (reflexivity || lia)).
    apply forallb_seqZ. intros y Hy. apply forallb_seqZ. intros x Hx.
    unfold pixel_ok. rewrite !andb_true_iff. repeat split.
    + apply bool_decide_eq_true. unfold sample.
      change (frame_width scenario_frame) with 160.
      change (frame_height scenario_frame) with 120.
      unfold x_scale, y_scale.
      change (frame_width scenario_frame) with 160.
      change (frame_height scenario_frame) with 120.
      rewrite scenario_column, scenario_row by assumption.
      rewrite (bilinear_value_grid_total _ 160 120 (80 * x) (60 * y)).
      * eexists; reflexivity.
      * apply to_int_of_Z_small. lia.
      * apply to_int_of_Z_small. lia.
      * lia.
      * lia.
      * rewrite gray_image_length, Hn. reflexivity.
      * unfold INT_MAX. lia.
    + apply in_int_true. unfold INT_MIN, INT_MAX. lia.
    + apply in_int_true. unfold INT_MIN, INT_MAX. lia.
    + apply Z.leb_le. lia.
    + apply Z.ltb_lt. cbn. lia.
Qed.

Lemma scenario_run :
  preprocessImageForML sample_format rgb888_only (Some scenario_frame) (Some 1%positive) 2
    scenario_machine = Done true scenario_result.
Proof.
  etransitivity.
  { apply (preprocess_cases rgb888_only scenario_frame 1%positive 2 scenario_machine
             [] [Some []] scenario_rgb [0; 0; 0; 0]); reflexivity. }
  change (rgb888_only scenario_rgb (len scenario_frame) (format scenario_frame))
    with (Some (take (Z.to_nat 57600) scenario_rgb)).
  cbv iota beta.
  assert (Hlen : (length (take (Z.to_nat 57600) scenario_rgb)
                  <=? Z.to_nat (rgb888_size scenario_frame))%nat = true)
    by (vm_compute; reflexivity).
  rewrite Hlen. change (in_int (pixel_count scenario_frame)) with true. cbn [andb].
  cbv zeta. rewrite scenario_stages_ok. unfold scenario_result.
  rewrite scenario_filled.
  rewrite gray_filled_eq by (reflexivity || (change (pixel_count scenario_frame) with 19200; lia)).
  reflexivity.
Qed.

Lemma scenario_gray (i : Z) (v : byte) :
  0 <= i < 19200 -> luma_at scenario_rgb i = v ->
  grayscale rgb888_only scenario_frame scenario_machine !! Z.to_nat i = Some v.
Proof.
  intros Hi <-. unfold grayscale. rewrite scenario_decoded.
  apply gray_image_lookup. exact Hi.
Qed.

(** C8, as stated, fails: in [scenario_frame] the top-left 2x2 luma block
    is [10, 20; 30, 40] and every other pixel is black; the run returns
    [true] and the output tensor is [-118, -128; -128, -128]. *)
Lemma scenario_top_left_block_is_not_the_output :
    preprocessImageForML sample_format rgb888_only (Some scenario_frame) (Some 1%positive) 2
      scenario_machine = Done true scenario_result /\
    (let gray := grayscale rgb888_only scenario_frame scenario_machine in
     gray !! Z.to_nat (0 * 160 + 0) = Some x0a /\ gray !! Z.to_nat (0 * 160 + 1) = Some x14 /\
     gray !! Z.to_nat (1 * 160 + 0) = Some x1e /\ gray !! Z.to_nat (1 * 160 + 1) = Some x28) /\
    tensor_at scenario_result 1%positive 0 = Some (-118) /\
    tensor_at scenario_result 1%positive 1 = Some (-128) /\
    tensor_at scenario_result 1%positive 2 = Some (-128) /\
    tensor_at scenario_result 1%positive 3 = Some (-128).
Proof.
  pose proof scenario_run as Hrun. set (m' := scenario_result) in *.
  split; [exact Hrun|]. split.
  { cbv zeta. repeat split; apply scenario_gray; try lia; vm_compute; reflexivity. }
  assert (Hpix : forall x y g, 0 <= x < 2 -> 0 <= y < 2 ->
            luma_at scenario_rgb (60 * y * 160 + 80 * x) = g ->
            tensor_at m' 1%positive (y * 2 + x) = Some (u8_val g - 128)).
  { intros x y g Hx Hy Hg.
    destruct (success_pixel rgb888_only scenario_frame 1%positive 2 scenario_machine m'
                scenario_rgb [0; 0; 0; 0] eq_refl eq_refl Hrun x y Hx Hy)
      as (p & Hp & Hcell & _).
    unfold sample, x_scale, y_scale in Hp.
    change (frame_width scenario_frame) with 160 in Hp.
    change (frame_height scenario_frame) with 120 in Hp.
    rewrite scenario_column, scenario_row in Hp by assumption.
    apply bilinear_value_on_grid in Hp; [|lia|lia].
    destruct Hp as [_ Hp]. apply cell_Some in Hp. destruct Hp as [Hrange Hp].
    rewrite Hcell. f_equal.
    assert (Hq : p = g).
    { rewrite Hp. unfold grayscale. rewrite scenario_decoded.
      rewrite byte_at_gray_image by (change (pixel_count scenario_frame) with 19200; lia).
      exact Hg. }
    rewrite Hq. apply quantize_offset. }
  split; [|split; [|split]].
  - apply (Hpix 0 0 x0a); [lia | lia | vm_compute; reflexivity].
  - apply (Hpix 1 0 x00); [lia | lia | vm_compute; reflexivity].
  - apply (Hpix 0 1 x00); [lia | lia | vm_compute; reflexivity].
  - apply (Hpix 1 1 x00); [lia | lia | vm_compute; reflexivity].
Qed.

(** ** Instances *)

Lemma resampler_follows_specification_witness :
  frame_bytes demo_frame demo_machine = Some demo_pixels /\
  tensors demo_machine !! 1%positive = Some [0; 0; 0; 0; 7] /\
  preprocessImageForML sample_format rgb888_only (Some demo_frame) (Some 1%positive) 2
    demo_machine = Done true demo_result /\
  0 <= 1 < 2 /\ 0 <= 1 < 2 /\
  (let src_x := F32.mul (F32.of_Z 1)
                  (F32.div (F32.of_Z (frame_width demo_frame)) (F32.of_Z 2)) in
   let src_y := F32.mul (F32.of_Z 1)
                  (F32.div (F32.of_Z (frame_height demo_frame)) (F32.of_Z 2)) in
   exists pixel,
     bilinear_spec (grayscale rgb888_only demo_frame demo_machine)
       (frame_width demo_frame) (frame_height demo_frame) src_x src_y = Some pixel /\
     tensor_at demo_result 1%positive (1 * 2 + 1) = Some (quantize pixel)).
Proof.
  split; [reflexivity|]. split; [reflexivity|]. split; [vm_compute; reflexivity|].
  split; [lia|]. split; [lia|].
  apply (resampler_follows_specification rgb888_only demo_frame 1%positive 2
           demo_machine demo_result demo_pixels [0; 0; 0; 0; 7] 1 1);
    [reflexivity | reflexivity | vm_compute; reflexivity | lia | lia].
Defined.


Lemma tensor_is_sample_minus_128_witness :
  frame_bytes demo_frame demo_machine = Some demo_pixels /\
  tensors demo_machine !! 1%positive = Some [0; 0; 0; 0; 7] /\
  preprocessImageForML sample_format rgb888_only (Some demo_frame) (Some 1%positive) 2
    demo_machine = Done true demo_result /\
  0 <= 1 < 2 /\ 0 <= 0 < 2 /\
  exists pixel v,
    sample (grayscale rgb888_only demo_frame demo_machine) (frame_width demo_frame)
           (frame_height demo_frame) (x_scale demo_frame 2) (y_scale demo_frame 2) 0 1
      = Some pixel /\
    tensor_at demo_result 1%positive (0 * 2 + 1) = Some v /\
    v = u8_val pixel - 128 /\ -128 <= v <= 127.
Proof.
  split; [reflexivity|]. split; [reflexivity|]. split; [vm_compute; reflexivity|].
  split; [lia|]. split; [lia|].
  apply (tensor_is_sample_minus_128 rgb888_only demo_frame 1%positive 2
           demo_machine demo_result demo_pixels [0; 0; 0; 0; 7] 1 0);
    [reflexivity | reflexivity | vm_compute; reflexivity | lia | lia].
Defined.

Lemma identity_resize_copies_grayscale_witness :
  frame_bytes demo_frame demo_machine = Some demo_pixels /\
  tensors demo_machine !! 1%positive = Some [0; 0; 0; 0; 7] /\
  preprocessImageForML sample_format rgb888_only (Some demo_frame) (Some 1%positive) 2
    demo_machine = Done true demo_result /\
  frame_width demo_frame = 2 /\ frame_height demo_frame = 2 /\
  0 <= 1 < 2 /\ 0 <= 1 < 2 /\
  (let k := 1 * 2 + 1 in
   exists g,
     grayscale rgb888_only demo_frame demo_machine !! Z.to_nat k = Some g /\
     tensor_at demo_result 1%positive k = Some (u8_val g - 128)).
Proof.
  split; [reflexivity|]. split; [reflexivity|]. split; [vm_compute; reflexivity|].
  split; [reflexivity|]. split; [reflexivity|]. split; [lia|]. split; [lia|].
  apply (identity_resize_copies_grayscale rgb888_only demo_frame 1%positive 2
           demo_machine demo_result demo_pixels [0; 0; 0; 0; 7] 1 1);
    [reflexivity | reflexivity | vm_compute; reflexivity | reflexivity | reflexivity
    | lia | lia].
Defined.

Lemma corner_sample_is_corner_pixel_witness :
  heap corner_machine !! 7%positive = Some [x01; x02; x03; x04; x05; x06] /\
  1 <= 3 /\ 1 <= 2 /\
  Z.of_nat (length [x01; x02; x03; x04; x05; x06]) = 3 * 2 /\
  3 * 2 <= INT_MAX /\
  F32.to_int (F32.of_Z (3 - 1)) = Some (3 - 1) /\
  F32.to_int (F32.of_Z (2 - 1)) = Some (2 - 1) /\
  (let corner := (2 - 1) * 3 + (3 - 1) in
   exists pixel,
     0 <= corner < Z.of_nat (length [x01; x02; x03; x04; x05; x06]) /\
     [x01; x02; x03; x04; x05; x06] !! Z.to_nat corner = Some pixel /\
     bilinear_interpolate 7%positive 3 2 (F32.of_Z (3 - 1)) (F32.of_Z (2 - 1)) corner_machine
     = Done pixel (with_trace corner_machine (replicate 4 (EvLoad 7%positive corner)))).
Proof.
  split; [reflexivity|]. split; [lia|]. split; [lia|]. split; [reflexivity|].
  split; [unfold INT_MAX; lia|]. split; [reflexivity|]. split; [reflexivity|].
  apply (corner_sample_is_corner_pixel corner_machine 7%positive
           [x01; x02; x03; x04; x05; x06] 3 2);
    [reflexivity | lia | lia | reflexivity | unfold INT_MAX; lia | reflexivity | reflexivity].
Defined.

Lemma scenario_samples_every_80th_column_and_60th_row_witness :
  frame_bytes scenario_frame scenario_machine = Some scenario_rgb /\
  tensors scenario_machine !! 1%positive = Some [0; 0; 0; 0] /\
  frame_width scenario_frame = 160 /\ frame_height scenario_frame = 120 /\
  preprocessImageForML sample_format rgb888_only (Some scenario_frame) (Some 1%positive) 2
    scenario_machine = Done true scenario_result /\
  (let gray := grayscale rgb888_only scenario_frame scenario_machine in
   (forall x y, 0 <= x < 2 -> 0 <= y < 2 ->
      exists g,
        gray !! Z.to_nat (60 * y * 160 + 80 * x) = Some g /\
        tensor_at scenario_result 1%positive (y * 2 + x) = Some (u8_val g - 128)) /\
   (gray !! Z.to_nat (0 * 160 + 0) = Some x0a -> gray !! Z.to_nat (0 * 160 + 80) = Some x14 ->
    gray !! Z.to_nat (60 * 160 + 0) = Some x1e -> gray !! Z.to_nat (60 * 160 + 80) = Some x28 ->
    tensor_at scenario_result 1%positive 0 = Some (-118) /\
    tensor_at scenario_result 1%positive 1 = Some (-108) /\
    tensor_at scenario_result 1%positive 2 = Some (-98) /\
    tensor_at scenario_result 1%positive 3 = Some (-88))).
Proof.
  split; [reflexivity|]. split; [reflexivity|]. split; [reflexivity|].
  split; [reflexivity|]. split; [exact scenario_run|].
  exact (scenario_samples_every_80th_column_and_60th_row rgb888_only scenario_frame
           1%positive scenario_machine scenario_result scenario_rgb [0; 0; 0; 0]
           eq_refl eq_refl eq_refl eq_refl scenario_run).
Defined.

Lemma preprocess_is_deterministic_witness :
  frame_bytes demo_frame demo_machine = Some demo_pixels /\
  frame_bytes demo_frame' demo_machine' = Some demo_pixels /\
  len demo_frame = len demo_frame' /\ width demo_frame = width demo_frame' /\
  height demo_frame = height demo_frame' /\ format demo_frame = format demo_frame' /\
  (forall rgb, rgb888_only demo_pixels (len demo_frame) (format demo_frame) = Some rgb ->
               length rgb = Z.to_nat (rgb888_size demo_frame)) /\
  tensors demo_machine !! 1%positive = Some [0; 0; 0; 0; 7] /\
  tensors demo_machine' !! 3%positive = Some [1; 2; 3; 4] /\
  preprocessImageForML sample_format rgb888_only (Some demo_frame) (Some 1%positive) 2
    demo_machine = Done true demo_result /\
  preprocessImageForML sample_format rgb888_only (Some demo_frame') (Some 3%positive) 2
    demo_machine' = Done true demo_result' /\
  0 <= 0 < 2 /\ 0 <= 1 < 2 /\
  exists v,
    tensor_at demo_result 1%positive (1 * 2 + 0) = Some v /\
    tensor_at demo_result' 3%positive (1 * 2 + 0) = Some v.
Proof.
  assert (Hfill : forall rgb,
            rgb888_only demo_pixels (len demo_frame) (format demo_frame) = Some rgb ->
            length rgb = Z.to_nat (rgb888_size demo_frame)).
  { intros rgb [= <-]. reflexivity. }
  split; [reflexivity|]. split; [reflexivity|]. split; [reflexivity|].
  split; [reflexivity|]. split; [reflexivity|]. split; [reflexivity|].
  split; [exact Hfill|]. split; [reflexivity|]. split; [reflexivity|].
  split; [vm_compute; reflexivity|]. split; [vm_compute; reflexivity|].
  split; [lia|]. split; [lia|].
  apply (preprocess_is_deterministic rgb888_only demo_frame demo_frame' 1%positive 3%positive
           2 demo_machine demo_machine' demo_result demo_result' demo_pixels
           [0; 0; 0; 0; 7] [1; 2; 3; 4] 0 1);
    [reflexivity | reflexivity | reflexivity | reflexivity | reflexivity | reflexivity
    | exact Hfill | reflexivity | reflexivity | vm_compute; reflexivity
    | vm_compute; reflexivity | lia | lia].
Defined.


(** * Further properties *)

(** ** [bilinear_interpolate] on its own *)

Section InRange.

Variables (img : list byte) (W H : Z) (x y : F32.float) (x1 y1 : Z).
Hypothesis Hx : F32.to_int x = Some x1.
Hypothesis Hy : F32.to_int y = Some y1.
Hypothesis Hx_range : 0 <= x1 < W.
Hypothesis Hy_range : 0 <= y1 < H.
Hypothesis Hlen : Z.of_nat (length img) = W * H.
Hypothesis Hsize : W * H <= INT_MAX.

Local Abbreviation x2 := (Z.min (x1 + 1) (W - 1)).
Local Abbreviation y2 := (Z.min (y1 + 1) (H - 1)).

Lemma corners_in_range : corners W H x y = Some (x1, y1, x2, y2).
Proof.
  assert (HW : W <= INT_MAX) by nia. assert (HH : H <= INT_MAX) by nia.
  unfold corners. rewrite Hx, Hy. cbn.
  rewrite !int_ok_in by (unfold INT_MIN, INT_MAX in *; lia). cbn.
  destruct (Z.geb_spec (x1 + 1) W); destruct (Z.geb_spec (y1 + 1) H);
    rewrite ?int_ok_in by (unfold INT_MIN, INT_MAX in *; lia); cbn;
    repeat f_equal; lia.
Qed.

Lemma offset_in_range b a :
  0 <= b < H -> 0 <= a < W -> offset b W a = Some (b * W + a).
Proof. intros Hb Ha. apply offset_in; unfold INT_MIN, INT_MAX in *; nia. Qed.

Lemma sample_offsets_in_range :
  sample_offsets W H x y = Some [y1 * W + x1; y1 * W + x2; y2 * W + x1; y2 * W + x2].
Proof.
  unfold sample_offsets. rewrite corners_in_range. cbn.
  rewrite !offset_in_range by lia. reflexivity.
Qed.

Lemma bilinear_value_in_range :
  bilinear_value img W H x y
  = F32.to_u8 (blend (byte_at img (y1 * W + x1)) (byte_at img (y1 * W + x2))
                     (byte_at img (y2 * W + x1)) (byte_at img (y2 * W + x2))
                     (F32.sub x (F32.of_Z x1)) (F32.sub y (F32.of_Z y1))).
Proof.
  unfold bilinear_value. rewrite corners_in_range. cbn.
  rewrite !offset_in_range by lia. cbn.
  rewrite !cell_lt by nia. reflexivity.
Qed.

End InRange.

(** X1.  Given a position whose integer parts [x1], [y1] lie in the image,
    [bilinear_interpolate] reads four samples, in this order, at
    [(x1, y1)], [(x2, y1)], [(x1, y2)] and [(x2, y2)], where [x2] and [y2]
    are [x1 + 1] and [y1 + 1] held back to the last column and row; all
    four lie inside the buffer.  When the integer part of their blend is
    a [uint8_t] value the call returns it, and the four loads are its
    only effect; otherwise the conversion, and with it the call, is
    undefined.  (The latter happens at positions with a negative
    fraction such as -0.5, whose integer part is 0.) *)
Theorem bilinear_reads_clamped_neighbourhood (m : machine) (img : loc) (gray : list byte)
    (width height : Z) (x y : F32.float) (x1 y1 : Z) :
  heap m !! img = Some gray ->
  Z.of_nat (length gray) = width * height ->
  width * height <= INT_MAX ->
  F32.to_int x = Some x1 -> F32.to_int y = Some y1 ->
  0 <= x1 < width -> 0 <= y1 < height ->
  let x2 := Z.min (x1 + 1) (width - 1) in
  let y2 := Z.min (y1 + 1) (height - 1) in
  let reads := [y1 * width + x1; y1 * width + x2; y2 * width + x1; y2 * width + x2] in
  Forall (fun i => 0 <= i < Z.of_nat (length gray)) reads /\
  exists p1 p2 p3 p4,
    gray !! Z.to_nat (y1 * width + x1) = Some p1 /\
    gray !! Z.to_nat (y1 * width + x2) = Some p2 /\
    gray !! Z.to_nat (y2 * width + x1) = Some p3 /\
    gray !! Z.to_nat (y2 * width + x2) = Some p4 /\
    bilinear_interpolate img width height x y m
    = match F32.to_u8 (blend p1 p2 p3 p4 (F32.sub x (F32.of_Z x1))
                             (F32.sub y (F32.of_Z y1))) with
      | Some pixel => Done pixel (with_trace m (reverse (EvLoad img <$> reads)))
      | None => Undefined
      end.
Proof.
  intros Himg Hlen Hsize Hx Hy Hxr Hyr x2 y2 reads.
  assert (Hin : Forall (fun i => 0 <= i < Z.of_nat (length gray)) reads).
  { unfold reads, x2, y2. repeat constructor; nia. }
  split; [exact Hin|].
  exists (byte_at gray (y1 * width + x1)), (byte_at gray (y1 * width + x2)),
         (byte_at gray (y2 * width + x1)), (byte_at gray (y2 * width + x2)).
  unfold reads in Hin. rewrite !Forall_cons in Hin.
  destruct Hin as (H1 & H2 & H3 & H4 & _).
  repeat split; try (apply list_lookup_lookup_total_lt; lia).
  rewrite (bilinear_interpolate_run _ _ _ _ _ _ gray Himg).
  rewrite (bilinear_value_in_range gray width height x y x1 y1) by assumption.
  rewrite (sample_offsets_in_range gray width height x y x1 y1) by assumption.
  rewrite fmap_reverse. reflexivity.
Qed.

(** X2.  At a position with integer coordinates (a, b) inside the image
    both fractional offsets vanish and [bilinear_interpolate] returns the
    byte at (a, b) itself, whatever its three neighbours hold. *)
Theorem bilinear_at_grid_point_is_pixel (m : machine) (img : loc) (gray : list byte)
    (width height a b : Z) :
  heap m !! img = Some gray ->
  Z.of_nat (length gray) = width * height ->
  width * height <= INT_MAX ->
  0 <= a < width -> 0 <= b < height ->
  a < 2 ^ 24 -> b < 2 ^ 24 ->
  exists pixel m',
    gray !! Z.to_nat (b * width + a) = Some pixel /\
    bilinear_interpolate img width height (F32.of_Z a) (F32.of_Z b) m = Done pixel m' /\
    heap m' = heap m /\ tensors m' = tensors m.
Proof.
  intros Himg Hlen Hsize Ha Hb Ha24 Hb24.
  exists (byte_at gray (b * width + a)). eexists. split.
  { apply list_lookup_lookup_total_lt. nia. }
  rewrite (bilinear_interpolate_run _ _ _ _ _ _ gray Himg).
  rewrite (bilinear_value_grid_total gray width height a b)
    by (try apply to_int_of_Z_small; assumption || lia).
  rewrite (sample_offsets_grid_total gray width height a b)
    by (try apply to_int_of_Z_small; assumption || lia).
  split; [reflexivity|]. split; reflexivity.
Qed.

(** X3.  Neither [x1] nor [y1] is checked against the image: when the
    position is NaN or infinite, or its integer part is no [int], or the
    first offset [y1 * width + x1] falls outside the buffer, the call has
    undefined behaviour (an out-of-bounds read or an undefined
    conversion). *)
Theorem bilinear_position_is_not_checked (m : machine) (img : loc) (gray : list byte)
    (width height : Z) (x y : F32.float) :
  heap m !! img = Some gray ->
  F32.to_int x = None \/ F32.to_int y = None \/
  (exists x1 y1, F32.to_int x = Some x1 /\ F32.to_int y = Some y1 /\
                 ~ (0 <= y1 * width + x1 < Z.of_nat (length gray))) ->
  bilinear_interpolate img width height x y m = Undefined.
Proof.
  intros Himg Hbad.
  rewrite (bilinear_interpolate_run _ _ _ _ _ _ gray Himg).
  assert (Hv : bilinear_value gray width height x y = None).
  { unfold bilinear_value, corners.
    destruct Hbad as [Hx | [Hy | (x1 & y1 & Hx & Hy & Hout)]].
    - rewrite Hx. reflexivity.
    - rewrite Hy. destruct (F32.to_int x); reflexivity.
    - rewrite Hx, Hy. cbn.
      destruct (int_ok (x1 + 1)) as [a|]; [|reflexivity]. cbn.
      destruct (int_ok (y1 + 1)) as [b|]; [|reflexivity]. cbn.
      destruct (if a >=? width then int_ok (width - 1) else Some a) as [x2|]; [|reflexivity].
      cbn.
      destruct (if b >=? height then int_ok (height - 1) else Some b) as [y2|]; [|reflexivity].
      cbn.
      destruct (offset y1 width x1) as [i1|] eqn:Hi1; [|reflexivity]. cbn.
      apply offset_Some in Hi1. subst i1.
      apply cell_None in Hout. rewrite Hout. reflexivity. }
  rewrite Hv. reflexivity.
Qed.

(** ** The exits of [preprocessImageForML] *)

Lemma omap_none_Forall {A} (f : event -> option A) (P : event -> Prop) (tr : list event) :
  Forall P tr -> (forall ev, P ev -> f ev = None) -> omap f tr = [].
Proof.
  intros Htr Hf. induction Htr as [|ev tr Hev _ IH]; [reflexivity|].
  cbn. rewrite (Hf ev Hev). exact IH.
Qed.

Lemma gray_trace_events rgb888_buf gray_buf rgb n :
  Forall (gray_event rgb888_buf gray_buf) (gray_trace rgb888_buf gray_buf rgb n).
Proof.
  unfold gray_trace. apply Forall_bind, Forall_forall. intros j _.
  unfold gray_events, gray_event.
  repeat (apply Forall_cons; split); [right | left | left | left | apply Forall_nil]; eauto.
Qed.

Lemma resize_trace_events gray_buf out gray W H ts xr yr n :
  Forall (resize_event gray_buf out) (resize_trace gray_buf out gray W H ts xr yr n).
Proof.
  unfold resize_trace. apply Forall_bind, Forall_forall. intros k _.
  unfold resize_events. constructor.
  - right. eauto.
  - apply Forall_fmap, Forall_forall. intros i _. left. eauto.
Qed.

Ltac settle H :=
  match type of H with
  | Done _ ?s = Done _ ?s' => assert (s' = s) as -> by congruence
  end.

Section Exits.

Context {pixformat_t : Type}.
Variable fmt2rgb888 : list byte -> Z -> pixformat_t -> option (list byte).
Variables (fb : camera_fb_t pixformat_t) (output_buffer : loc) (target_size : Z).
Variables (m : machine) (src : list byte) (t0 : list Z).

Local Abbreviation run :=
  (preprocessImageForML pixformat_t fmt2rgb888 (Some fb) (Some output_buffer) target_size m).

Lemma leaked_decode_failed g rest :
  leaked m (decode_failed_state fb m g rest) = {[ rgb_block m ]}.
Proof.
  unfold leaked, decode_failed_state. cbn [heap]. rewrite dom_insert_L.
  pose proof (is_fresh (dom (heap m))) as Hfresh. fold (rgb_block m) in Hfresh.
  apply set_eq. intros p. rewrite elem_of_difference, elem_of_union, elem_of_singleton.
  split.
  - intros [[-> | Hp] Hn]; [reflexivity | contradiction].
  - intros ->. split; [left; reflexivity | exact Hfresh].
Qed.

(** X4.  The first [malloc] asks for [width * height * 3] bytes (in
    [size_t] arithmetic).  When it answers with a null pointer the call
    logs the failure and returns [false]; the converter is never called
    and memory is as it was. *)
Theorem rgb_allocation_failure_is_clean :
  head (oracle m) = None \/ head (oracle m) = Some None ->
  exists m',
    run = Done false m' /\
    new_events m m'
    = [EvPrint "Failed to allocate RGB888 buffer" [];
       EvMalloc (wrap_size_t (width fb * height fb * 3)) None;
       EvPrint "Converting JPEG to RGB..." []] /\
    heap m' = heap m /\ tensors m' = tensors m.
Proof.
  intros Hor. eexists. rewrite (preprocess_rgb_refused fmt2rgb888) by exact Hor.
  split; [reflexivity|]. split; [|split; reflexivity].
  apply new_events_trace. reflexivity.
Qed.

(** X5.  When the RGB888 buffer has been filled and the second [malloc],
    for the gray buffer, answers with a null pointer, the call frees the
    RGB888 buffer, logs the failure and returns [false]: nothing stays
    allocated and no tensor element is written. *)
Theorem gray_allocation_failure_frees_rgb (g : list byte)
    (rest : list (option (list byte))) (rgb : list byte) :
  oracle m = Some g :: rest ->
  head rest = None \/ head rest = Some None ->
  frame_bytes fb m = Some src ->
  tensors m !! output_buffer = Some t0 ->
  fmt2rgb888 src (len fb) (format fb) = Some rgb ->
  (length rgb <= Z.to_nat (rgb888_size fb))%nat ->
  INT_MIN <= frame_width fb * frame_height fb <= INT_MAX ->
  exists m',
    run = Done false m' /\
    granted (new_events m m') = [rgb_block m] /\
    releases (new_events m m') = [rgb_block m] /\
    writes (new_events m m') = [] /\
    heap m' = heap m /\ tensors m' = tensors m.
Proof.
  intros Hor Hrest Hsrc Ht Hconv Hlen Hn.
  exists (gray_refused_state fb target_size m rest).
  rewrite (preprocess_cases fmt2rgb888 fb output_buffer target_size m g rest src t0)
    by assumption.
  rewrite Hconv. apply Nat.leb_le in Hlen. rewrite Hlen.
  apply in_int_true in Hn. fold (pixel_count fb) in Hn. rewrite Hn. cbn [andb].
  assert (Hout : match rest with
                 | Some g2 :: _ => False
                 | _ => True
                 end).
  { destruct rest as [|[g2|] ?]; cbn in Hrest; [exact I | | exact I].
    destruct Hrest; discriminate. }
  destruct rest as [|[g2|] rest']; [| contradiction |];
    (split; [reflexivity|]);
    erewrite new_events_trace by reflexivity; repeat split; reflexivity.
Qed.

(** X6.  A call that returns [false] has written nothing: no tensor
    element and no byte.  It leaves memory as it found it, except when
    the converter has reported failure: then exactly the RGB888 block
    stays allocated. *)
Theorem failed_call_writes_nothing (m' : machine) :
  frame_bytes fb m = Some src ->
  tensors m !! output_buffer = Some t0 ->
  run = Done false m' ->
  tensors m' = tensors m /\
  writes (new_events m m') = [] /\
  stores (new_events m m') = [] /\
  (heap m' = heap m \/
   fmt2rgb888 src (len fb) (format fb) = None /\ leaked m m' = {[ rgb_block m ]}).
Proof.
  intros Hsrc Ht Hrun.
  destruct (oracle m) as [|[g1|] o1] eqn:Hor.
  - rewrite (preprocess_rgb_refused fmt2rgb888) in Hrun by (rewrite Hor; auto).
    settle Hrun. erewrite new_events_trace by reflexivity.
    repeat split; try reflexivity. left. reflexivity.
  - rewrite (preprocess_cases fmt2rgb888 fb output_buffer target_size m g1 o1 src t0)
      in Hrun by assumption.
    destruct (fmt2rgb888 src (len fb) (format fb)) as [rgb|] eqn:Hconv.
    + destruct ((length rgb <=? Z.to_nat (rgb888_size fb))%nat && in_int (pixel_count fb));
        [|discriminate].
      destruct o1 as [|[g2|] rest].
      * settle Hrun. erewrite new_events_trace by reflexivity.
        repeat split; try reflexivity. left. reflexivity.
      * cbv zeta in Hrun. destruct (stages_ok _ _ _ _ _ _); discriminate.
      * settle Hrun. erewrite new_events_trace by reflexivity.
        repeat split; try reflexivity. left. reflexivity.
    + settle Hrun. erewrite new_events_trace by reflexivity.
      repeat split; try reflexivity. right. split; [reflexivity|].
      apply leaked_decode_failed.
  - rewrite (preprocess_rgb_refused fmt2rgb888) in Hrun by (rewrite Hor; auto).
    settle Hrun. erewrite new_events_trace by reflexivity.
    repeat split; try reflexivity. left. reflexivity.
Qed.

(** X7.  A call that returns [true] has been granted two blocks, the
    RGB888 buffer and then the gray buffer, and has freed each once, the
    RGB888 buffer before the resize loops begin: up to that [free] no
    tensor element is written and every load is from the RGB888 buffer;
    after it every load is from the gray buffer.  The caller's frame
    buffer is read by the converter only. *)
Theorem success_frees_rgb_before_resizing (m' : machine) :
  frame_bytes fb m = Some src ->
  tensors m !! output_buffer = Some t0 ->
  run = Done true m' ->
  granted (new_events m m') = [gray_block m; rgb_block m] /\
  releases (new_events m m') = [gray_block m; rgb_block m] /\
  heap m' = heap m /\
  exists after before,
    new_events m m' = after ++ EvFree (rgb_block m) :: before /\
    writes before = [] /\
    Forall (fun a => a.1 = rgb_block m) (loads before) /\
    Forall (fun a => a.1 = gray_block m) (loads after).
Proof.
  intros Hsrc Ht Hrun.
  destruct (success_inv fmt2rgb888 fb output_buffer target_size m m' src t0 Hsrc Ht Hrun)
    as (g1 & g2 & rest & rgb & Hor & Hconv & Hlen & Hn & Hdec & Hok & ->).
  cbv zeta in Hok. clear Hok.
  set (rgb_buf := decoded_rgb fmt2rgb888 fb m).
  set (gray_buf := gray_filled fb rgb_buf g2).
  erewrite new_events_trace by reflexivity.
  pose proof (gray_trace_events (rgb_block m) (gray_block m) rgb_buf
                (Z.max 0 (pixel_count fb))) as Hg.
  pose proof (resize_trace_events (gray_block m) output_buffer gray_buf (frame_width fb)
                (frame_height fb) target_size (x_scale fb target_size)
                (y_scale fb target_size) (written target_size)) as Hr.
  unfold success_trace.
  split; [|split; [|split; [reflexivity|]]].
  - unfold granted. rewrite !omap_app.
    rewrite (omap_none_Forall _ _ _ Hr), (omap_none_Forall _ _ _ Hg); [reflexivity | |];
      intros ev [(i & ->) | (i & v & ->)]; reflexivity.
  - unfold releases. rewrite !omap_app.
    rewrite (omap_none_Forall _ _ _ Hr), (omap_none_Forall _ _ _ Hg); [reflexivity | |];
      intros ev [(i & ->) | (i & v & ->)]; reflexivity.
  - eexists ([EvPrint "Preprocessing complete!" []; EvFree (gray_block m)]
             ++ resize_trace _ _ _ _ _ _ _ _ _ ++ [EvPrint "Resizing image..." []]).
    eexists (gray_trace _ _ _ _ ++ _).
    split; [|split; [|split]].
    + rewrite <- !app_assoc. cbn [app]. reflexivity.
    + unfold writes. rewrite omap_app.
      rewrite (omap_none_Forall _ _ _ Hg); [reflexivity|].
      intros ev [(i & ->) | (i & v & ->)]; reflexivity.
    + unfold loads. rewrite omap_app. apply Forall_app. split; [|cbn; constructor].
      clear -Hg. induction Hg as [|ev tr Hev _ IH]; [constructor|].
      destruct Hev as [(i & ->) | (i & v & ->)]; cbn; [constructor; [reflexivity|]|];
        exact IH.
    + unfold loads. rewrite !omap_app. cbn [omap app]. rewrite app_nil_r.
      clear -Hr. induction Hr as [|ev tr Hev _ IH]; [constructor|].
      destruct Hev as [(i & ->) | (i & v & ->)]; cbn; [constructor; [reflexivity|]|];
        exact IH.
Qed.

End Exits.

(** ** The interpolated sample lies between its neighbours *)

(** A sample times two weights of value at most 2. *)
Lemma weighted_rel (p : byte) (la lb : Z) (wa wb : F32.float) :
  positive_normal la wa -> positive_normal lb wb ->
  -100 <= la <= 0 -> -100 <= lb <= 0 -> -172 <= la + lb ->
  scaled_value wa <= 2 ^ 201 -> scaled_value wb <= 2 ^ 201 ->
  let t := F32.mul (F32.mul (F32.of_Z (u8_val p)) wa) wb in
  positive_normal (la + lb + 23) t /\
  scaled_value t <= 2 ^ 211 /\
  (2 ^ 23 - 1) * (2 ^ 23 - 1) * (u8_val p * (scaled_value wa * scaled_value wb))
    <= 2 ^ 23 * 2 ^ 23 * (2 ^ 200 * scaled_value t) /\
  2 ^ 23 * 2 ^ 23 * (2 ^ 200 * scaled_value t)
    <= (2 ^ 23 + 1) * (2 ^ 23 + 1) * (u8_val p * (scaled_value wa * scaled_value wb)).
Proof.
  intros Ha Hb Hla Hlb Hsum Hva Hvb t.
  pose proof (u8_val_range p) as Hp.
  pose proof (scaled_value_nonneg wa) as Ha0. pose proof (scaled_value_nonneg wb) as Hb0.
  destruct (of_Z_scaled (u8_val p)) as [Hn Hs]; [lia|].
  assert (HN : 0 < 2 ^ 200) by (apply Z.pow_pos_nonneg; lia).
  destruct (mul_rel (-23) la (F32.of_Z (u8_val p)) wa Hn Ha) as (Hu & Hul & Huu);
    [lia | lia | lia | rewrite Hs; lia | lia |].
  set (u := F32.mul (F32.of_Z (u8_val p)) wa) in *. rewrite Hs in Hul, Huu.
  pose proof (scaled_value_nonneg u) as Hu0.
  assert (Hul' : u8_val p * scaled_value wa * (2 ^ 23 - 1) <= 2 ^ 23 * scaled_value u) by nia.
  assert (Huu' : 2 ^ 23 * scaled_value u <= u8_val p * scaled_value wa * (2 ^ 23 + 1)) by nia.
  assert (Hub : scaled_value u <= 2 ^ 210).
  { assert (u8_val p * scaled_value wa <= 255 * 2 ^ 201) by nia.
    change (2 ^ 210) with (512 * 2 ^ 201). lia. }
  destruct (mul_rel (-23 + la + 23) lb u wb Hu Hb) as (Ht & Htl & Htu);
    [lia | lia | lia | lia | lia |].
  fold t in Ht, Htl, Htu. pose proof (scaled_value_nonneg t) as Ht0.
  split; [apply (positive_normal_weaken (-23 + la + 23 + lb + 23)); [lia | exact Ht]|].
  set (P := u8_val p) in *. set (A := scaled_value wa) in *. set (B := scaled_value wb) in *.
  set (U := scaled_value u) in *. set (T := scaled_value t) in *.
  change (2 ^ 23) with 8388608 in *.
  assert (K1 : (8388608 * U) * ((8388608 + 1) * B) <= (P * A * (8388608 + 1)) * ((8388608 + 1) * B)).
  { apply Z.mul_le_mono_nonneg_r; lia. }
  assert (K2 : (P * A * (8388608 - 1)) * ((8388608 - 1) * B) <= (8388608 * U) * ((8388608 - 1) * B)).
  { apply Z.mul_le_mono_nonneg_r; lia. }
  assert (Hupper : 8388608 * 8388608 * (2 ^ 200 * T) <= (8388608 + 1) * (8388608 + 1) * (P * (A * B)))
    by lia.
  assert (Hlower : (8388608 - 1) * (8388608 - 1) * (P * (A * B)) <= 8388608 * 8388608 * (2 ^ 200 * T))
    by lia.
  split; [|split; assumption].
  assert (HAB : A * B <= 2 ^ 201 * 2 ^ 201) by (apply Z.mul_le_mono_nonneg; lia).
  assert (HPAB : P * (A * B) <= 255 * (2 ^ 201 * 2 ^ 201)).
  { apply Z.mul_le_mono_nonneg; lia. }
  change (2 ^ 201) with (2 * 2 ^ 200) in HPAB. change (2 ^ 211) with (2048 * 2 ^ 200).
  set (N := 2 ^ 200) in *. nia.
Qed.

Section BlendBound.

Variables (p1 p2 p3 p4 : byte) (dx dy : F32.float) (lo hi : Z).
Hypothesis Hdx : positive_normal (-47) dx.
Hypothesis Hdy : positive_normal (-47) dy.
Hypothesis Hdx1 : scaled_value dx < 2 ^ 200.
Hypothesis Hdy1 : scaled_value dy < 2 ^ 200.
Hypothesis H1 : lo <= u8_val p1 <= hi.
Hypothesis H2 : lo <= u8_val p2 <= hi.
Hypothesis H3 : lo <= u8_val p3 <= hi.
Hypothesis H4 : lo <= u8_val p4 <= hi.
Hypothesis Hlo0 : 0 <= lo.
Hypothesis Hhi255 : hi <= 255.

(** With fractions [dx], [dy] below 1 the blend is a positive number in
    [lo - 1, hi + 1), for bounds [lo <= hi] on the four samples. *)
Lemma blend_scaled :
  positive_normal (-120) (blend p1 p2 p3 p4 dx dy) /\
  (lo - 1) * 2 ^ 200 <= scaled_value (blend p1 p2 p3 p4 dx dy) /\
  scaled_value (blend p1 p2 p3 p4 dx dy) < (hi + 1) * 2 ^ 200.
Proof.
  pose proof (u8_val_range p1) as R1. pose proof (u8_val_range p2) as R2.
  pose proof (u8_val_range p3) as R3. pose proof (u8_val_range p4) as R4.
  destruct (one_minus (-47) dx Hdx ltac:(lia) Hdx1) as (Hwx & Hwxl & Hwxu).
  destruct (one_minus (-47) dy Hdy ltac:(lia) Hdy1) as (Hwy & Hwyl & Hwyu).
  unfold blend. cbv zeta.
  set (wx := F32.sub (F32.of_Z 1) dx) in *. set (wy := F32.sub (F32.of_Z 1) dy) in *.
  pose proof (scaled_value_nonneg dx) as Dx0. pose proof (scaled_value_nonneg dy) as Dy0.
  pose proof (scaled_value_nonneg wx) as Wx0. pose proof (scaled_value_nonneg wy) as Wy0.
  assert (HN : 0 < 2 ^ 200) by (apply Z.pow_pos_nonneg; lia).
  assert (Bwx : scaled_value wx <= 2 ^ 201).
  { change (2 ^ 201) with (2 * 2 ^ 200). change (2 ^ 23) with 8388608 in *. lia. }
  assert (Bwy : scaled_value wy <= 2 ^ 201).
  { change (2 ^ 201) with (2 * 2 ^ 200). change (2 ^ 23) with 8388608 in *. lia. }
  assert (Bdx : scaled_value dx <= 2 ^ 201) by (change (2 ^ 201) with (2 * 2 ^ 200); lia).
  assert (Bdy : scaled_value dy <= 2 ^ 201) by (change (2 ^ 201) with (2 * 2 ^ 200); lia).
  destruct (weighted_rel p1 (-48) (-48) wx wy Hwx Hwy) as (T1 & B1 & L1 & U1); try lia.
  destruct (weighted_rel p2 (-47) (-48) dx wy Hdx Hwy) as (T2 & B2 & L2 & U2); try lia.
  destruct (weighted_rel p3 (-48) (-47) wx dy Hwx Hdy) as (T3 & B3 & L3 & U3); try lia.
  destruct (weighted_rel p4 (-47) (-47) dx dy Hdx Hdy) as (T4 & B4 & L4 & U4); try lia.
  cbv zeta in *.
  set (t1 := F32.mul (F32.mul (F32.of_Z (u8_val p1)) wx) wy) in *.
  set (t2 := F32.mul (F32.mul (F32.of_Z (u8_val p2)) dx) wy) in *.
  set (t3 := F32.mul (F32.mul (F32.of_Z (u8_val p3)) wx) dy) in *.
  set (t4 := F32.mul (F32.mul (F32.of_Z (u8_val p4)) dx) dy) in *.
  pose proof (scaled_value_nonneg t1). pose proof (scaled_value_nonneg t2).
  pose proof (scaled_value_nonneg t3). pose proof (scaled_value_nonneg t4).
  assert (B211 : 2 ^ 220 = 512 * 2 ^ 211) by reflexivity.
  destruct (add_rel (-120) t1 t2) as (S1 & S1l & S1u);
    [eapply positive_normal_weaken; [|exact T1]; lia
    | eapply positive_normal_weaken; [|exact T2]; lia | lia | lia | lia |].
  set (s1 := F32.add t1 t2) in *. pose proof (scaled_value_nonneg s1).
  change (2 ^ 23) with 8388608 in *.
  destruct (add_rel (-120) s1 t3 S1) as (S2 & S2l & S2u);
    [eapply positive_normal_weaken; [|exact T3]; lia | lia | lia | lia |].
  set (s2 := F32.add s1 t3) in *. pose proof (scaled_value_nonneg s2).
  destruct (add_rel (-120) s2 t4 S2) as (S3 & S3l & S3u);
    [eapply positive_normal_weaken; [|exact T4]; lia | lia | lia | lia |].
  set (v := F32.add s2 t4) in *.
  split; [exact S3|].
  set (Wx := scaled_value wx) in *. set (Wy := scaled_value wy) in *.
  set (Dx := scaled_value dx) in *. set (Dy := scaled_value dy) in *.
  set (V1 := scaled_value t1) in *. set (V2 := scaled_value t2) in *.
  set (V3 := scaled_value t3) in *. set (V4 := scaled_value t4) in *.
  set (V := scaled_value v) in *.
  set (N := 2 ^ 200) in *.
  set (a := 8388608) in *.
  (* the weights of each axis add up to 1, within one part in 2^23 *)
  assert (Xu : a * (Wx + Dx) <= (a + 1) * N) by lia.
  assert (Xl : (a - 1) * N <= a * (Wx + Dx)) by lia.
  assert (Yu : a * (Wy + Dy) <= (a + 1) * N) by lia.
  assert (Yl : (a - 1) * N <= a * (Wy + Dy)) by lia.
  assert (XYu : (a * (Wx + Dx)) * (a * (Wy + Dy)) <= ((a + 1) * N) * ((a + 1) * N)).
  { apply Z.mul_le_mono_nonneg; lia. }
  assert (XYl : ((a - 1) * N) * ((a - 1) * N) <= (a * (Wx + Dx)) * (a * (Wy + Dy))).
  { apply Z.mul_le_mono_nonneg; lia. }
  (* every sample is within [lo, hi] *)
  assert (W11 : 0 <= Wx * Wy) by (apply Z.mul_nonneg_nonneg; lia).
  assert (W21 : 0 <= Dx * Wy) by (apply Z.mul_nonneg_nonneg; lia).
  assert (W12 : 0 <= Wx * Dy) by (apply Z.mul_nonneg_nonneg; lia).
  assert (W22 : 0 <= Dx * Dy) by (apply Z.mul_nonneg_nonneg; lia).
  assert (Q1u : u8_val p1 * (Wx * Wy) <= hi * (Wx * Wy)) by (apply Z.mul_le_mono_nonneg_r; lia).
  assert (Q2u : u8_val p2 * (Dx * Wy) <= hi * (Dx * Wy)) by (apply Z.mul_le_mono_nonneg_r; lia).
  assert (Q3u : u8_val p3 * (Wx * Dy) <= hi * (Wx * Dy)) by (apply Z.mul_le_mono_nonneg_r; lia).
  assert (Q4u : u8_val p4 * (Dx * Dy) <= hi * (Dx * Dy)) by (apply Z.mul_le_mono_nonneg_r; lia).
  assert (Q1l : lo * (Wx * Wy) <= u8_val p1 * (Wx * Wy)) by (apply Z.mul_le_mono_nonneg_r; lia).
  assert (Q2l : lo * (Dx * Wy) <= u8_val p2 * (Dx * Wy)) by (apply Z.mul_le_mono_nonneg_r; lia).
  assert (Q3l : lo * (Wx * Dy) <= u8_val p3 * (Wx * Dy)) by (apply Z.mul_le_mono_nonneg_r; lia).
  assert (Q4l : lo * (Dx * Dy) <= u8_val p4 * (Dx * Dy)) by (apply Z.mul_le_mono_nonneg_r; lia).
  set (G := (Wx + Dx) * (Wy + Dy)) in *.
  assert (EG : G = Wx * Wy + Dx * Wy + Wx * Dy + Dx * Dy) by (unfold G; ring).
  assert (G0 : 0 <= G) by (unfold G; apply Z.mul_nonneg_nonneg; lia).
  assert (Su : a * a * (N * (V1 + V2 + V3 + V4)) <= (a + 1) * (a + 1) * (hi * G)).
  { rewrite EG. lia. }
  assert (Sl : (a - 1) * (a - 1) * (lo * G) <= a * a * (N * (V1 + V2 + V3 + V4))).
  { rewrite EG. lia. }
  assert (Gu : a * a * G <= (a + 1) * (a + 1) * (N * N)) by (unfold G; lia).
  assert (Gl : (a - 1) * (a - 1) * (N * N) <= a * a * G) by (unfold G; lia).
  assert (Hlo_hi : lo <= hi) by lia.
  assert (Hhi : 0 <= hi <= 255) by lia.
  assert (Hlo255 : lo <= 255) by lia.
  (* the three additions *)
  assert (Au : a * a * a * V <= (a + 1) * (a + 1) * (a + 1) * (V1 + V2 + V3 + V4)) by lia.
  assert (Al : (a - 1) * (a - 1) * (a - 1) * (V1 + V2 + V3 + V4) <= a * a * a * V) by lia.
  assert (HGu : hi * (a * a * G) <= hi * ((a + 1) * (a + 1) * (N * N))).
  { apply Z.mul_le_mono_nonneg_l; lia. }
  split.
  - destruct (Z_le_gt_dec lo 0) as [Hneg | Hpos].
    + assert (0 <= V) by apply scaled_value_nonneg. nia.
    + assert (HGl : lo * ((a - 1) * (a - 1) * (N * N)) <= lo * (a * a * G)).
      { apply Z.mul_le_mono_nonneg_l; lia. }
      (* a^7 N V >= (a-1)^7 lo N N *)
      assert (C1 : (a - 1) * (a - 1) * (a - 1) * (a - 1) * (a - 1) * (lo * (a * a * G))
                   <= a * a * a * a * a * a * a * (N * V)) by nia.
      assert (C2 : (a - 1) * (a - 1) * (a - 1) * (a - 1) * (a - 1) * (a - 1) * (a - 1)
                     * (lo * (N * N))
                   <= a * a * a * a * a * a * a * (N * V)) by nia.
      assert (C3 : (a - 1) * (a - 1) * (a - 1) * (a - 1) * (a - 1) * (a - 1) * (a - 1)
                     * (lo * N)
                   <= a * a * a * a * a * a * a * V).
      { apply (Z.mul_le_mono_pos_l _ _ N); [lia|]. lia. }
      unfold a in C3. lia.
  - assert (C1 : a * a * a * a * a * a * a * (N * V)
                 <= (a + 1) * (a + 1) * (a + 1) * (a + 1) * (a + 1) * (hi * (a * a * G))) by nia.
    assert (C2 : a * a * a * a * a * a * a * (N * V)
                 <= (a + 1) * (a + 1) * (a + 1) * (a + 1) * (a + 1) * (a + 1) * (a + 1)
                    * (hi * (N * N))) by nia.
    assert (C3 : a * a * a * a * a * a * a * V
                 <= (a + 1) * (a + 1) * (a + 1) * (a + 1) * (a + 1) * (a + 1) * (a + 1)
                    * (hi * N)).
    { apply (Z.mul_le_mono_pos_l _ _ N); [lia|]. lia. }
    unfold a in C3. lia.
Qed.

End BlendBound.

(** The conversion of the blend to [uint8_t] is defined, and its result
    lies between the samples. *)
Lemma blend_cast_between (p1 p2 p3 p4 : byte) (dx dy : F32.float) (lo hi : Z) :
  positive_normal (-47) dx -> positive_normal (-47) dy ->
  scaled_value dx < 2 ^ 200 -> scaled_value dy < 2 ^ 200 ->
  lo <= u8_val p1 <= hi -> lo <= u8_val p2 <= hi ->
  lo <= u8_val p3 <= hi -> lo <= u8_val p4 <= hi ->
  exists pixel,
    F32.to_u8 (blend p1 p2 p3 p4 dx dy) = Some pixel /\
    F32.trunc (blend p1 p2 p3 p4 dx dy) = Some (u8_val pixel) /\
    lo - 1 <= u8_val pixel <= hi.
Proof.
  intros Hdx Hdy Hx1 Hy1 H1 H2 H3 H4.
  pose proof (u8_val_range p1) as R1. pose proof (u8_val_range p2) as R2.
  pose proof (u8_val_range p3) as R3. pose proof (u8_val_range p4) as R4.
  set (l := Z.min (u8_val p1) (Z.min (u8_val p2) (Z.min (u8_val p3) (u8_val p4)))).
  set (h := Z.max (u8_val p1) (Z.max (u8_val p2) (Z.max (u8_val p3) (u8_val p4)))).
  destruct (blend_scaled p1 p2 p3 p4 dx dy l h) as (Hn & Hl & Hu);
    try assumption; try (unfold l, h; lia).
  pose proof (scaled_value_nonneg (blend p1 p2 p3 p4 dx dy)) as H0.
  pose proof (trunc_scaled (-120) _ Hn ltac:(lia)) as Ht.
  assert (Hp : 0 < 2 ^ 200) by (apply Z.pow_pos_nonneg; lia).
  set (z := scaled_value (blend p1 p2 p3 p4 dx dy) / 2 ^ 200) in *.
  assert (Hq : l - 1 <= z <= h).
  { split.
    - apply Z.div_le_lower_bound; lia.
    - apply Z.lt_succ_r, Z.div_lt_upper_bound; lia. }
  assert (Hq0 : 0 <= z) by (apply Z.div_pos; lia).
  assert (Hv : u8_val (u8_of_Z z) = z).
  { rewrite u8_val_of_Z. apply Z.mod_small. unfold l, h in *. lia. }
  exists (u8_of_Z z). split; [|split].
  - apply to_u8_of_trunc; [exact Ht | unfold l, h in *; lia].
  - rewrite Hv. exact Ht.
  - rewrite Hv. unfold l, h in *. lia.
Qed.

(** The source coordinate [x * (W / ts)] is [+0] or at least [2^-24]. *)
Lemma scaled_coordinate_normal (x W ts : Z) :
  1 <= W < 2 ^ 24 -> 0 <= x < ts -> ts <= 2 ^ 21 ->
  positive_normal (-47) (F32.mul (F32.of_Z x) (F32.div (F32.of_Z W) (F32.of_Z ts))).
Proof.
  intros HW Hx Hts.
  destruct W as [|pW|pW]; try lia. destruct ts as [|pT|pT]; try lia.
  destruct (of_Z_pos_small pW) as (mW & eW & -> & HdW & HeW & HmW); [lia|].
  destruct (of_Z_pos_small pT) as (mT & eT & -> & HdT & HeT & HmT); [lia|].
  destruct (div_upper mW mT eW eT HdW HdT) as (mr & er & -> & Hdr & Her & Hr); [lia|].
  destruct x as [|pX|pX]; [exact I | | lia].
  destruct (of_Z_pos_small pX) as (mX & eX & -> & HdX & HeX & HmX); [lia|].
  destruct (mul_rounded mX mr eX er HdX Hdr) as (ms & es & -> & Hds & Hes & _); [lia|].
  split; [exact Hds | lia].
Qed.

Lemma byte_at_between (l : list byte) (i lo hi : Z) :
  Forall (fun c => lo <= u8_val c <= hi) l ->
  0 <= i < Z.of_nat (length l) ->
  lo <= u8_val (byte_at l i) <= hi.
Proof.
  intros Hall Hi. rewrite Forall_lookup in Hall.
  apply (Hall (Z.to_nat i)). unfold byte_at. apply list_lookup_lookup_total_lt. lia.
Qed.

(** Samples in [lo, hi] give an interpolated value in [lo - 1, hi], at
    every position whose coordinates are [+0] or at least [2^-24] and
    whose integer parts lie in the image. *)
Lemma bilinear_value_between (gray : list byte) (W H : Z) (x y : F32.float)
    (x1 y1 lo hi : Z) :
  Forall (fun g => lo <= u8_val g <= hi) gray ->
  Z.of_nat (length gray) = W * H -> W * H <= INT_MAX ->
  W <= 2 ^ 24 -> H <= 2 ^ 24 ->
  positive_normal (-47) x -> positive_normal (-47) y ->
  F32.to_int x = Some x1 -> F32.to_int y = Some y1 ->
  0 <= x1 < W -> 0 <= y1 < H ->
  exists p, bilinear_value gray W H x y = Some p /\ lo - 1 <= u8_val p <= hi.
Proof.
  intros Hall Hlen Hsize HW HH Hnx Hny Hx Hy Hxr Hyr.
  rewrite (bilinear_value_in_range gray W H x y x1 y1) by assumption.
  assert (Htx : F32.trunc x = Some x1).
  { unfold F32.to_int in Hx. destruct (F32.trunc x) as [z|]; [|discriminate].
    destruct (in_int z); [congruence | discriminate]. }
  assert (Hty : F32.trunc y = Some y1).
  { unfold F32.to_int in Hy. destruct (F32.trunc y) as [z|]; [|discriminate].
    destruct (in_int z); [congruence | discriminate]. }
  destruct (fractional_offset x x1 Hnx Htx ltac:(lia)) as (Hdx & _ & Hdx1).
  destruct (fractional_offset y y1 Hny Hty ltac:(lia)) as (Hdy & _ & Hdy1).
  cbv zeta in Hdx, Hdx1, Hdy, Hdy1.
  set (W2 := Z.min (x1 + 1) (W - 1)). set (H2 := Z.min (y1 + 1) (H - 1)).
  destruct (blend_cast_between
              (byte_at gray (y1 * W + x1)) (byte_at gray (y1 * W + W2))
              (byte_at gray (H2 * W + x1)) (byte_at gray (H2 * W + W2))
              _ _ lo hi Hdx Hdy) as (p & Hp & _ & Hr);
    try lia; try (apply byte_at_between; [assumption | unfold W2, H2; nia]).
  exists p. split; [exact Hp | exact Hr].
Qed.

(** Every interpolated value is defined, whatever the image holds. *)
Lemma bilinear_value_defined (gray : list byte) (W H : Z) (x y : F32.float) (x1 y1 : Z) :
  Z.of_nat (length gray) = W * H -> W * H <= INT_MAX ->
  W <= 2 ^ 24 -> H <= 2 ^ 24 ->
  positive_normal (-47) x -> positive_normal (-47) y ->
  F32.to_int x = Some x1 -> F32.to_int y = Some y1 ->
  0 <= x1 < W -> 0 <= y1 < H ->
  is_Some (bilinear_value gray W H x y).
Proof.
  intros Hlen Hsize HW HH Hnx Hny Hx Hy Hxr Hyr.
  destruct (bilinear_value_between gray W H x y x1 y1 0 255) as (p & Hp & _);
    try assumption; [|exists p; exact Hp].
  apply Forall_forall. intros g _. pose proof (u8_val_range g). lia.
Qed.

(** ** Frames the pipeline handles without undefined behaviour *)

Lemma wrap_int_small (z : Z) : 0 <= z <= INT_MAX -> wrap_int z = z.
Proof.
  intros Hz. unfold wrap_int, INT_MAX in *.
  rewrite Z.mod_small by lia. lia.
Qed.

Lemma wrap_size_t_small (z : Z) : 0 <= z <= INT_MAX -> wrap_size_t z = z.
Proof. intros Hz. unfold wrap_size_t, INT_MAX in *. apply Z.mod_small. lia. Qed.

Section WellFormed.

Context {pixformat_t : Type}.
Variable fmt2rgb888 : list byte -> Z -> pixformat_t -> option (list byte).
Variables (fb : camera_fb_t pixformat_t) (output_buffer : loc) (target_size : Z).
Variables (m : machine) (src : list byte) (t0 : list Z).
Variables (g1 g2 : list byte) (rest : list (option (list byte))) (rgb : list byte).

Hypothesis HW : 1 <= width fb.
Hypothesis HH : 1 <= height fb.
Hypothesis Hsize : width fb * height fb * 3 <= INT_MAX.

Lemma frame_width_eq : frame_width fb = width fb.
Proof. apply wrap_int_small. nia. Qed.

Lemma frame_height_eq : frame_height fb = height fb.
Proof. apply wrap_int_small. nia. Qed.

Lemma pixel_count_eq : pixel_count fb = width fb * height fb.
Proof. unfold pixel_count. rewrite frame_width_eq, frame_height_eq. reflexivity. Qed.

Lemma rgb888_size_eq : rgb888_size fb = width fb * height fb * 3.
Proof. apply wrap_size_t_small. nia. Qed.

Lemma pixel_count_in_int : in_int (pixel_count fb) = true.
Proof. apply in_int_true. rewrite pixel_count_eq. unfold INT_MIN, INT_MAX in *. nia. Qed.

Lemma gray_fresh_length : length (gray_fresh fb g2) = Z.to_nat (width fb * height fb).
Proof.
  unfold gray_fresh. rewrite length_resize, pixel_count_eq, wrap_size_t_small; [reflexivity|].
  nia.
Qed.

Lemma gray_filled_image :
  gray_filled fb (rgb_filled fb g1 rgb) g2
  = gray_image (rgb_filled fb g1 rgb) (width fb * height fb).
Proof.
  rewrite gray_filled_eq by (try apply pixel_count_in_int; rewrite pixel_count_eq; nia).
  rewrite pixel_count_eq. reflexivity.
Qed.

Hypothesis Hlen : (length rgb <= Z.to_nat (width fb * height fb * 3))%nat.

Lemma rgb_filled_length : length (rgb_filled fb g1 rgb) = Z.to_nat (width fb * height fb * 3).
Proof.
  unfold rgb_filled. rewrite length_app, length_drop, length_resize, rgb888_size_eq. lia.
Qed.

(** Every iteration of the grayscale loop stays inside both buffers. *)
Lemma gray_stage_ok :
  forallb (gray_ok (length (rgb_filled fb g1 rgb)) (length (gray_fresh fb g2)))
          (seqZ 0 (pixel_count fb)) = true.
Proof.
  apply forallb_seqZ. intros j Hj. rewrite pixel_count_eq in Hj.
  unfold gray_ok. rewrite rgb_filled_length, gray_fresh_length.
  rewrite !andb_true_iff, !in_int_true, !Z.ltb_lt. unfold INT_MIN, INT_MAX in *. nia.
Qed.

Hypothesis HW24 : width fb < 2 ^ 24.
Hypothesis HH24 : height fb < 2 ^ 24.
Hypothesis Hts : 1 <= target_size <= 46340.
Hypothesis Hcap : target_size * target_size <= Z.of_nat (length t0).

(** Every output pixel is sampled inside the gray image, its blend
    converts to a [uint8_t], and it is stored inside the tensor. *)
Lemma resize_stage_ok (y x : Z) :
  0 <= y < target_size -> 0 <= x < target_size ->
  pixel_ok (gray_filled fb (rgb_filled fb g1 rgb) g2) (frame_width fb) (frame_height fb)
           target_size (x_scale fb target_size) (y_scale fb target_size) (length t0) y x
  = true.
Proof.
  intros Hy Hx. unfold pixel_ok.
  rewrite !andb_true_iff, !in_int_true, Z.leb_le, Z.ltb_lt, bool_decide_eq_true.
  unfold INT_MIN, INT_MAX in *.
  repeat split; try nia.
  unfold sample, x_scale, y_scale. rewrite frame_width_eq, frame_height_eq.
  destruct (scaled_coordinate_in_range x (width fb) target_size) as (x1 & Hx1 & Hx1r);
    [lia | lia | lia |].
  destruct (scaled_coordinate_in_range y (height fb) target_size) as (y1 & Hy1 & Hy1r);
    [lia | lia | lia |].
  rewrite gray_filled_image.
  apply (bilinear_value_defined _ _ _ _ _ x1 y1);
    [ rewrite gray_image_length; nia
    | unfold INT_MAX; nia
    | lia
    | lia
    | apply scaled_coordinate_normal; lia
    | apply scaled_coordinate_normal; lia
    | exact Hx1
    | exact Hy1
    | lia
    | lia ].
Qed.

Hypothesis Hor : oracle m = Some g1 :: Some g2 :: rest.
Hypothesis Hsrc : frame_bytes fb m = Some src.
Hypothesis Ht : tensors m !! output_buffer = Some t0.
Hypothesis Hconv : fmt2rgb888 src (len fb) (format fb) = Some rgb.

Lemma well_formed_run :
  preprocessImageForML pixformat_t fmt2rgb888 (Some fb) (Some output_buffer) target_size m
  = Done true
      (success_state fb output_buffer target_size m (rgb_filled fb g1 rgb)
         (gray_filled fb (rgb_filled fb g1 rgb) g2) t0 rest).
Proof.
  rewrite (preprocess_cases fmt2rgb888 fb output_buffer target_size m g1 (Some g2 :: rest)
             src t0) by assumption.
  rewrite Hconv. rewrite rgb888_size_eq.
  rewrite (proj2 (Nat.leb_le _ _) Hlen), pixel_count_in_int. cbn [andb]. cbv zeta.
  unfold stages_ok. rewrite gray_stage_ok. cbn [andb].
  replace (forallb _ (seqZ 0 target_size)) with true; [reflexivity|].
  symmetry. apply forallb_seqZ. intros y Hy. apply forallb_seqZ. intros x Hx.
  apply resize_stage_ok; assumption.
Qed.

End WellFormed.

Section Completion.

Context {pixformat_t : Type}.
Variable fmt2rgb888 : list byte -> Z -> pixformat_t -> option (list byte).
Variables (fb : camera_fb_t pixformat_t) (output_buffer : loc) (target_size : Z).
Variables (m : machine) (src : list byte) (t0 : list Z).
Variables (g1 g2 : list byte) (rest : list (option (list byte))) (rgb : list byte).

Local Abbreviation run :=
  (preprocessImageForML pixformat_t fmt2rgb888 (Some fb) (Some output_buffer) target_size m).

(** X8.  The call runs to completion and returns [true], with no read
    or write out of bounds and no overflow, for every frame of at least
    1x1 and fewer than 2^24 pixels a side whose RGB888 image fits [int]
    ([width * height * 3 <= INT_MAX]), and every target size from 1 to
    46340, provided both allocations are granted, the converter succeeds
    and writes no more than [width * height * 3] bytes, and the output
    buffer has room for [target_size * target_size] elements.  In
    particular the binary32 source coordinates [x * (width / target_size)]
    never reach [width]. *)
Theorem well_formed_frame_is_processed :
  1 <= width fb < 2 ^ 24 -> 1 <= height fb < 2 ^ 24 ->
  width fb * height fb * 3 <= INT_MAX ->
  1 <= target_size <= 46340 ->
  oracle m = Some g1 :: Some g2 :: rest ->
  frame_bytes fb m = Some src ->
  fmt2rgb888 src (len fb) (format fb) = Some rgb ->
  (length rgb <= Z.to_nat (width fb * height fb * 3))%nat ->
  tensors m !! output_buffer = Some t0 ->
  target_size * target_size <= Z.of_nat (length t0) ->
  exists m', run = Done true m'.
Proof.
  intros HW HH Hsize Hts Hor Hsrc Hconv Hlen Ht Hcap. eexists.
  apply (well_formed_run fmt2rgb888 fb output_buffer target_size m src t0 g1 g2 rest rgb);
    assumption || lia.
Qed.

(** X9.  The capacity of [output_buffer] is not checked: when both
    allocations are granted and the converter succeeds, a buffer with
    fewer than [target_size * target_size] elements makes the call
    undefined (at the latest, the write past its end). *)
Theorem output_capacity_is_not_checked :
  0 < target_size ->
  Z.of_nat (length t0) < target_size * target_size ->
  oracle m = Some g1 :: Some g2 :: rest ->
  frame_bytes fb m = Some src ->
  fmt2rgb888 src (len fb) (format fb) = Some rgb ->
  tensors m !! output_buffer = Some t0 ->
  run = Undefined.
Proof.
  intros Hts Hcap Hor Hsrc Hconv Ht.
  rewrite (preprocess_cases fmt2rgb888 fb output_buffer target_size m g1 (Some g2 :: rest)
             src t0) by assumption.
  rewrite Hconv.
  destruct ((length rgb <=? Z.to_nat (rgb888_size fb))%nat && in_int (pixel_count fb));
    [|reflexivity].
  cbv zeta. destruct (stages_ok _ _ _ _ _ _) eqn:Hok; [exfalso | reflexivity].
  unfold stages_ok in Hok. apply andb_true_iff in Hok. destruct Hok as [_ Hrows].
  rewrite forallb_seqZ in Hrows.
  set (k := Z.of_nat (length t0)) in *.
  assert (Hk : 0 <= k) by (unfold k; lia).
  assert (Hy : 0 <= k / target_size < target_size).
  { split; [apply Z.div_pos; lia|]. apply Z.div_lt_upper_bound; lia. }
  assert (Hx : 0 <= k mod target_size < target_size) by (apply Z.mod_pos_bound; lia).
  specialize (Hrows _ Hy). rewrite forallb_seqZ in Hrows. specialize (Hrows _ Hx).
  apply pixel_ok_facts in Hrows. destruct Hrows as [_ Hin].
  pose proof (Z.div_mod k target_size ltac:(lia)) as Hdm. fold k in Hin. lia.
Qed.

(** X10.  [target_size] is not checked either: for a target size of
    zero or less both resize loops are empty, and the call still
    allocates, converts and computes the grayscale image, frees both
    buffers and returns [true], leaving every tensor as it was. *)
Theorem nonpositive_target_writes_nothing :
  target_size <= 0 ->
  1 <= width fb -> 1 <= height fb ->
  width fb * height fb * 3 <= INT_MAX ->
  oracle m = Some g1 :: Some g2 :: rest ->
  frame_bytes fb m = Some src ->
  fmt2rgb888 src (len fb) (format fb) = Some rgb ->
  (length rgb <= Z.to_nat (width fb * height fb * 3))%nat ->
  tensors m !! output_buffer = Some t0 ->
  exists m',
    run = Done true m' /\
    writes (new_events m m') = [] /\
    tensors m' = tensors m /\
    stores (new_events m m')
    = reverse ((fun i => (gray_block m, i)) <$> seqZ 0 (width fb * height fb)).
Proof.
  intros Hts HW HH Hsize Hor Hsrc Hconv Hlen Ht.
  assert (Hrun : run = Done true
            (success_state fb output_buffer target_size m (rgb_filled fb g1 rgb)
               (gray_filled fb (rgb_filled fb g1 rgb) g2) t0 rest)).
  { rewrite (preprocess_cases fmt2rgb888 fb output_buffer target_size m g1
               (Some g2 :: rest) src t0) by assumption.
    rewrite Hconv, (rgb888_size_eq fb) by assumption.
    rewrite (proj2 (Nat.leb_le _ _) Hlen), (pixel_count_in_int fb) by assumption.
    cbn [andb]. cbv zeta. unfold stages_ok.
    rewrite (gray_stage_ok fb g1 g2 rgb) by assumption. cbn [andb].
    replace (seqZ 0 target_size) with (@nil Z); [reflexivity|].
    unfold seqZ. replace (Z.to_nat target_size) with 0%nat by lia. reflexivity. }
  eexists. split; [exact Hrun|].
  assert (Hw : written target_size = 0) by (unfold written; lia).
  erewrite new_events_trace by reflexivity.
  unfold success_trace, success_state, tensor_filled. rewrite Hw. cbn [tensors].
  split; [|split].
  - unfold writes. rewrite !omap_app. fold writes.
    change (omap _ (gray_trace ?a ?b ?c ?d)) with (writes (gray_trace a b c d)).
    rewrite writes_gray_trace. reflexivity.
  - unfold tensor_prefix. cbn. rewrite drop_0. apply insert_id. exact Ht.
  - unfold stores. rewrite !omap_app.
    change (omap _ (gray_trace ?a ?b ?c ?d)) with (stores (gray_trace a b c d)).
    rewrite stores_gray_trace. cbn.
    rewrite (pixel_count_eq fb) by assumption.
    rewrite Z.max_r by nia. rewrite app_nil_r. reflexivity.
Qed.

End Completion.

Section Decimation.

Context {pixformat_t : Type}.
Variable fmt2rgb888 : list byte -> Z -> pixformat_t -> option (list byte).
Variables (fb : camera_fb_t pixformat_t) (output_buffer : loc) (target_size : Z).
Variables (m : machine) (src : list byte) (t0 : list Z).
Variables (g1 g2 : list byte) (rest : list (option (list byte))) (rgb : list byte).

(** X11.  When the frame is [a] times as wide and [b] times as high as
    the target, for whole numbers [a] and [b], every source coordinate
    is a whole number and nothing is interpolated: output pixel (x, y)
    is the gray sample at column [a * x] of row [b * y], minus 128; the
    samples in between do not reach the tensor.  The call returns
    [true] for every such frame the allocator and the converter
    serve. *)
Theorem whole_ratio_downscale_is_decimation (a b : Z) :
  1 <= a -> 1 <= b -> 1 <= target_size <= 46340 ->
  width fb = a * target_size -> height fb = b * target_size ->
  width fb < 2 ^ 24 -> height fb < 2 ^ 24 ->
  width fb * height fb * 3 <= INT_MAX ->
  oracle m = Some g1 :: Some g2 :: rest ->
  frame_bytes fb m = Some src ->
  fmt2rgb888 src (len fb) (format fb) = Some rgb ->
  (length rgb <= Z.to_nat (width fb * height fb * 3))%nat ->
  tensors m !! output_buffer = Some t0 ->
  target_size * target_size <= Z.of_nat (length t0) ->
  exists m',
    preprocessImageForML pixformat_t fmt2rgb888 (Some fb) (Some output_buffer) target_size m
    = Done true m' /\
    forall x y, 0 <= x < target_size -> 0 <= y < target_size ->
      exists g,
        grayscale fmt2rgb888 fb m !! Z.to_nat (b * y * width fb + a * x) = Some g /\
        tensor_at m' output_buffer (y * target_size + x) = Some (u8_val g - 128).
Proof.
  intros Ha Hb Hts HW HH HW24 HH24 Hsize Hor Hsrc Hconv Hlen Ht Hcap.
  assert (HW1 : 1 <= width fb) by nia. assert (HH1 : 1 <= height fb) by nia.
  eexists. split.
  { apply (well_formed_run fmt2rgb888 fb output_buffer target_size m src t0 g1 g2 rest rgb);
      assumption || lia. }
  intros x y Hx Hy.
  destruct (success_pixel fmt2rgb888 fb output_buffer target_size m _ src t0 Hsrc Ht
              (well_formed_run fmt2rgb888 fb output_buffer target_size m src t0 g1 g2 rest
                 rgb HW1 HH1 Hsize Hlen HW24 HH24 Hts Hcap Hor Hsrc Ht Hconv)
              x y Hx Hy) as (p & Hp & Hcell & _).
  unfold sample, x_scale, y_scale in Hp.
  rewrite (frame_width_eq fb), (frame_height_eq fb) in Hp by assumption.
  assert (Hxs : F32.div (F32.of_Z (width fb)) (F32.of_Z target_size) = F32.of_Z a)
    by (rewrite HW; apply div_exact; lia).
  assert (Hys : F32.div (F32.of_Z (height fb)) (F32.of_Z target_size) = F32.of_Z b)
    by (rewrite HH; apply div_exact; lia).
  rewrite Hxs, Hys in Hp.
  rewrite !mul_exact in Hp by nia.
  apply bilinear_value_on_grid in Hp; [|nia|nia].
  destruct Hp as [_ Hp]. apply cell_Some in Hp. destruct Hp as [Hrange Hp].
  exists p. split.
  - replace (b * y * width fb + a * x) with (y * b * width fb + x * a) by ring.
    rewrite Hp. apply list_lookup_lookup_total_lt. lia.
  - rewrite Hcell. f_equal. unfold quantize, wrap_int8.
    pose proof (u8_val_range p). rewrite Z.mod_small by lia. lia.
Qed.

End Decimation.

(** ** The luma of a pixel lies between its channels *)

Lemma luma_sum_scaled (r g b : byte) (lo hi : Z) :
  lo <= u8_val r <= hi -> lo <= u8_val g <= hi -> lo <= u8_val b <= hi ->
  positive_normal (-73) (luma_sum r g b) /\
  (lo - 1) * 2 ^ 200 <= scaled_value (luma_sum r g b) /\
  scaled_value (luma_sum r g b) < (hi + 1) * 2 ^ 200.
Proof.
  intros Hr Hg Hb.
  pose proof (u8_val_range r) as Hr'. pose proof (u8_val_range g) as Hg'.
  pose proof (u8_val_range b) as Hb'.
  destruct (weight_times_byte F32.c0_299 40131100 r) as (HA & HAl & HAu);
    [split; [reflexivity | lia] | reflexivity | lia |].
  destruct (weight_times_byte F32.c0_587 78785808 g) as (HB & HBl & HBu);
    [split; [reflexivity | lia] | reflexivity | lia |].
  destruct (weight_times_byte F32.c0_114 15300821 b) as (HC & HCl & HCu);
    [split; [reflexivity | lia] | reflexivity | lia |].
  unfold luma_sum.
  set (A := F32.mul F32.c0_299 (F32.of_Z (u8_val r))) in *.
  set (B := F32.mul F32.c0_587 (F32.of_Z (u8_val g))) in *.
  set (C := F32.mul F32.c0_114 (F32.of_Z (u8_val b))) in *.
  pose proof (scaled_value_nonneg A). pose proof (scaled_value_nonneg B).
  pose proof (scaled_value_nonneg C).
  change (2 ^ 23) with 8388608 in *. change (2 ^ 173) with (2 ^ 173) in *.
  assert (P173 : 2 ^ 200 = 134217728 * 2 ^ 173) by reflexivity.
  assert (P220 : 2 ^ 220 = 1048576 * 134217728 * 2 ^ 173) by reflexivity.
  assert (Hp : 0 < 2 ^ 173) by (apply Z.pow_pos_nonneg; lia).
  set (u := 2 ^ 173) in *.
  destruct (add_rel (-50) A B HA HB) as (HS1 & HS1l & HS1u); [lia | nia | nia |].
  set (S1 := F32.add A B) in *. pose proof (scaled_value_nonneg S1).
  destruct (add_rel (-73) S1 C (positive_normal_weaken (-50) (-73) S1 ltac:(lia) HS1)
              (positive_normal_weaken (-50) (-73) C ltac:(lia) HC))
    as (HS & HSl & HSu); [lia | nia | nia |].
  set (S := F32.add S1 C) in *.
  split; [exact HS|]. rewrite P173. split; nia.
Qed.

(** X12.  The gray sample of a pixel is never above its largest channel
    and never more than one below its smallest: the three weights add up
    to [1 + 2^-27] and the three roundings lose less than one unit. *)
Theorem gray_sample_between_channels (r g b : byte) :
  Z.min (u8_val r) (Z.min (u8_val g) (u8_val b)) - 1 <= u8_val (luma r g b)
  /\ u8_val (luma r g b) <= Z.max (u8_val r) (Z.max (u8_val g) (u8_val b)).
Proof.
  set (lo := Z.min (u8_val r) (Z.min (u8_val g) (u8_val b))).
  set (hi := Z.max (u8_val r) (Z.max (u8_val g) (u8_val b))).
  destruct (luma_sum_scaled r g b lo hi) as (Hn & Hlow & Hup); [unfold lo, hi; lia..|].
  pose proof (trunc_scaled (-73) (luma_sum r g b) Hn ltac:(lia)) as Ht.
  rewrite luma_is_integer_part in Ht. injection Ht as Ht. rewrite Ht.
  assert (Hp : 0 < 2 ^ 200) by (apply Z.pow_pos_nonneg; lia).
  split.
  - apply Z.div_le_lower_bound; lia.
  - apply Z.lt_succ_r, Z.div_lt_upper_bound; lia.
Qed.

(** X13.  The interpolated sample never leaves the range of the four
    samples it is made of by more than the truncation.  For a position
    whose coordinates are [+0] or at least [2^-24] and whose integer
    parts lie in an image of at most [2^24] columns and rows, the call
    returns: the integer part of the blend [val] is at most the largest
    of the four neighbours and at least the smallest minus one (and not
    negative), hence a [uint8_t] value, and the byte returned is that
    integer part; the conversion is defined and nothing wraps. *)
Theorem bilinear_sample_between_neighbours (m : machine) (img : loc) (gray : list byte)
    (width height : Z) (x y : F32.float) (x1 y1 : Z) :
  heap m !! img = Some gray ->
  Z.of_nat (length gray) = width * height ->
  width * height <= INT_MAX ->
  width <= 2 ^ 24 -> height <= 2 ^ 24 ->
  positive_normal (-47) x -> positive_normal (-47) y ->
  F32.to_int x = Some x1 -> F32.to_int y = Some y1 ->
  0 <= x1 < width -> 0 <= y1 < height ->
  let x2 := Z.min (x1 + 1) (width - 1) in
  let y2 := Z.min (y1 + 1) (height - 1) in
  exists p1 p2 p3 p4 pixel m',
    gray !! Z.to_nat (y1 * width + x1) = Some p1 /\
    gray !! Z.to_nat (y1 * width + x2) = Some p2 /\
    gray !! Z.to_nat (y2 * width + x1) = Some p3 /\
    gray !! Z.to_nat (y2 * width + x2) = Some p4 /\
    bilinear_interpolate img width height x y m = Done pixel m' /\
    F32.trunc (blend p1 p2 p3 p4 (F32.sub x (F32.of_Z x1)) (F32.sub y (F32.of_Z y1)))
    = Some (u8_val pixel) /\
    0 <= u8_val pixel <= 255 /\
    Z.min (Z.min (u8_val p1) (u8_val p2)) (Z.min (u8_val p3) (u8_val p4)) - 1 <= u8_val pixel /\
    u8_val pixel <= Z.max (Z.max (u8_val p1) (u8_val p2)) (Z.max (u8_val p3) (u8_val p4)).
Proof.
  intros Himg Hlen Hsize HW HH Hnx Hny Hx Hy Hxr Hyr x2 y2.
  assert (Hin : Forall (fun i => 0 <= i < Z.of_nat (length gray))
                  [y1 * width + x1; y1 * width + x2; y2 * width + x1; y2 * width + x2]).
  { unfold x2, y2. repeat constructor; nia. }
  rewrite !Forall_cons in Hin. destruct Hin as (H1 & H2 & H3 & H4 & _).
  assert (Htx : F32.trunc x = Some x1).
  { unfold F32.to_int in Hx. destruct (F32.trunc x) as [z|]; [|discriminate].
    destruct (in_int z); [congruence | discriminate]. }
  assert (Hty : F32.trunc y = Some y1).
  { unfold F32.to_int in Hy. destruct (F32.trunc y) as [z|]; [|discriminate].
    destruct (in_int z); [congruence | discriminate]. }
  destruct (fractional_offset x x1 Hnx Htx ltac:(lia)) as (Hdx & _ & Hdx1).
  destruct (fractional_offset y y1 Hny Hty ltac:(lia)) as (Hdy & _ & Hdy1).
  cbv zeta in Hdx, Hdx1, Hdy, Hdy1.
  set (p1 := byte_at gray (y1 * width + x1)). set (p2 := byte_at gray (y1 * width + x2)).
  set (p3 := byte_at gray (y2 * width + x1)). set (p4 := byte_at gray (y2 * width + x2)).
  destruct (blend_cast_between p1 p2 p3 p4 _ _
              (Z.min (Z.min (u8_val p1) (u8_val p2)) (Z.min (u8_val p3) (u8_val p4)))
              (Z.max (Z.max (u8_val p1) (u8_val p2)) (Z.max (u8_val p3) (u8_val p4)))
              Hdx Hdy) as (pixel & Hcast & Htrunc & Hrange); try lia.
  exists p1, p2, p3, p4, pixel. eexists.
  repeat (split; [apply list_lookup_lookup_total_lt; lia|]).
  split.
  { rewrite (bilinear_interpolate_run _ _ _ _ _ _ gray Himg).
    rewrite (bilinear_value_in_range gray width height x y x1 y1) by assumption.
    rewrite (sample_offsets_in_range gray width height x y x1 y1) by assumption.
    fold x2 y2 p1 p2 p3 p4. rewrite Hcast. reflexivity. }
  split; [exact Htrunc|].
  pose proof (u8_val_range pixel). lia.
Qed.

(** ** The range of the tensor *)

Lemma luma_between (r g b : byte) (lo hi : Z) :
  lo <= u8_val r <= hi -> lo <= u8_val g <= hi -> lo <= u8_val b <= hi ->
  lo - 1 <= u8_val (luma r g b) <= hi.
Proof.
  intros Hr Hg Hb.
  destruct (luma_sum_scaled r g b lo hi) as (Hn & Hlow & Hup); [assumption..|].
  pose proof (trunc_scaled (-73) (luma_sum r g b) Hn ltac:(lia)) as Ht.
  rewrite luma_is_integer_part in Ht. injection Ht as Ht. rewrite Ht.
  assert (Hp : 0 < 2 ^ 200) by (apply Z.pow_pos_nonneg; lia).
  split.
  - apply Z.div_le_lower_bound; lia.
  - apply Z.lt_succ_r, Z.div_lt_upper_bound; lia.
Qed.

(** Channels in [lo, hi] give gray samples in [lo - 1, hi]. *)
Lemma gray_image_between (rgb : list byte) (n lo hi : Z) :
  Forall (fun c => lo <= u8_val c <= hi) rgb ->
  n * 3 <= Z.of_nat (length rgb) ->
  Forall (fun g => lo - 1 <= u8_val g <= hi) (gray_image rgb n).
Proof.
  intros Hall Hn. unfold gray_image. apply Forall_fmap, Forall_seqZ.
  intros j Hj. cbn. unfold luma_at.
  apply luma_between; apply byte_at_between; assumption || lia.
Qed.

Section TensorRange.

Context {pixformat_t : Type}.
Variable fmt2rgb888 : list byte -> Z -> pixformat_t -> option (list byte).
Variables (fb : camera_fb_t pixformat_t) (output_buffer : loc) (target_size : Z).
Variables (m : machine) (src : list byte) (t0 : list Z).
Variables (g1 g2 : list byte) (rest : list (option (list byte))) (rgb : list byte).

(** X14.  The tensor never leaves the range of the frame.  When every
    byte of the RGB888 buffer the stages work on lies in [lo, hi], the
    call on a well-formed frame returns [true], so that every
    conversion to [uint8_t] on the way was defined, and
    - every gray sample lies in [lo - 1, hi];
    - every interpolated sample lies in [lo - 2, hi] (and is not
      negative);
    - the element written for it is that sample minus 128, unwrapped,
      and so lies between [lo - 2 - 128] (and -128) and [hi - 128].
    In particular a black frame gives a tensor of -128 throughout. *)
Theorem tensor_stays_in_channel_range (lo hi : Z) :
  1 <= width fb < 2 ^ 24 -> 1 <= height fb < 2 ^ 24 ->
  width fb * height fb * 3 <= INT_MAX ->
  1 <= target_size <= 46340 ->
  oracle m = Some g1 :: Some g2 :: rest ->
  frame_bytes fb m = Some src ->
  fmt2rgb888 src (len fb) (format fb) = Some rgb ->
  (length rgb <= Z.to_nat (width fb * height fb * 3))%nat ->
  tensors m !! output_buffer = Some t0 ->
  target_size * target_size <= Z.of_nat (length t0) ->
  Forall (fun c => lo <= u8_val c <= hi) (decoded_rgb fmt2rgb888 fb m) ->
  exists m',
    preprocessImageForML pixformat_t fmt2rgb888 (Some fb) (Some output_buffer) target_size m
    = Done true m' /\
    Forall (fun g => lo - 1 <= u8_val g <= hi) (grayscale fmt2rgb888 fb m) /\
    forall x y, 0 <= x < target_size -> 0 <= y < target_size ->
      exists pixel v,
        sample (grayscale fmt2rgb888 fb m) (frame_width fb) (frame_height fb)
               (x_scale fb target_size) (y_scale fb target_size) y x = Some pixel /\
        Z.max 0 (lo - 2) <= u8_val pixel <= hi /\
        tensor_at m' output_buffer (y * target_size + x) = Some v /\
        v = u8_val pixel - 128 /\
        Z.max 0 (lo - 2) - 128 <= v <= hi - 128.
Proof.
  intros [HW1 HW24] [HH1 HH24] Hsize Hts Hor Hsrc Hconv Hlen Ht Hcap Hall.
  assert (Hdec : decoded_rgb fmt2rgb888 fb m = rgb_filled fb g1 rgb).
  { unfold decoded_rgb, converted. rewrite Hor, Hsrc. cbn. rewrite Hconv. reflexivity. }
  pose proof (rgb_filled_length fb g1 rgb HW1 HH1 Hsize Hlen) as Hrl.
  assert (Hgray : Forall (fun g => lo - 1 <= u8_val g <= hi) (grayscale fmt2rgb888 fb m)).
  { unfold grayscale. rewrite (pixel_count_eq fb) by assumption.
    apply gray_image_between; [exact Hall | rewrite Hdec; lia]. }
  eexists. split.
  { apply (well_formed_run fmt2rgb888 fb output_buffer target_size m src t0 g1 g2 rest rgb);
      assumption || lia. }
  split; [exact Hgray|].
  intros x y Hx Hy.
  destruct (success_pixel fmt2rgb888 fb output_buffer target_size m _ src t0 Hsrc Ht
              (well_formed_run fmt2rgb888 fb output_buffer target_size m src t0 g1 g2 rest
                 rgb HW1 HH1 Hsize Hlen HW24 HH24 Hts Hcap Hor Hsrc Ht Hconv)
              x y Hx Hy) as (p & Hp & Hcell & _).
  exists p, (quantize p). split; [exact Hp|].
  unfold sample, x_scale, y_scale in Hp.
  rewrite (frame_width_eq fb), (frame_height_eq fb) in Hp by assumption.
  destruct (scaled_coordinate_in_range x (width fb) target_size) as (x1 & Hx1 & Hx1r);
    [lia..|].
  destruct (scaled_coordinate_in_range y (height fb) target_size) as (y1 & Hy1 & Hy1r);
    [lia..|].
  assert (Hglen : Z.of_nat (length (grayscale fmt2rgb888 fb m)) = width fb * height fb).
  { unfold grayscale. rewrite (pixel_count_eq fb) by assumption.
    rewrite gray_image_length. nia. }
  destruct (bilinear_value_between (grayscale fmt2rgb888 fb m) (width fb) (height fb)
              (F32.mul (F32.of_Z x) (F32.div (F32.of_Z (width fb)) (F32.of_Z target_size)))
              (F32.mul (F32.of_Z y) (F32.div (F32.of_Z (height fb)) (F32.of_Z target_size)))
              x1 y1 (lo - 1) hi Hgray Hglen) as (p' & Hp' & Hb);
    [ unfold INT_MAX in *; nia | lia | lia
    | apply scaled_coordinate_normal; lia
    | apply scaled_coordinate_normal; lia
    | exact Hx1 | exact Hy1 | lia | lia | ].
  rewrite Hp in Hp'. injection Hp' as <-.
  pose proof (u8_val_range p).
  assert (Hq : quantize p = u8_val p - 128).
  { unfold quantize, wrap_int8. rewrite Z.mod_small by lia. lia. }
  split; [lia|]. split; [exact Hcell|]. split; [exact Hq|]. lia.
Qed.

End TensorRange.

(** ** Instances of the further properties *)

Lemma bilinear_reads_clamped_neighbourhood_witness :
  heap corner_machine !! 7%positive = Some [x01; x02; x03; x04; x05; x06] /\
  Z.of_nat (length [x01; x02; x03; x04; x05; x06]) = 3 * 2 /\
  3 * 2 <= INT_MAX /\
  F32.to_int (F32.div (F32.of_Z 5) (F32.of_Z 2)) = Some 2 /\
  F32.to_int (F32.div (F32.of_Z 1) (F32.of_Z 4)) = Some 0 /\
  0 <= 2 < 3 /\ 0 <= 0 < 2 /\
  (let x := F32.div (F32.of_Z 5) (F32.of_Z 2) in
   let y := F32.div (F32.of_Z 1) (F32.of_Z 4) in
   let x2 := Z.min (2 + 1) (3 - 1) in
   let y2 := Z.min (0 + 1) (2 - 1) in
   let reads := [0 * 3 + 2; 0 * 3 + x2; y2 * 3 + 2; y2 * 3 + x2] in
   Forall (fun i => 0 <= i < Z.of_nat (length [x01; x02; x03; x04; x05; x06])) reads /\
   exists p1 p2 p3 p4,
     [x01; x02; x03; x04; x05; x06] !! Z.to_nat (0 * 3 + 2) = Some p1 /\
     [x01; x02; x03; x04; x05; x06] !! Z.to_nat (0 * 3 + x2) = Some p2 /\
     [x01; x02; x03; x04; x05; x06] !! Z.to_nat (y2 * 3 + 2) = Some p3 /\
     [x01; x02; x03; x04; x05; x06] !! Z.to_nat (y2 * 3 + x2) = Some p4 /\
     bilinear_interpolate 7%positive 3 2 x y corner_machine
     = match F32.to_u8 (blend p1 p2 p3 p4 (F32.sub x (F32.of_Z 2))
                              (F32.sub y (F32.of_Z 0))) with
       | Some pixel =>
           Done pixel (with_trace corner_machine (reverse (EvLoad 7%positive <$> reads)))
       | None => Undefined
       end).
Proof.
  split; [reflexivity|]. split; [reflexivity|]. split; [unfold INT_MAX; lia|].
  split; [reflexivity|]. split; [reflexivity|]. split; [lia|]. split; [lia|].
  apply (bilinear_reads_clamped_neighbourhood corner_machine 7%positive
           [x01; x02; x03; x04; x05; x06] 3 2
           (F32.div (F32.of_Z 5) (F32.of_Z 2)) (F32.div (F32.of_Z 1) (F32.of_Z 4)) 2 0);
    [reflexivity | reflexivity | unfold INT_MAX; lia | reflexivity | reflexivity | lia | lia].
Defined.

Lemma bilinear_at_grid_point_is_pixel_witness :
  heap corner_machine !! 7%positive = Some [x01; x02; x03; x04; x05; x06] /\
  Z.of_nat (length [x01; x02; x03; x04; x05; x06]) = 3 * 2 /\
  3 * 2 <= INT_MAX /\ 0 <= 1 < 3 /\ 0 <= 1 < 2 /\ 1 < 2 ^ 24 /\ 1 < 2 ^ 24 /\
  exists pixel m',
    [x01; x02; x03; x04; x05; x06] !! Z.to_nat (1 * 3 + 1) = Some pixel /\
    bilinear_interpolate 7%positive 3 2 (F32.of_Z 1) (F32.of_Z 1) corner_machine
    = Done pixel m' /\
    heap m' = heap corner_machine /\ tensors m' = tensors corner_machine.
Proof.
  split; [reflexivity|]. split; [reflexivity|]. split; [unfold INT_MAX; lia|].
  split; [lia|]. split; [lia|]. split; [lia|]. split; [lia|].
  apply (bilinear_at_grid_point_is_pixel corner_machine 7%positive
           [x01; x02; x03; x04; x05; x06] 3 2 1 1);
    [reflexivity | reflexivity | unfold INT_MAX; lia | lia | lia | lia | lia].
Defined.

Lemma bilinear_position_is_not_checked_witness :
  heap corner_machine !! 7%positive = Some [x01; x02; x03; x04; x05; x06] /\
  (F32.to_int (F32.of_Z 5) = None \/ F32.to_int (F32.of_Z 1) = None \/
   (exists x1 y1, F32.to_int (F32.of_Z 5) = Some x1 /\ F32.to_int (F32.of_Z 1) = Some y1 /\
      ~ (0 <= y1 * 3 + x1 < Z.of_nat (length [x01; x02; x03; x04; x05; x06])))) /\
  bilinear_interpolate 7%positive 3 2 (F32.of_Z 5) (F32.of_Z 1) corner_machine = Undefined.
Proof.
  assert (H : F32.to_int (F32.of_Z 5) = None \/ F32.to_int (F32.of_Z 1) = None \/
    (exists x1 y1, F32.to_int (F32.of_Z 5) = Some x1 /\ F32.to_int (F32.of_Z 1) = Some y1 /\
       ~ (0 <= y1 * 3 + x1 < Z.of_nat (length [x01; x02; x03; x04; x05; x06])))).
  { right. right. exists 5, 1. split; [reflexivity|]. split; [reflexivity|]. cbn. lia. }
  split; [reflexivity|]. split; [exact H|].
  exact (bilinear_position_is_not_checked corner_machine 7%positive
           [x01; x02; x03; x04; x05; x06] 3 2 (F32.of_Z 5) (F32.of_Z 1) eq_refl H).
Defined.

Lemma rgb_allocation_failure_is_clean_witness :
  (head (oracle refusing_machine) = None \/ head (oracle refusing_machine) = Some None) /\
  exists m',
    preprocessImageForML sample_format rgb888_only (Some demo_frame) (Some 1%positive) 2
      refusing_machine = Done false m' /\
    new_events refusing_machine m'
    = [EvPrint "Failed to allocate RGB888 buffer" [];
       EvMalloc (wrap_size_t (width demo_frame * height demo_frame * 3)) None;
       EvPrint "Converting JPEG to RGB..." []] /\
    heap m' = heap refusing_machine /\ tensors m' = tensors refusing_machine.
Proof.
  split; [right; reflexivity|].
  apply (rgb_allocation_failure_is_clean rgb888_only demo_frame 1%positive 2 refusing_machine).
  right. reflexivity.
Defined.

Lemma gray_allocation_failure_frees_rgb_witness :
  oracle one_block_machine = Some [xaa] :: [None] /\
  (head [@None (list byte)] = None \/ head [@None (list byte)] = Some None) /\
  frame_bytes demo_frame one_block_machine = Some demo_pixels /\
  tensors one_block_machine !! 1%positive = Some [0; 0; 0; 0; 7] /\
  rgb888_only demo_pixels (len demo_frame) (format demo_frame) = Some demo_pixels /\
  (length demo_pixels <= Z.to_nat (rgb888_size demo_frame))%nat /\
  INT_MIN <= frame_width demo_frame * frame_height demo_frame <= INT_MAX /\
  exists m',
    preprocessImageForML sample_format rgb888_only (Some demo_frame) (Some 1%positive) 2
      one_block_machine = Done false m' /\
    granted (new_events one_block_machine m') = [rgb_block one_block_machine] /\
    releases (new_events one_block_machine m') = [rgb_block one_block_machine] /\
    writes (new_events one_block_machine m') = [] /\
    heap m' = heap one_block_machine /\ tensors m' = tensors one_block_machine.
Proof.
  assert (Hn : INT_MIN <= frame_width demo_frame * frame_height demo_frame <= INT_MAX).
  { vm_compute. split; discriminate. }
  assert (Hl : (length demo_pixels <= Z.to_nat (rgb888_size demo_frame))%nat).
  { vm_compute. lia. }
  split; [reflexivity|]. split; [right; reflexivity|]. split; [reflexivity|].
  split; [reflexivity|]. split; [reflexivity|]. split; [exact Hl|]. split; [exact Hn|].
  apply (gray_allocation_failure_frees_rgb rgb888_only demo_frame 1%positive 2
           one_block_machine demo_pixels [0; 0; 0; 0; 7] [xaa] [None] demo_pixels);
    [reflexivity | right; reflexivity | reflexivity | reflexivity | reflexivity
    | exact Hl | exact Hn].
Defined.

Lemma failed_call_writes_nothing_witness :
  frame_bytes jpeg_frame demo_machine = Some demo_pixels /\
  tensors demo_machine !! 1%positive = Some [0; 0; 0; 0; 7] /\
  preprocessImageForML sample_format rgb888_only (Some jpeg_frame) (Some 1%positive) 2
    demo_machine = Done false jpeg_result /\
  tensors jpeg_result = tensors demo_machine /\
  writes (new_events demo_machine jpeg_result) = [] /\
  stores (new_events demo_machine jpeg_result) = [] /\
  (heap jpeg_result = heap demo_machine \/
   rgb888_only demo_pixels (len jpeg_frame) (format jpeg_frame) = None /\
   leaked demo_machine jpeg_result = {[ rgb_block demo_machine ]}).
Proof.
  split; [reflexivity|]. split; [reflexivity|]. split; [vm_compute; reflexivity|].
  apply (failed_call_writes_nothing rgb888_only jpeg_frame 1%positive 2 demo_machine
           demo_pixels [0; 0; 0; 0; 7] jpeg_result);
    [reflexivity | reflexivity | vm_compute; reflexivity].
Defined.

Lemma success_frees_rgb_before_resizing_witness :
  frame_bytes demo_frame demo_machine = Some demo_pixels /\
  tensors demo_machine !! 1%positive = Some [0; 0; 0; 0; 7] /\
  preprocessImageForML sample_format rgb888_only (Some demo_frame) (Some 1%positive) 2
    demo_machine = Done true demo_result /\
  granted (new_events demo_machine demo_result)
  = [gray_block demo_machine; rgb_block demo_machine] /\
  releases (new_events demo_machine demo_result)
  = [gray_block demo_machine; rgb_block demo_machine] /\
  heap demo_result = heap demo_machine /\
  exists after before,
    new_events demo_machine demo_result = after ++ EvFree (rgb_block demo_machine) :: before /\
    writes before = [] /\
    Forall (fun a => a.1 = rgb_block demo_machine) (loads before) /\
    Forall (fun a => a.1 = gray_block demo_machine) (loads after).
Proof.
  split; [reflexivity|]. split; [reflexivity|]. split; [vm_compute; reflexivity|].
  apply (success_frees_rgb_before_resizing rgb888_only demo_frame 1%positive 2 demo_machine
           demo_pixels [0; 0; 0; 0; 7] demo_result);
    [reflexivity | reflexivity | vm_compute; reflexivity].
Defined.

Lemma well_formed_frame_is_processed_witness :
  1 <= width wide_frame < 2 ^ 24 /\ 1 <= height wide_frame < 2 ^ 24 /\
  width wide_frame * height wide_frame * 3 <= INT_MAX /\
  1 <= 2 <= 46340 /\
  oracle wide_machine = Some [] :: Some [] :: [] /\
  frame_bytes wide_frame wide_machine = Some wide_pixels /\
  rgb888_only wide_pixels (len wide_frame) (format wide_frame) = Some wide_pixels /\
  (length wide_pixels <= Z.to_nat (width wide_frame * height wide_frame * 3))%nat /\
  tensors wide_machine !! 1%positive = Some [0; 0; 0; 0] /\
  2 * 2 <= Z.of_nat (length [0; 0; 0; 0]) /\
  exists m',
    preprocessImageForML sample_format rgb888_only (Some wide_frame) (Some 1%positive) 2
      wide_machine = Done true m'.
Proof.
  assert (Hs : width wide_frame * height wide_frame * 3 <= INT_MAX) by (vm_compute; discriminate).
  assert (Hl : (length wide_pixels <= Z.to_nat (width wide_frame * height wide_frame * 3))%nat)
    by (vm_compute; lia).
  assert (Hc : 2 * 2 <= Z.of_nat (length [0; 0; 0; 0])) by (cbn; lia).
  split; [cbn; lia|]. split; [cbn; lia|]. split; [exact Hs|]. split; [lia|].
  split; [reflexivity|]. split; [reflexivity|]. split; [reflexivity|]. split; [exact Hl|].
  split; [reflexivity|]. split; [exact Hc|].
  apply (well_formed_frame_is_processed rgb888_only wide_frame 1%positive 2 wide_machine
           wide_pixels [0; 0; 0; 0] [] [] [] wide_pixels);
    [cbn; lia | cbn; lia | exact Hs | lia | reflexivity | reflexivity | reflexivity
    | exact Hl | reflexivity | exact Hc].
Defined.

Lemma output_capacity_is_not_checked_witness :
  0 < 3 /\
  Z.of_nat (length [0; 0; 0; 0; 7]) < 3 * 3 /\
  oracle demo_machine = Some [] :: Some [] :: [] /\
  frame_bytes demo_frame demo_machine = Some demo_pixels /\
  rgb888_only demo_pixels (len demo_frame) (format demo_frame) = Some demo_pixels /\
  tensors demo_machine !! 1%positive = Some [0; 0; 0; 0; 7] /\
  preprocessImageForML sample_format rgb888_only (Some demo_frame) (Some 1%positive) 3
    demo_machine = Undefined.
Proof.
  assert (Hc : Z.of_nat (length [0; 0; 0; 0; 7]) < 3 * 3) by (cbn; lia).
  split; [lia|]. split; [exact Hc|]. split; [reflexivity|]. split; [reflexivity|].
  split; [reflexivity|]. split; [reflexivity|].
  apply (output_capacity_is_not_checked rgb888_only demo_frame 1%positive 3 demo_machine
           demo_pixels [0; 0; 0; 0; 7] [] [] [] demo_pixels);
    [lia | exact Hc | reflexivity | reflexivity | reflexivity | reflexivity].
Defined.

Lemma nonpositive_target_writes_nothing_witness :
  0 <= 0 /\ 1 <= width demo_frame /\ 1 <= height demo_frame /\
  width demo_frame * height demo_frame * 3 <= INT_MAX /\
  oracle demo_machine = Some [] :: Some [] :: [] /\
  frame_bytes demo_frame demo_machine = Some demo_pixels /\
  rgb888_only demo_pixels (len demo_frame) (format demo_frame) = Some demo_pixels /\
  (length demo_pixels <= Z.to_nat (width demo_frame * height demo_frame * 3))%nat /\
  tensors demo_machine !! 1%positive = Some [0; 0; 0; 0; 7] /\
  exists m',
    preprocessImageForML sample_format rgb888_only (Some demo_frame) (Some 1%positive) 0
      demo_machine = Done true m' /\
    writes (new_events demo_machine m') = [] /\
    tensors m' = tensors demo_machine /\
    stores (new_events demo_machine m')
    = reverse ((fun i => (gray_block demo_machine, i))
                 <$> seqZ 0 (width demo_frame * height demo_frame)).
Proof.
  assert (Hs : width demo_frame * height demo_frame * 3 <= INT_MAX) by (vm_compute; discriminate).
  assert (Hl : (length demo_pixels <= Z.to_nat (width demo_frame * height demo_frame * 3))%nat)
    by (vm_compute; lia).
  split; [lia|]. split; [cbn; lia|]. split; [cbn; lia|]. split; [exact Hs|].
  split; [reflexivity|]. split; [reflexivity|]. split; [reflexivity|]. split; [exact Hl|].
  split; [reflexivity|].
  apply (nonpositive_target_writes_nothing rgb888_only demo_frame 1%positive 0 demo_machine
           demo_pixels [0; 0; 0; 0; 7] [] [] [] demo_pixels);
    [lia | cbn; lia | cbn; lia | exact Hs | reflexivity | reflexivity | reflexivity
    | exact Hl | reflexivity].
Defined.

Lemma whole_ratio_downscale_is_decimation_witness :
  1 <= 2 /\ 1 <= 1 /\ 1 <= 2 <= 46340 /\
  width wide_frame = 2 * 2 /\ height wide_frame = 1 * 2 /\
  width wide_frame < 2 ^ 24 /\ height wide_frame < 2 ^ 24 /\
  width wide_frame * height wide_frame * 3 <= INT_MAX /\
  oracle wide_machine = Some [] :: Some [] :: [] /\
  frame_bytes wide_frame wide_machine = Some wide_pixels /\
  rgb888_only wide_pixels (len wide_frame) (format wide_frame) = Some wide_pixels /\
  (length wide_pixels <= Z.to_nat (width wide_frame * height wide_frame * 3))%nat /\
  tensors wide_machine !! 1%positive = Some [0; 0; 0; 0] /\
  2 * 2 <= Z.of_nat (length [0; 0; 0; 0]) /\
  exists m',
    preprocessImageForML sample_format rgb888_only (Some wide_frame) (Some 1%positive) 2
      wide_machine = Done true m' /\
    forall x y, 0 <= x < 2 -> 0 <= y < 2 ->
      exists g,
        grayscale rgb888_only wide_frame wide_machine
          !! Z.to_nat (1 * y * width wide_frame + 2 * x) = Some g /\
        tensor_at m' 1%positive (y * 2 + x) = Some (u8_val g - 128).
Proof.
  assert (Hs : width wide_frame * height wide_frame * 3 <= INT_MAX) by (vm_compute; discriminate).
  assert (Hl : (length wide_pixels <= Z.to_nat (width wide_frame * height wide_frame * 3))%nat)
    by (vm_compute; lia).
  assert (Hc : 2 * 2 <= Z.of_nat (length [0; 0; 0; 0])) by (cbn; lia).
  split; [lia|]. split; [lia|]. split; [lia|]. split; [reflexivity|]. split; [reflexivity|].
  split; [cbn; lia|]. split; [cbn; lia|]. split; [exact Hs|].
  split; [reflexivity|]. split; [reflexivity|]. split; [reflexivity|]. split; [exact Hl|].
  split; [reflexivity|]. split; [exact Hc|].
  apply (whole_ratio_downscale_is_decimation rgb888_only wide_frame 1%positive 2 wide_machine
           wide_pixels [0; 0; 0; 0] [] [] [] wide_pixels 2 1);
    [lia | lia | lia | reflexivity | reflexivity | cbn; lia | cbn; lia | exact Hs
    | reflexivity | reflexivity | reflexivity | exact Hl | reflexivity | exact Hc].
Defined.

Lemma bilinear_sample_between_neighbours_witness :
  heap corner_machine !! 7%positive = Some [x01; x02; x03; x04; x05; x06] /\
  Z.of_nat (length [x01; x02; x03; x04; x05; x06]) = 3 * 2 /\
  3 * 2 <= INT_MAX /\ 3 <= 2 ^ 24 /\ 2 <= 2 ^ 24 /\
  positive_normal (-47) (F32.div (F32.of_Z 5) (F32.of_Z 2)) /\
  positive_normal (-47) (F32.div (F32.of_Z 1) (F32.of_Z 4)) /\
  F32.to_int (F32.div (F32.of_Z 5) (F32.of_Z 2)) = Some 2 /\
  F32.to_int (F32.div (F32.of_Z 1) (F32.of_Z 4)) = Some 0 /\
  0 <= 2 < 3 /\ 0 <= 0 < 2 /\
  (let x2 := Z.min (2 + 1) (3 - 1) in
   let y2 := Z.min (0 + 1) (2 - 1) in
   exists p1 p2 p3 p4 pixel m',
     [x01; x02; x03; x04; x05; x06] !! Z.to_nat (0 * 3 + 2) = Some p1 /\
     [x01; x02; x03; x04; x05; x06] !! Z.to_nat (0 * 3 + x2) = Some p2 /\
     [x01; x02; x03; x04; x05; x06] !! Z.to_nat (y2 * 3 + 2) = Some p3 /\
     [x01; x02; x03; x04; x05; x06] !! Z.to_nat (y2 * 3 + x2) = Some p4 /\
     bilinear_interpolate 7%positive 3 2 (F32.div (F32.of_Z 5) (F32.of_Z 2))
       (F32.div (F32.of_Z 1) (F32.of_Z 4)) corner_machine = Done pixel m' /\
     F32.trunc (blend p1 p2 p3 p4
                  (F32.sub (F32.div (F32.of_Z 5) (F32.of_Z 2)) (F32.of_Z 2))
                  (F32.sub (F32.div (F32.of_Z 1) (F32.of_Z 4)) (F32.of_Z 0)))
     = Some (u8_val pixel) /\
     0 <= u8_val pixel <= 255 /\
     Z.min (Z.min (u8_val p1) (u8_val p2)) (Z.min (u8_val p3) (u8_val p4)) - 1
     <= u8_val pixel /\
     u8_val pixel <= Z.max (Z.max (u8_val p1) (u8_val p2)) (Z.max (u8_val p3) (u8_val p4))).
Proof.
  assert (Hx : positive_normal (-47) (F32.div (F32.of_Z 5) (F32.of_Z 2)))
    by (vm_compute; split; [reflexivity | discriminate]).
  assert (Hy : positive_normal (-47) (F32.div (F32.of_Z 1) (F32.of_Z 4)))
    by (vm_compute; split; [reflexivity | discriminate]).
  split; [reflexivity|]. split; [reflexivity|]. split; [unfold INT_MAX; lia|].
  split; [lia|]. split; [lia|]. split; [exact Hx|]. split; [exact Hy|].
  split; [reflexivity|]. split; [reflexivity|]. split; [lia|]. split; [lia|].
  apply (bilinear_sample_between_neighbours corner_machine 7%positive
           [x01; x02; x03; x04; x05; x06] 3 2
           (F32.div (F32.of_Z 5) (F32.of_Z 2)) (F32.div (F32.of_Z 1) (F32.of_Z 4)) 2 0);
    [reflexivity | reflexivity | unfold INT_MAX; lia | lia | lia | exact Hx | exact Hy
    | reflexivity | reflexivity | lia | lia].
Defined.

Lemma tensor_stays_in_channel_range_witness :
  1 <= width wide_frame < 2 ^ 24 /\ 1 <= height wide_frame < 2 ^ 24 /\
  width wide_frame * height wide_frame * 3 <= INT_MAX /\
  1 <= 2 <= 46340 /\
  oracle wide_machine = Some [] :: Some [] :: [] /\
  frame_bytes wide_frame wide_machine = Some wide_pixels /\
  rgb888_only wide_pixels (len wide_frame) (format wide_frame) = Some wide_pixels /\
  (length wide_pixels <= Z.to_nat (width wide_frame * height wide_frame * 3))%nat /\
  tensors wide_machine !! 1%positive = Some [0; 0; 0; 0] /\
  2 * 2 <= Z.of_nat (length [0; 0; 0; 0]) /\
  Forall (fun c => 1 <= u8_val c <= 8) (decoded_rgb rgb888_only wide_frame wide_machine) /\
  exists m',
    preprocessImageForML sample_format rgb888_only (Some wide_frame) (Some 1%positive) 2
      wide_machine = Done true m' /\
    Forall (fun g => 1 - 1 <= u8_val g <= 8) (grayscale rgb888_only wide_frame wide_machine) /\
    forall x y, 0 <= x < 2 -> 0 <= y < 2 ->
      exists pixel v,
        sample (grayscale rgb888_only wide_frame wide_machine) (frame_width wide_frame)
               (frame_height wide_frame) (x_scale wide_frame 2) (y_scale wide_frame 2) y x
        = Some pixel /\
        Z.max 0 (1 - 2) <= u8_val pixel <= 8 /\
        tensor_at m' 1%positive (y * 2 + x) = Some v /\
        v = u8_val pixel - 128 /\
        Z.max 0 (1 - 2) - 128 <= v <= 8 - 128.
Proof.
  assert (Hs : width wide_frame * height wide_frame * 3 <= INT_MAX) by (vm_compute; discriminate).
  assert (Hl : (length wide_pixels <= Z.to_nat (width wide_frame * height wide_frame * 3))%nat)
    by (vm_compute; lia).
  assert (Hc : 2 * 2 <= Z.of_nat (length [0; 0; 0; 0])) by (cbn; lia).
  assert (Hall : Forall (fun c => 1 <= u8_val c <= 8)
                   (decoded_rgb rgb888_only wide_frame wide_machine)).
  { change (decoded_rgb rgb888_only wide_frame wide_machine) with wide_pixels.
    unfold wide_pixels. repeat (apply Forall_cons; split; [cbn; lia|]). constructor. }
  split; [cbn; lia|]. split; [cbn; lia|]. split; [exact Hs|]. split; [lia|].
  split; [reflexivity|]. split; [reflexivity|]. split; [reflexivity|]. split; [exact Hl|].
  split; [reflexivity|]. split; [exact Hc|]. split; [exact Hall|].
  apply (tensor_stays_in_channel_range rgb888_only wide_frame 1%positive 2 wide_machine
           wide_pixels [0; 0; 0; 0] [] [] [] wide_pixels 1 8);
    [cbn; lia | cbn; lia | exact Hs | lia | reflexivity | reflexivity | reflexivity
    | exact Hl | reflexivity | exact Hc | exact Hall].
Defined.
